(** * tf2onnx: lookup-table handlers, broadcast handlers, dispatch and
      the common conversion entry point

    Shallow embedding of
    - [tf2onnx/custom_opsets/onnx_ml.py]  (HashTableV2, LookupTableFindV2,
      LookupTableSizeV2 handlers),
    - [tf2onnx/onnx_opset/common.py]      (BroadcastOp),
    - [tf2onnx/convert.py]                (_convert_common),
    over a model of the mutable graph the handlers work on. *)

From stdpp Require Import gmap strings list fin_maps.
From Stdlib Require Import ZArith Lia Sorted Ascii.

Local Open Scope string_scope.
Local Open Scope list_scope.
Local Open Scope nat_scope.

(** ** Python values, attributes, nodes *)

(** Hashable Python scalars: tensor payloads and dictionary keys.  A [str]
    and a [bytes] object are never equal, whatever their text. *)
Inductive Scalar :=
  | SStr (s : string)
  | SBytes (b : string)
  | SInt (z : Z).

#[global] Instance Scalar_eq_dec : EqDecision Scalar.
Proof. solve_decision. Defined.

#[global] Instance Scalar_countable : Countable Scalar.
Proof.
  refine (inj_countable'
            (λ v, match v with
                  | SStr s => inl (inl s)
                  | SBytes b => inl (inr b)
                  | SInt z => inr z
                  end)
            (λ x, match x with
                  | inl (inl s) => SStr s
                  | inl (inr b) => SBytes b
                  | inr z => SInt z
                  end) _).
  by intros [].
Defined.

(** The values found in the dynamically typed attribute bag of a node and
    passed as [%s] arguments of error messages: [None], a boolean, a
    scalar, a list of scalars, the nested list [tolist()] gives for an array
    with the dimensions [d :: dims] (its elements in row-major order), and a
    tensor constant, either without dimensions or with the dimensions
    [d :: dims]. *)
Inductive PyVal :=
  | PNone
  | PBool (b : bool)
  | PScalar (v : Scalar)
  | PInts (l : list Z)
  | PList (l : list Scalar)
  | PArray (d : nat) (dims : list nat) (data : list Scalar)
  | PTensor (v : Scalar)
  | PTensorN (d : nat) (dims : list nat) (data : list Scalar).

#[global] Instance PyVal_eq_dec : EqDecision PyVal.
Proof. solve_decision. Defined.

(** A node: operation kind [type], unique [name], ordered input and output
    tensor identifiers, attributes and a domain tag. *)
Record Node := mkNode {
  name : string;
  type : string;
  domain : string;
  input : list string;
  output : list string;
  attr : gmap string PyVal
}.

#[global] Instance Node_eq_dec : EqDecision Node.
Proof. solve_decision. Defined.

(** [onnx.TensorProto] element-type tags used by the handlers. *)
Definition INT64 : Z := 7.
Definition STRING : Z := 8.

(** [constants.AI_ONNX_ML_DOMAIN] and the default ONNX domain. *)
Definition AI_ONNX_ML_DOMAIN : string := "ai.onnx.ml".
Definition ONNX_DOMAIN : string := "".

(** ** The graph *)

(** Modelled from the spec: the Graph Model of section 3 and 4.1 (the
    class [Graph] of tf2onnx/graph.py is not part of the sources at hand).
    A graph owns an ordered collection of nodes; shapes and element types
    are annotations of tensor identifiers; [targets] are the capability
    flags queried by [is_target]. *)
Record Graph := mkGraph {
  nodes : list Node;
  output_shapes : gmap string (list Z);
  output_dtypes : gmap string Z;
  targets : list string
}.

#[global] Instance Graph_eq_dec : EqDecision Graph.
Proof. solve_decision. Defined.

(** ** Exceptions and the state-and-exception monad *)

Inductive Exn :=
  | MakeSureFailure (fmt : string) (args : list PyVal)
  | IndexError
  | AttributeError
  | TypeError
  | KeyError
  | ValueError
  | UnsupportedOp (node_name : string)
  | MissingOutput (tensor : string)
  | NonTermination.

#[global] Instance Exn_eq_dec : EqDecision Exn.
Proof. solve_decision. Defined.

Inductive Res (A : Type) :=
  | Ret (a : A)
  | Raise (e : Exn).
Arguments Ret {A} a.
Arguments Raise {A} e.

(** A computation over the mutable graph: the graph as it is when the
    computation returns or raises, and the outcome. *)
Definition M (A : Type) : Type := Graph → Graph * Res A.

Definition ret {A} (a : A) : M A := λ g, (g, Ret a).
Definition raise {A} (e : Exn) : M A := λ g, (g, Raise e).
Definition bind {A B} (m : M A) (k : A → M B) : M B :=
  λ g, match m g with
       | (g', Ret a) => k a g'
       | (g', Raise e) => (g', Raise e)
       end.
Definition get_graph : M Graph := λ g, (g, Ret g).
Definition modify (f : Graph → Graph) : M unit := λ g, (f g, Ret tt).
Definition lift {A} (r : Res A) : M A := λ g, (g, r).

#[global] Instance M_ret : MRet M := @ret.
#[global] Instance M_bind : MBind M := λ A B k m, bind m k.

(** [utils.make_sure(cond, fmt, *args)]: raises when [cond] is false. *)
Definition make_sure (cond : bool) (fmt : string) (args : list PyVal) : M unit :=
  if cond then ret tt else raise (MakeSureFailure fmt args).

(** ** Graph operations *)

(** Modelled from the spec: [get_node_by_output], the producer of a tensor
    identifier (section 3: a tensor is produced by one node's output). *)
Definition get_node_by_output (g : Graph) (t : string) : option Node :=
  find (λ n, bool_decide (t ∈ output n)) (nodes g).

(** Modelled from the spec: [get_node_by_name] (names are unique). *)
Definition get_node_by_name (g : Graph) (nm : string) : option Node :=
  find (λ n, bool_decide (name n = nm)) (nodes g).

(** Modelled from the spec: the property [Node.inputs], the producers of
    the node's input tensors; [None] where a tensor has no producer. *)
Definition node_inputs (g : Graph) (n : Node) : list (option Node) :=
  get_node_by_output g <$> input n.

(** [n.inputs[i]] followed by an attribute access on the result: an
    [IndexError] when [n] has no such input, an [AttributeError] when the
    tensor has no producer (the entry is [None]). *)
Definition input_node (g : Graph) (n : Node) (i : nat) : Res Node :=
  match node_inputs g n !! i with
  | None => Raise IndexError
  | Some None => Raise AttributeError
  | Some (Some m) => Ret m
  end.

(** [l[i]] on a Python list. *)
Definition py_index {A} (l : list A) (i : nat) : Res A :=
  match l !! i with
  | Some x => Ret x
  | None => Raise IndexError
  end.

(** Modelled from the spec: [Node.is_const], a constant-valued node. *)
Definition is_const (n : Node) : bool := bool_decide (type n = "Const").

(** Modelled from the spec: [Node.get_attr_value]. *)
Definition get_attr_value (n : Node) (k : string) : PyVal :=
  default PNone (attr n !! k).

(** The elements of a string tensor are read as [str]. *)
Definition decode (v : Scalar) : Scalar :=
  match v with
  | SBytes b => SStr b
  | _ => v
  end.

(** Modelled from the spec: [Node.get_tensor_value], the payload of the
    tensor constant held by a constant node, as a Python value: a scalar for
    a tensor without dimensions and a (nested) list otherwise. *)
Definition get_tensor_value (n : Node) : Res PyVal :=
  if is_const n then
    match attr n !! "value" with
    | Some (PTensor v) => Ret (PScalar (decode v))
    | Some (PTensorN d dims data) => Ret (PArray d dims (decode <$> data))
    | _ => Raise ValueError
    end
  else Raise ValueError.

(** [numpy_helper.from_array(np.array(v), name)]: the tensor constant of a
    scalar or of a list. *)
Definition from_array (v : PyVal) : Res PyVal :=
  match v with
  | PScalar s => Ret (PTensor s)
  | PArray d dims data => Ret (PTensorN d dims data)
  | PInts l => Ret (PTensorN (length l) [] (SInt <$> l))
  | PList l => Ret (PTensorN (length l) [] l)
  | PNone | PBool _ | PTensor _ | PTensorN _ _ _ => Raise TypeError
  end.

(** Modelled from the spec: [get_shape] and [get_dtype]; [None] is
    "unknown". *)
Definition get_shape (g : Graph) (t : string) : option (list Z) :=
  output_shapes g !! t.
Definition get_dtype (g : Graph) (t : string) : option Z :=
  output_dtypes g !! t.

(** Modelled from the spec: [is_target(capability_flag)]. *)
Definition is_target (g : Graph) (flag : string) : bool :=
  bool_decide (flag ∈ targets g).

(** Modelled from the spec: [find_output_consumers(tensor)], every node that
    has the tensor among its inputs. *)
Definition find_output_consumers (g : Graph) (t : string) : list Node :=
  filter (λ n, t ∈ input n) (nodes g).

(** Modelled from the spec: [remove_node].  The node leaves the collection
    together with the annotations of its outputs; nothing cascades.  The
    handlers delete a node and re-emit its output identifiers afterwards
    (section 4.2), so deletion does not look at consumers. *)
Definition remove_node_pure (nm : string) (g : Graph) : Graph :=
  let gone := filter (λ n, name n = nm) (nodes g) in
  let outs := gone ≫= output in
  {| nodes := filter (λ n, name n ≠ nm) (nodes g);
     output_shapes := foldr delete (output_shapes g) outs;
     output_dtypes := foldr delete (output_dtypes g) outs;
     targets := targets g |}.
Definition remove_node (nm : string) : M unit := modify (remove_node_pure nm).

(** Annotating the outputs of a new node: [shapes] and [dtypes] are given
    per output, in order. *)
Definition annotate {V} (outs : list string) (vals : list (option V))
    (m : gmap string V) : gmap string V :=
  foldr (λ kv acc, match kv.2 with
                   | Some v => <[kv.1 := v]> acc
                   | None => delete kv.1 acc
                   end) m (zip outs vals).

(** Modelled from the spec: [make_node], which adds a node with the given
    kind, name, inputs, outputs, attributes and domain, and records the
    shapes and element types of its outputs. *)
Definition make_node_pure (n : Node) (shapes : list (option (list Z)))
    (dtypes : list (option Z)) (g : Graph) : Graph :=
  {| nodes := nodes g ++ [n];
     output_shapes := annotate (output n) shapes (output_shapes g);
     output_dtypes := annotate (output n) dtypes (output_dtypes g);
     targets := targets g |}.
Definition make_node (op_type nm : string) (inputs outputs : list string)
    (attrs : gmap string PyVal) (shapes : list (option (list Z)))
    (dtypes : list (option Z)) (dom : string) : M Node :=
  let n := {| name := nm; type := op_type; domain := dom;
              input := inputs; output := outputs; attr := attrs |} in
  modify (make_node_pure n shapes dtypes) ;; mret n.

(** Modelled from the spec: [make_const(name, value)], a constant node
    whose single output is the name itself; [dtype] and [shape] are those
    of the numpy value. *)
Definition make_const (nm : string) (val : Scalar) (dtype : Z) : M Node :=
  make_node "Const" nm [] [nm] {[ "value" := PTensor val ]}
            [Some []] [Some dtype] ONNX_DOMAIN.

(** Modelled from the spec: [replace_all_inputs(old_tensor, new_tensor)],
    which rewires every consumer. *)
Definition replace_input (old new : string) (t : string) : string :=
  if decide (t = old) then new else t.
Definition rewire (old new : string) (n : Node) : Node :=
  {| name := name n; type := type n; domain := domain n;
     input := replace_input old new <$> input n;
     output := output n; attr := attr n |}.
Definition replace_all_inputs_pure (old new : string) (g : Graph) : Graph :=
  {| nodes := rewire old new <$> nodes g;
     output_shapes := output_shapes g;
     output_dtypes := output_dtypes g;
     targets := targets g |}.
Definition replace_all_inputs (old new : string) : M unit :=
  modify (replace_all_inputs_pure old new).

(** ** The walk through Identity nodes

    [[
        table_node = node.inputs[0]
        while table_node.type == 'Identity':
            table_node = table_node.inputs[0]
    ]]
    The loop is run with fuel; running out of fuel is [NonTermination]. *)
Fixpoint walk_identity (fuel : nat) (g : Graph) (table_node : Node) : Res Node :=
  if decide (type table_node = "Identity") then
    match fuel with
    | O => Raise NonTermination
    | S fuel' =>
        match input_node g table_node 0 with
        | Ret m => walk_identity fuel' g m
        | Raise e => Raise e
        end
    end
  else Ret table_node.

(** Every step of the loop moves to a node of the graph, so a walk that
    takes more steps than there are nodes repeats one and never ends. *)
Definition walk_fuel (g : Graph) : nat := length (nodes g).

Definition find_table_node (g : Graph) (node : Node) : Res Node :=
  match input_node g node 0 with
  | Ret m => walk_identity (walk_fuel g) g m
  | Raise e => Raise e
  end.

(** ** Python dictionaries *)

(** [dict(pairs)]: later pairs overwrite earlier ones. *)
Definition py_dict `{Countable K} {V} (kvs : list (K * V)) : gmap K V :=
  foldl (λ m kv, <[kv.1 := kv.2]> m) ∅ kvs.

(** [key in d] for a dictionary with [str] keys: [None] and the scalars
    are hashable, lists and tensors raise [TypeError]. *)
Definition py_in {V} (key : PyVal) (d : gmap string V) : Res bool :=
  match key with
  | PScalar (SStr s) => Ret (bool_decide (is_Some (d !! s)))
  | PScalar (SBytes _) | PScalar (SInt _) | PNone | PBool _ => Ret false
  | PInts _ | PList _ | PArray _ _ _ | PTensor _ | PTensorN _ _ _ =>
      Raise TypeError
  end.

(** [d[key]]. *)
Definition py_getitem {V} (d : gmap string V) (key : PyVal) : Res V :=
  match key with
  | PScalar (SStr s) =>
      match d !! s with Some v => Ret v | None => Raise KeyError end
  | PScalar (SBytes _) | PScalar (SInt _) | PNone | PBool _ => Raise KeyError
  | PInts _ | PList _ | PArray _ _ _ | PTensor _ | PTensorN _ _ _ =>
      Raise TypeError
  end.

(** [d.get(key, dflt)] for a dictionary from scalars to integers: the key is
    hashed first, which raises [TypeError] for a list; [True] and [False]
    are the keys 1 and 0. *)
Definition py_get (d : gmap Scalar Z) (key : PyVal) (dflt : PyVal)
  : Res PyVal :=
  let found k :=
    match d !! k with
    | Some v => PScalar (SInt v)
    | None => dflt
    end in
  match key with
  | PScalar k => Ret (found k)
  | PBool b => Ret (found (SInt (if b then 1 else 0)))
  | PNone => Ret dflt
  | PInts _ | PList _ | PArray _ _ _ | PTensor _ | PTensorN _ _ _ =>
      Raise TypeError
  end.

(** The initialized-table side data: shared name to a pair of parallel key
    and value sequences.  The keys are scalars: [bytes] in a table loaded
    from a model, [str] in one written by hand. *)
Abbreviation Tables := (gmap string (list Scalar * list Z)).

(** ** tf2onnx/custom_opsets/onnx_ml.py *)

(** The graph the cleanup below leaves, given the first output [out0] of
    the table node. *)
Definition pruned (g : Graph) (table_node : Node) (out0 : string) : Graph :=
  if decide (length (find_output_consumers g out0) = 0)
  then remove_node_pure (name table_node) g
  else g.

(** The cleanup shared by both lookup handlers:
    [[
        customer_nodes = ctx.find_output_consumers(table_node.output[0])
        if len(customer_nodes) == 0:
            ctx.remove_node(table_node.name)
    ]] *)
Definition prune_table_node (table_node : Node) : M unit :=
  out0 ← lift (py_index (output table_node) 0);
  g ← get_graph;
  let customer_nodes := find_output_consumers g out0 in
  if decide (length customer_nodes = 0) then remove_node (name table_node)
  else mret tt.

Module HashTable.
(** "HashTable will be removed": the handler does nothing. *)
Definition version_8 (node : Node) : M unit := mret tt.
End HashTable.

Module LookupTableFind.

Definition msg_shared_name : string :=
  "Could not determine table shared name for node %s".
Definition msg_not_found : string :=
  "Initialized table %s for node %s not found.".
Definition msg_default : string :=
  "Default value of table lookup must be const.".
Definition msg_dtype : string :=
  "Only lookup tables of type string->int64 are currently supported.".

(** Everything up to the first mutation: the walk, the four [make_sure]
    checks and the values read for the rewrite. *)
Record Checked := mkChecked {
  table_node : Node;
  default_val : PyVal;
  dtype : option Z;
  cats_strings : list Scalar;
  cats_int64s : list Z;
  shape : option (list Z)
}.

Definition checks (node : Node) (initialized_tables : Tables) : M Checked :=
  g ← get_graph;
  table_node ← lift (find_table_node g node);
  let shared_name := get_attr_value table_node "shared_name" in
  make_sure (bool_decide (shared_name ≠ PNone)) msg_shared_name
            [PScalar (SStr (name node))] ;;
  found ← lift (py_in shared_name initialized_tables);
  make_sure found msg_not_found [shared_name; PScalar (SStr (name node))] ;;
  default_node ← lift (input_node g node 2);
  make_sure (is_const default_node) msg_default [] ;;
  default_val ← lift (get_tensor_value default_node);
  out0 ← lift (py_index (output node) 0);
  let dtype := get_dtype g out0 in
  in1 ← lift (py_index (input node) 1);
  let in_dtype := get_dtype g in1 in
  make_sure (bool_decide (dtype = Some INT64) && bool_decide (in_dtype = Some STRING))
            msg_dtype [] ;;
  '(cats_strings, cats_int64s) ← lift (py_getitem initialized_tables shared_name);
  out0' ← lift (py_index (output node) 0);
  let shape := get_shape g out0' in
  mret (mkChecked table_node default_val dtype cats_strings cats_int64s shape).

(** The conversion proper, the two branches of
    [if node.inputs[1].is_const():]. *)
Definition convert (node : Node) (c : Checked) : M unit :=
  let node_name := name node in
  let node_inputs := input node in
  let node_outputs := output node in
  g ← get_graph;
  key_node ← lift (input_node g node 1);
  if is_const key_node then
     key ← lift (get_tensor_value key_node);
     remove_node (name node) ;;
     let key_to_val := py_dict (zip (cats_strings c) (cats_int64s c)) in
     lookup_val ← lift (py_get key_to_val key (default_val c));
     onnx_tensor ← lift (from_array lookup_val);
     make_node "Const" node_name [] node_outputs {[ "value" := onnx_tensor ]}
               [Some []] [dtype c] ONNX_DOMAIN ;;
     mret tt
   else
     remove_node (name node) ;;
     in1 ← lift (py_index node_inputs 1);
     make_node "CategoryMapper" node_name [in1] node_outputs
               (<[ "cats_int64s" := PInts (cats_int64s c) ]>
                (<[ "cats_strings" := PList (cats_strings c) ]>
                 {[ "default_int64" := default_val c ]}))
               [shape c] [dtype c] AI_ONNX_ML_DOMAIN ;;
     mret tt.

Definition rewrite (node : Node) (c : Checked) : M unit :=
  convert node c ;;
  prune_table_node (table_node c).

(** "convert lookup to category mapper" *)
Definition version_8 (node : Node) (initialized_tables : Tables) : M unit :=
  c ← checks node initialized_tables;
  rewrite node c.

End LookupTableFind.

Module LookupTableSize.

Definition checks (node : Node) (initialized_tables : Tables)
  : M (Node * list Scalar) :=
  g ← get_graph;
  table_node ← lift (find_table_node g node);
  let shared_name := get_attr_value table_node "shared_name" in
  make_sure (bool_decide (shared_name ≠ PNone)) LookupTableFind.msg_shared_name
            [PScalar (SStr (name node))] ;;
  found ← lift (py_in shared_name initialized_tables);
  make_sure found LookupTableFind.msg_not_found
            [shared_name; PScalar (SStr (name node))] ;;
  '(keys, _) ← lift (py_getitem initialized_tables shared_name);
  mret (table_node, keys).

Definition convert (node : Node) (keys : list Scalar) : M unit :=
  let node_name := name node in
  let node_outputs := output node in
  remove_node (name node) ;;
  size_const ← make_const node_name (SInt (Z.of_nat (length keys))) INT64;
  old ← lift (py_index node_outputs 0);
  new ← lift (py_index (output size_const) 0);
  replace_all_inputs old new.

Definition rewrite (node : Node) (table_node : Node) (keys : list Scalar)
  : M unit :=
  convert node keys ;;
  prune_table_node table_node.

Definition version_1 (node : Node) (initialized_tables : Tables) : M unit :=
  '(table_node, keys) ← checks node initialized_tables;
  rewrite node table_node keys.

End LookupTableSize.

(** ** tf2onnx/onnx_opset/common.py *)

(** [node.set_attr(k, v)] and the assignment to [node.input[i]] change the
    node object, which the graph holds under its name. *)
Definition with_attr (k : string) (v : PyVal) (n : Node) : Node :=
  {| name := name n; type := type n; domain := domain n;
     input := input n; output := output n; attr := <[k := v]> (attr n) |}.
Definition with_input (inputs : list string) (n : Node) : Node :=
  {| name := name n; type := type n; domain := domain n;
     input := inputs; output := output n; attr := attr n |}.
Definition store_node (n' : Node) : M unit :=
  modify (λ g, {| nodes := (λ n, if decide (name n = name n') then n' else n)
                             <$> nodes g;
                  output_shapes := output_shapes g;
                  output_dtypes := output_dtypes g;
                  targets := targets g |}).
Definition set_attr (n : Node) (k : string) (v : PyVal) : M Node :=
  let n' := with_attr k v n in store_node n' ;; mret n'.

(** Truth value of a shape: [None] and the empty list are false. *)
Definition shape_truthy (s : option (list Z)) : bool :=
  match s with
  | Some (_ :: _) => true
  | _ => false
  end.

Definition shape_len (s : option (list Z)) : nat :=
  match s with
  | Some l => length l
  | None => 0
  end.

Module BroadcastOp.
Section Absent.

(** [constants.TARGET_RS4] and [Node.scalar_to_dim1] are declared outside
    the sources at hand.  [scalar_to_dim1] stands for the shape the call
    returns; what the call does to the constant it is called on is not
    modelled, so under the target RS4 the model speaks of the node and its
    inputs, not of the constants that feed it. *)
Variable TARGET_RS4 : string.
Variable scalar_to_dim1 : Node → option (list Z).

(** [[
        if not shape_i:
            if node.inputs[i].is_const():
                shape_i = node.inputs[i].scalar_to_dim1()
    ]] *)
Definition rs4_shape (g : Graph) (node : Node) (i : nat)
    (shape_i : option (list Z)) : Res (option (list Z)) :=
  if shape_truthy shape_i then Ret shape_i
  else match input_node g node i with
       | Ret m => Ret (if is_const m then scalar_to_dim1 m else shape_i)
       | Raise e => Raise e
       end.

(** "this works around shortcomings in the broadcasting code of caffe2
    and winml/rs4" *)
Definition rs4_workaround (node : Node) (shape0 shape1 : option (list Z))
  : M (option (list Z) * option (list Z)) :=
  g ← get_graph;
  if is_target g TARGET_RS4 then
    shape0' ← lift (rs4_shape g node 0 shape0);
    shape1' ← lift (rs4_shape g node 1 shape1);
    mret (shape0', shape1')
  else mret (shape0, shape1).

Definition swap_test (node : Node) (shape0 shape1 : option (list Z)) : bool :=
  shape_truthy shape0 && shape_truthy shape1
  && bool_decide (shape_len shape0 < shape_len shape1)%nat
  && bool_decide (type node ∈ ["Mul"; "Add"]).

(** [[
        tmp = node.input[0]
        node.input[0] = node.input[1]
        node.input[1] = tmp
    ]] *)
Definition swap_inputs (node : Node) : M Node :=
  tmp ← lift (py_index (input node) 0);
  in1 ← lift (py_index (input node) 1);
  let node' := with_input (<[1 := tmp]> (<[0 := in1]> (input node))) node in
  store_node node' ;; mret node'.

Definition maybe_swap (node : Node) (shape0 shape1 : option (list Z)) : M Node :=
  '(shape0', shape1') ← rs4_workaround node shape0 shape1;
  if swap_test node shape0' shape1' then swap_inputs node else mret node.

(** "Elementwise Ops with broadcast flag." *)
Definition version_4 (node : Node) : M Node :=
  g ← get_graph;
  in0 ← lift (py_index (input node) 0);
  let shape0 := get_shape g in0 in
  in1 ← lift (py_index (input node) 1);
  let shape1 := get_shape g in1 in
  if bool_decide (shape0 ≠ shape1) then
    node ← set_attr node "broadcast" (PScalar (SInt 1));
    maybe_swap node shape0 shape1
  else
    set_attr node "broadcast" (PScalar (SInt 0)).

Definition version_7 (node : Node) : M Node :=
  g ← get_graph;
  in0 ← lift (py_index (input node) 0);
  let shape0 := get_shape g in0 in
  in1 ← lift (py_index (input node) 1);
  let shape1 := get_shape g in1 in
  if bool_decide (shape0 ≠ shape1) then
    maybe_swap node shape0 shape1
  else
    mret node.

End Absent.
End BroadcastOp.

(** ** tf2onnx/convert.py *)

Definition with_domain (d : string) (n : Node) : Node :=
  {| name := name n; type := type n; domain := d;
     input := input n; output := output n; attr := attr n |}.

(** [[
    def make_default_custom_op_handler(domain):
        def default_custom_op_handler(ctx, node, name, args):
            node.domain = domain
            return node
        return default_custom_op_handler
    ]] *)
Definition make_default_custom_op_handler (domain : string) (node : Node)
  : M Node :=
  let node' := with_domain domain node in
  store_node node' ;; mret node'.

(** Truth value of an optional path: [None] and the empty string are
    false. *)
Definition path_truthy (p : option string) : bool :=
  match p with
  | Some s => negb (bool_decide (s = ""))
  | None => false
  end.

Module Convert.
Section ConvertCommon.

(** Values that [_convert_common] only passes on. *)
Context {GraphDef TfGraph OnnxGraph ModelProto : Type}.
Context {ConstValues Storage CustomOps Rewriter ExtraOpset : Type}.
Context {ShapeOverride Renames : Type}.

(** The keyword arguments of the call of [process_tf_graph]. *)
Record ProcessArgs := mkProcessArgs {
  kw_continue_on_error : bool;
  kw_target : option (list string);
  kw_opset : option nat;
  kw_custom_op_handlers : option CustomOps;
  kw_extra_opset : option ExtraOpset;
  kw_shape_override : option ShapeOverride;
  kw_input_names : option (list string);
  kw_output_names : option (list string);
  kw_inputs_as_nchw : option (list string);
  kw_const_node_values : option ConstValues;
  kw_tensors_to_rename : option Renames;
  kw_use_default : PyVal;
  kw_dequantize : bool;
  kw_ignore_default : PyVal;
  kw_tflite_path : option string;
  kw_initialized_tables : option Tables
}.

(** The parameters of [_convert_common]. *)
Record CommonArgs := mkCommonArgs {
  frozen_graph : GraphDef;
  arg_name : string;
  input_names : option (list string);
  output_names : option (list string);
  initialized_tables : option Tables;
  opset : option nat;
  custom_ops : option CustomOps;
  custom_op_handlers : option CustomOps;
  custom_rewriter : option Rewriter;
  ignore_default : PyVal;
  continue_on_error : bool;
  inputs_as_nchw : option (list string);
  extra_opset : option ExtraOpset;
  shape_override : option ShapeOverride;
  target : option (list string);
  tensors_to_rename : option Renames;
  large_model : bool;
  use_default : PyVal;
  dequantize : bool;
  tflite_path : option string;
  output_frozen_graph : option string;
  output_path : option string
}.

(** The collaborators of [_convert_common]: the TensorFlow import, the
    conversion driver, the optimizer and the serialization.  Only the driver
    is modelled as able to raise; a failure of another collaborator is
    outside the model. *)
Variable compress_graph_def : GraphDef → ConstValues.
Variable ExternalTensorStorage : Storage.
Variable import_graph_def : GraphDef → TfGraph.
Variable process_tf_graph : TfGraph → ProcessArgs → Res OnnxGraph.
Variable optimize_graph : OnnxGraph → OnnxGraph.
Variable make_model : OnnxGraph → string → option Storage → ModelProto.

(** What [_convert_common] writes to disk. *)
Inductive Saved :=
  | save_protobuf_graph (path : string) (g : GraphDef)
  | save_protobuf (path : string) (m : ModelProto)
  | save_onnx_zip (path : string) (m : ModelProto) (s : option Storage).

(** The arguments [_convert_common] hands to [process_tf_graph]. *)
Definition forwarded (a : CommonArgs) : ProcessArgs :=
  {| kw_continue_on_error := true;
     kw_target := target a;
     kw_opset := opset a;
     kw_custom_op_handlers := custom_ops a;
     kw_extra_opset := extra_opset a;
     kw_shape_override := shape_override a;
     kw_input_names := input_names a;
     kw_output_names := output_names a;
     kw_inputs_as_nchw := inputs_as_nchw a;
     kw_const_node_values :=
       if large_model a then Some (compress_graph_def (frozen_graph a))
       else None;
     kw_tensors_to_rename := tensors_to_rename a;
     kw_use_default := use_default a;
     kw_dequantize := dequantize a;
     kw_ignore_default := PBool false;
     kw_tflite_path := tflite_path a;
     kw_initialized_tables := initialized_tables a |}.

(** "Common processing for conversion."  The result is the list of files
    written and either the pair [(model_proto, external_tensor_storage)]
    or the exception that ended the call. *)
Definition _convert_common (a : CommonArgs)
  : list Saved * Res (ModelProto * option Storage) :=
  let external_tensor_storage :=
    if large_model a then Some ExternalTensorStorage else None in
  let saved0 :=
    if path_truthy (output_frozen_graph a)
    then [save_protobuf_graph (default "" (output_frozen_graph a)) (frozen_graph a)]
    else [] in
  let tf_graph := import_graph_def (frozen_graph a) in
  match process_tf_graph tf_graph (forwarded a) with
  | Raise e => (saved0, Raise e)
  | Ret g =>
      let onnx_graph := optimize_graph g in
      let model_proto :=
        make_model onnx_graph ("converted from " +:+ arg_name a)
                   external_tensor_storage in
      let saved1 :=
        if path_truthy (output_path a) then
          if large_model a
          then [save_onnx_zip (default "" (output_path a)) model_proto
                              external_tensor_storage]
          else [save_protobuf (default "" (output_path a)) model_proto]
        else [] in
      (saved0 ++ saved1, Ret (model_proto, external_tensor_storage))
  end.

(** The same call with another [ignore_default], respectively another
    [continue_on_error]. *)
Definition set_ignore_default (v : PyVal) (a : CommonArgs) : CommonArgs :=
  mkCommonArgs (frozen_graph a) (arg_name a) (input_names a) (output_names a)
    (initialized_tables a) (opset a) (custom_ops a) (custom_op_handlers a)
    (custom_rewriter a) v (continue_on_error a) (inputs_as_nchw a)
    (extra_opset a) (shape_override a) (target a) (tensors_to_rename a)
    (large_model a) (use_default a) (dequantize a) (tflite_path a)
    (output_frozen_graph a) (output_path a).
Definition set_continue_on_error (b : bool) (a : CommonArgs) : CommonArgs :=
  mkCommonArgs (frozen_graph a) (arg_name a) (input_names a) (output_names a)
    (initialized_tables a) (opset a) (custom_ops a) (custom_op_handlers a)
    (custom_rewriter a) (ignore_default a) b (inputs_as_nchw a)
    (extra_opset a) (shape_override a) (target a) (tensors_to_rename a)
    (large_model a) (use_default a) (dequantize a) (tflite_path a)
    (output_frozen_graph a) (output_path a).

End ConvertCommon.
End Convert.

(** ** The handler registry and the conversion driver *)

Module Registry.
Section Dispatch.

Context {H : Type}.

(** Modelled from the spec: a handler registration (section 3), for each
    operation kind an ordered list of (minimum target version, conversion
    function); tf2onnx/handler.py is not part of the sources at hand. *)
Definition Registration : Type := gmap string (list (nat * H)).

(** Modelled from the spec: the linear search of the design notes over
    the version-ordered list of one kind, which keeps the last entry whose
    minimum version does not exceed the requested one and stops at the
    first entry that does. *)
Fixpoint resolve (entries : list (nat * H)) (version : nat)
    (best : option (nat * H)) : option (nat * H) :=
  match entries with
  | [] => best
  | e :: rest =>
      if decide (e.1 ≤ version)%nat then resolve rest version (Some e)
      else best
  end.

(** Modelled from the spec: the dispatch algorithm of section 4.2; [None]
    is "unconverted". *)
Definition dispatch (registry : Registration) (K : string) (version : nat)
  : option (nat * H) :=
  match registry !! K with
  | None => None
  | Some entries => resolve entries version None
  end.

(** The list of one kind is ordered by minimum version. *)
Definition version_ordered (entries : list (nat * H)) : Prop :=
  StronglySorted (λ e1 e2, (e1.1 < e2.1)%nat) entries.

End Dispatch.
End Registry.

Module Driver.

Definition Handler : Type := Node → Tables → M unit.
Definition CustomHandler : Type := Node → M Node.

(** Modelled from the spec: the configuration values the driver reads
    (section 6): the registry, the custom-operation handlers, the target
    version, the error policy, the side tables and the required
    outputs. *)
Record Config := mkConfig {
  registry : @Registry.Registration Handler;
  custom_op_handlers : gmap string CustomHandler;
  opset : nat;
  continue_on_error : bool;
  initialized_tables : Tables;
  output_names : list string
}.

(** Modelled from the spec: per-node dispatch with the fallback policy of
    section 4.2 (tf2onnx/tfonnx.py is not part of the sources at hand).
    [failed] accumulates the names of the nodes that stay unconverted. *)
Definition convert_node (cfg : Config) (n : Node) (failed : list string)
  : M (list string) :=
  match Registry.dispatch (registry cfg) (type n) (opset cfg) with
  | Some (_, handler) =>
      handler n (initialized_tables cfg) ;; mret failed
  | None =>
      match custom_op_handlers cfg !! type n with
      | Some custom => custom n ;; mret failed
      | None =>
          if continue_on_error cfg then mret (failed ++ [name n])
          else raise (UnsupportedOp (name n))
      end
  end.

(** Modelled from the spec: the walk over the nodes the graph had when
    the conversion started; a node that an earlier handler removed is
    skipped. *)
Fixpoint convert_nodes (cfg : Config) (todo : list string)
    (failed : list string) : M (list string) :=
  match todo with
  | [] => mret failed
  | nm :: rest =>
      g ← get_graph;
      match get_node_by_name g nm with
      | Some n =>
          failed' ← convert_node cfg n failed;
          convert_nodes cfg rest failed'
      | None => convert_nodes cfg rest failed
      end
  end.

(** Modelled from the spec: at completion the conversion fails if a
    required output is not produced by any node. *)
Fixpoint check_outputs (outs : list string) : M unit :=
  match outs with
  | [] => mret tt
  | t :: rest =>
      g ← get_graph;
      match get_node_by_output g t with
      | Some _ => check_outputs rest
      | None => raise (MissingOutput t)
      end
  end.

Definition process (cfg : Config) : M (list string) :=
  g ← get_graph;
  failed ← convert_nodes cfg (name <$> nodes g) [];
  check_outputs (output_names cfg) ;;
  mret failed.

End Driver.

(** ** The dependency relation of a graph *)

(** [consumes g n m]: node [n] of the graph has an input produced by [m]. *)
Definition consumes (g : Graph) (n m : Node) : Prop :=
  n ∈ nodes g ∧ ∃ t, t ∈ input n ∧ get_node_by_output g t = Some m.

(** The acyclic-DAG invariant of section 3: no node depends on itself. *)
Definition acyclic (g : Graph) : Prop :=
  ∀ n, ¬ tc (consumes g) n n.

(** Every Identity node of the graph has a first input with a producer. *)
Definition identity_inputs_produced (g : Graph) : Prop :=
  ∀ n, n ∈ nodes g → type n = "Identity" → ∃ p, input_node g n 0 = Ret p.

(** [id_chain g n r]: [r] is the first node whose kind is not 'Identity'
    on the chain of first inputs that starts at [n]. *)
Inductive id_chain (g : Graph) : Node → Node → Prop :=
  | id_chain_stop r :
      type r ≠ "Identity" → id_chain g r r
  | id_chain_step n m r :
      type n = "Identity" → input_node g n 0 = Ret m →
      id_chain g m r → id_chain g n r.

(** ** Example graphs

    A string-to-int64 table [{"a": 1, "b": 2}] shared as "vocab", reached
    from the lookup nodes through one Identity node, with default 0. *)

Definition ex_tables : Tables :=
  {[ "vocab" := ([SStr "a"; SStr "b"], [1%Z; 2%Z]) ]}.

(** The same table as it is loaded from a model: the keys are [bytes]. *)
Definition ex_tables_loaded : Tables :=
  {[ "vocab" := ([SBytes "a"; SBytes "b"], [1%Z; 2%Z]) ]}.

Definition ex_table : Node :=
  mkNode "table" "HashTableV2" "" [] ["table:0"]
         {[ "shared_name" := PScalar (SStr "vocab") ]}.
Definition ex_ident : Node :=
  mkNode "ident" "Identity" "" ["table:0"] ["ident:0"] ∅.
Definition ex_const (nm : string) (v : Scalar) : Node :=
  mkNode nm "Const" "" [] [nm +:+ ":0"] {[ "value" := PTensor v ]}.
Definition ex_placeholder (nm : string) : Node :=
  mkNode nm "Placeholder" "" [] [nm +:+ ":0"] ∅.
Definition ex_find : Node :=
  mkNode "find" "LookupTableFindV2" "" ["ident:0"; "key:0"; "default:0"]
         ["find:0"] ∅.
Definition ex_size : Node :=
  mkNode "size" "LookupTableSizeV2" "" ["ident:0"] ["size:0"] ∅.
Definition ex_out (nm t : string) : Node :=
  mkNode nm "Identity" "" [t] [nm +:+ ":0"] ∅.

Definition ex_dtypes : gmap string Z :=
  <[ "find:0" := INT64 ]> (<[ "key:0" := STRING ]> (<[ "default:0" := INT64 ]> ∅)).

(** A lookup of the constant key [key]. *)
Definition ex_graph_const (key : string) : Graph :=
  mkGraph [ex_table; ex_ident; ex_const "key" (SStr key);
           ex_const "default" (SInt 0); ex_find; ex_out "out" "find:0"]
          ∅ ex_dtypes [].

(** A lookup of the two constant keys ["a"; "b"] at once. *)
Definition ex_const_vector (nm : string) (data : list Scalar) : Node :=
  mkNode nm "Const" "" [] [nm +:+ ":0"]
         {[ "value" := PTensorN (length data) [] data ]}.
Definition ex_graph_const_vector : Graph :=
  mkGraph [ex_table; ex_ident; ex_const_vector "key" [SStr "a"; SStr "b"];
           ex_const "default" (SInt 0); ex_find; ex_out "out" "find:0"]
          ∅ ex_dtypes [].

(** A lookup of a key that is fed at run time. *)
Definition ex_graph_dynamic : Graph :=
  mkGraph [ex_table; ex_ident; ex_placeholder "key";
           ex_const "default" (SInt 0); ex_find; ex_out "out" "find:0"]
          ∅ ex_dtypes [].

(** A size query next to a lookup that keeps the table alive, and one on
    its own. *)
Definition ex_graph_size : Graph :=
  mkGraph [ex_table; ex_ident; ex_size; ex_out "out" "size:0";
           ex_out "out2" "size:0"]
          ∅ ∅ [].
Definition ex_graph_size_direct : Graph :=
  mkGraph [ex_table;
           mkNode "size" "LookupTableSizeV2" "" ["table:0"] ["size:0"] ∅;
           ex_out "out" "size:0"]
          ∅ ∅ [].

(** A topological numbering of the nodes of the examples. *)
Definition ex_rank (n : Node) : nat :=
  if decide (type n = "Identity") then
    if decide (name n = "ident") then 1 else 3
  else if decide (type n = "LookupTableFindV2") then 2
  else 0.

(** ** The nodes the lookup handlers emit *)

(** The constant a static lookup folds to, given its tensor. *)
Definition folded_const (node : Node) (tensor : PyVal) : Node :=
  mkNode (name node) "Const" ONNX_DOMAIN [] (output node)
         {[ "value" := tensor ]}.

(** The categorical-mapping node of a lookup with a run-time key [in1]. *)
Definition category_mapper (node : Node) (in1 : string)
    (ks : list Scalar) (vs : list Z) (d : PyVal) : Node :=
  mkNode (name node) "CategoryMapper" AI_ONNX_ML_DOMAIN [in1] (output node)
         (<[ "cats_int64s" := PInts vs ]>
          (<[ "cats_strings" := PList ks ]>
           {[ "default_int64" := d ]})).

(** The constant a table-size query folds to. *)
Definition size_const (node : Node) (keys : list Scalar) : Node :=
  mkNode (name node) "Const" ONNX_DOMAIN [] [name node]
         {[ "value" := PTensor (SInt (Z.of_nat (length keys))) ]}.

(** ** The driver behind [process_tf_graph] *)

(** The registrations made by the [@tf_op] decorators of
    tf2onnx/custom_opsets/onnx_ml.py. *)
Definition onnx_ml_registry : @Registry.Registration Driver.Handler :=
  <[ "HashTableV2" := [(8, λ node _, HashTable.version_8 node)] ]>
  (<[ "LookupTableFindV2" := [(8, LookupTableFind.version_8)] ]>
   (<[ "LookupTableSizeV2" := [(1, LookupTableSize.version_1)] ]> ∅)).

Abbreviation DriverArgs :=
  (@Convert.ProcessArgs unit (gmap string Driver.CustomHandler) unit unit unit).

(** Modelled from the spec: [process_tf_graph] as the driver of section 4.2
    run with the configuration values of section 6; [newest] is the target
    version used when none is requested.  The result is the converted graph
    and the names of the nodes that could not be converted. *)
Definition process_tf_graph (registry : @Registry.Registration Driver.Handler)
    (newest : nat) (tf_graph : Graph) (kw : DriverArgs)
  : Res (Graph * list string) :=
  let cfg :=
    {| Driver.registry := registry;
       Driver.custom_op_handlers :=
         default ∅ (Convert.kw_custom_op_handlers kw);
       Driver.opset := default newest (Convert.kw_opset kw);
       Driver.continue_on_error := Convert.kw_continue_on_error kw;
       Driver.initialized_tables :=
         default ∅ (Convert.kw_initialized_tables kw);
       Driver.output_names :=
         default [] (Convert.kw_output_names kw) |} in
  match Driver.process cfg tf_graph with
  | (g, Ret failed) => Ret (g, failed)
  | (_, Raise e) => Raise e
  end.

(** A lookup with a run-time key that reads the table node directly. *)
Definition ex_find_direct : Node :=
  mkNode "find" "LookupTableFindV2" "" ["table:0"; "key:0"; "default:0"]
         ["find:0"] ∅.
Definition ex_graph_find_direct : Graph :=
  mkGraph [ex_table; ex_placeholder "key"; ex_const "default" (SInt 0);
           ex_find_direct]
          ∅ ex_dtypes [].

(** The lookup with a default value that is fed at run time, and the lookup
    whose output is annotated as float (element type 1). *)
Definition ex_graph_default_fed : Graph :=
  mkGraph [ex_table; ex_ident; ex_const "key" (SStr "b");
           ex_placeholder "default"; ex_find; ex_out "out" "find:0"]
          ∅ ex_dtypes [].
Definition ex_graph_float : Graph :=
  mkGraph [ex_table; ex_ident; ex_const "key" (SStr "b");
           ex_const "default" (SInt 0); ex_find; ex_out "out" "find:0"]
          ∅ (<[ "find:0" := 1%Z ]> ex_dtypes) [].

(** An error names a node when the node's name is among the arguments of
    its message. *)
Definition names_node (e : Exn) (node : Node) : Prop :=
  ∃ fmt args, e = MakeSureFailure fmt args ∧ PScalar (SStr (name node)) ∈ args.

(** ** Broadcast examples *)

(** [c * x] with a scalar constant [c] and [x] of shape [2; 3], for the
    target "rs4"; [scalar_to_dim1] gives a scalar the shape [1]. *)
Definition ex_mul : Node :=
  mkNode "mul" "Mul" "" ["c:0"; "x:0"] ["mul:0"] ∅.
Definition ex_shapes (shape_c : list Z) : gmap string (list Z) :=
  <[ "c:0" := shape_c ]> (<[ "x:0" := [2%Z; 3%Z] ]> ∅).
Definition ex_graph_mul (shape_c : list Z) (tgts : list string) : Graph :=
  mkGraph [ex_const "c" (SInt 2); ex_placeholder "x"; ex_mul]
          (ex_shapes shape_c) ∅ tgts.
Definition ex_scalar_to_dim1 (n : Node) : option (list Z) := Some [1%Z].

(** The inputs after [node.input[0], node.input[1]] were exchanged. *)
Definition swapped (in0 in1 : string) (node : Node) : Node :=
  with_input (<[1 := in0]> (<[0 := in1]> (input node))) node.

(** ** Dispatch and driver examples *)

(** An operation kind registered at the minimum versions 4, 7 and 9. *)
Definition ex_registry : @Registry.Registration string :=
  {[ "Add" := [(4, "version_4"); (7, "version_7"); (9, "version_9")] ]}.

(** A table-size query whose result feeds an operation of a kind without
    handler, which produces the required output. *)
Definition ex_size_direct : Node :=
  mkNode "size" "LookupTableSizeV2" "" ["table:0"] ["size:0"] ∅.
Definition ex_foo : Node :=
  mkNode "foo" "Foo" "" ["size:0"] ["foo:0"] ∅.
Definition ex_graph_unsupported : Graph :=
  mkGraph [ex_table; ex_size_direct; ex_foo] ∅ ∅ [].

(** [_convert_common] over the driver above, with an import, an optimizer
    and a serialization that leave the graph as it is. *)
Definition ex_convert_common :=
  Convert._convert_common (Rewriter := unit)
    (λ _ : Graph, ()) () (λ g : Graph, g)
    (process_tf_graph onnx_ml_registry 9)
    (λ r, r) (λ r _ _, r).

Definition ex_args (continue_on_error : bool) :=
  Convert.mkCommonArgs (Rewriter := unit) (CustomOps := gmap string Driver.CustomHandler)
    (ExtraOpset := unit) (ShapeOverride := unit) (Renames := unit)
    ex_graph_unsupported "example" None (Some ["foo:0"]) (Some ex_tables)
    (Some 9) None None None (PBool false) continue_on_error None None None
    None None false (PBool false) false None None None.

Definition ex_kw (continue_on_error : bool) : DriverArgs :=
  Convert.mkProcessArgs continue_on_error None (Some 9) None None None None
    (Some ["foo:0"]) None None None (PBool false) false (PBool false) None
    (Some ex_tables).

(** [id_step g a b]: the loop moves from the Identity node [a] to [b]. *)
Definition id_step (g : Graph) (a b : Node) : Prop :=
  type a = "Identity" ∧ input_node g a 0 = Ret b.

(** ** What a broadcast handler keeps *)

(** The graph after [store_node n']. *)
Definition stored (n' : Node) (g : Graph) : Graph := (store_node n' g).1.

(** [broadcast_keeps node g node' g']: [node'] is [node] up to the order of
    its inputs and its "broadcast" attribute, and [g'] is [g] up to the
    nodes named like [node]. *)
Definition broadcast_keeps (node : Node) (g : Graph) (node' : Node)
    (g' : Graph) : Prop :=
  name node' = name node ∧ type node' = type node
  ∧ domain node' = domain node ∧ output node' = output node
  ∧ input node' ≡ₚ input node
  ∧ (∀ k, k ≠ "broadcast" → attr node' !! k = attr node !! k)
  ∧ output_shapes g' = output_shapes g
  ∧ output_dtypes g' = output_dtypes g
  ∧ targets g' = targets g
  ∧ name <$> nodes g' = name <$> nodes g
  ∧ (∀ n, n ∈ nodes g → name n ≠ name node → n ∈ nodes g')
  ∧ (node ∈ nodes g → node' ∈ nodes g' ∨ (g' = g ∧ node' = node)).

(** ** tf2onnx/convert.py: the command line *)

(** Python's [s.split(sep)] and [sep in s] for a separator of one
    character. *)
Fixpoint py_split (sep : ascii) (s : string) : list string :=
  match s with
  | EmptyString => [""]
  | String c s' =>
      if decide (c = sep) then "" :: py_split sep s'
      else match py_split sep s' with
           | h :: t => String c h :: t
           | [] => [String c ""]
           end
  end.

Fixpoint py_contains (sep : ascii) (s : string) : bool :=
  match s with
  | EmptyString => false
  | String c s' => if decide (c = sep) then true else py_contains sep s'
  end.

(** [sep.join(l)]. *)
Fixpoint py_join (sep : ascii) (l : list string) : string :=
  match l with
  | [] => ""
  | [s] => s
  | s :: l' => s +:+ String sep (py_join sep l')
  end.

(** The number of occurrences of a character. *)
Fixpoint py_count (sep : ascii) (s : string) : nat :=
  match s with
  | EmptyString => 0
  | String c s' => (if decide (c = sep) then 1 else 0) + py_count sep s'
  end.

(** An option of the command line that starts as [None] or a string and
    may be replaced by a list. *)
Inductive Arg (A : Type) :=
  | ANone
  | AStr (s : string)
  | AList (l : list A).
Arguments ANone {A}.
Arguments AStr {A} s.
Arguments AList {A} l.

(** Truth value: [None], the empty string and the empty list are false. *)
Definition arg_truthy {A} (a : Arg A) : bool :=
  match a with
  | ANone => false
  | AStr s => negb (bool_decide (s = ""))
  | AList l => negb (bool_decide (length l = 0))
  end.

(** How a call can end: it returns, [parser.error] ends the process with a
    message, [print_help] and [sys.exit(1)] end it, an exception is raised,
    or a local variable is read that was never assigned. *)
Inductive Exit (A : Type) :=
  | Returned (a : A)
  | ParserError (msg : string)
  | HelpExit
  | Raised (e : Exn)
  | UnboundLocalError.
Arguments Returned {A} a.
Arguments ParserError {A} msg.
Arguments HelpExit {A}.
Arguments Raised {A} e.
Arguments UnboundLocalError {A}.

Definition exit_bind {A B} (m : Exit A) (k : A → Exit B) : Exit B :=
  match m with
  | Returned a => k a
  | ParserError msg => ParserError msg
  | HelpExit => HelpExit
  | Raised e => Raised e
  | UnboundLocalError => UnboundLocalError
  end.
#[global] Instance Exit_ret : MRet Exit := @Returned.
#[global] Instance Exit_bind : MBind Exit := λ A B k m, exit_bind m k.

Definition exit_of_res {A} (r : Res A) : Exit A :=
  match r with
  | Ret a => Returned a
  | Raise e => Raised e
  end.

Module Cli.
Section CommandLine.

(** Types and helpers declared outside the sources at hand: the shape
    overrides and [utils.split_nodename_and_shape], the opset identifiers
    and [utils.make_opsetid], and Python's [int]. *)
Context {SO OpsetId : Type}.
Variable split_nodename_and_shape : string → Res (list string * option SO).
Variable make_opsetid : string → Z → OpsetId.
Variable py_int : string → option Z.

(** The namespace [parser.parse_args()] returns, which [get_args] then
    changes in place. *)
Record Args := mkArgs {
  args_input : option string;
  args_graphdef : option string;
  args_saved_model : option string;
  args_tag : option string;
  args_signature_def : Arg string;
  args_concrete_function : option Z;
  args_checkpoint : option string;
  args_keras : option string;
  args_tflite : option string;
  args_large_model : bool;
  args_output : option string;
  args_inputs : Arg string;
  args_outputs : Arg string;
  args_ignore_default : Arg string;
  args_use_default : Arg string;
  args_opset : option nat;
  args_dequantize : bool;
  args_custom_ops : option string;
  args_extra_opset : Arg OpsetId;
  args_target : Arg string;
  args_continue_on_error : bool;
  args_verbose : option nat;
  args_debug : bool;
  args_output_frozen_graph : option string;
  args_fold_const : bool;
  args_inputs_as_nchw : Arg string;
  args_shape_override : option SO
}.

(** [if args.x: args.x = args.x.split(",")] *)
Definition split_commas (a : Arg string) : Arg string :=
  match a with
  | AStr s => if arg_truthy a then AList (py_split "," s) else a
  | _ => a
  end.

Definition msg_io : string :=
  "graphdef and checkpoint models need to provide inputs and outputs".
Definition msg_dequantize : string :=
  "dequantize flag is currently only supported for tflite".
Definition msg_extra_opset : string := "invalid extra_opset argument".

(** [[
    if args.inputs:
        args.inputs, args.shape_override = utils.split_nodename_and_shape(args.inputs)
    ]] *)
Definition split_inputs (a : Arg string)
  : Exit (Arg string * option SO) :=
  match a with
  | AStr s =>
      if arg_truthy a then
        '(names, shapes) ← exit_of_res (split_nodename_and_shape s);
        mret (AList names, shapes)
      else mret (a, None)
  | AList l =>
      (* a list is not what the helper is written for; the parser never
         gives one *)
      if arg_truthy a then Raised TypeError else mret (a, None)
  | ANone => mret (a, None)
  end.

(** [[
    if args.extra_opset:
        tokens = args.extra_opset.split(':')
        if len(tokens) != 2:
            parser.error("invalid extra_opset argument")
        args.extra_opset = [utils.make_opsetid(tokens[0], int(tokens[1]))]
    ]] *)
Definition parse_extra_opset (a : Arg OpsetId) : Exit (Arg OpsetId) :=
  match a with
  | AStr s =>
      if arg_truthy a then
        match py_split ":" s with
        | [domain; version] =>
            match py_int version with
            | Some v => mret (AList [make_opsetid domain v])
            | None => Raised ValueError
            end
        | _ => ParserError msg_extra_opset
        end
      else mret a
  | AList l =>
      if arg_truthy a then Raised AttributeError else mret a
  | ANone => mret a
  end.

(** "Parse commandline.": what [get_args] does with the namespace
    [parser.parse_args()] has returned. *)
Definition get_args (parsed : Args) : Exit Args :=
  (* args.shape_override = None; if args.input: args.graphdef = args.input *)
  let graphdef :=
    if path_truthy (args_input parsed) then args_input parsed
    else args_graphdef parsed in
  if (path_truthy graphdef || path_truthy (args_checkpoint parsed))
     && negb (path_truthy (args_input parsed))
     && negb (arg_truthy (args_outputs parsed))
  then ParserError msg_io
  else if negb (path_truthy graphdef || path_truthy (args_checkpoint parsed)
                || path_truthy (args_saved_model parsed)
                || path_truthy (args_keras parsed)
                || path_truthy (args_tflite parsed))
  then HelpExit
  else
    '(inputs, shape_override) ← split_inputs (args_inputs parsed);
    let outputs := split_commas (args_outputs parsed) in
    let ignore_default := split_commas (args_ignore_default parsed) in
    let use_default := split_commas (args_use_default parsed) in
    let inputs_as_nchw := split_commas (args_inputs_as_nchw parsed) in
    let target := split_commas (args_target parsed) in
    let signature_def :=
      match args_signature_def parsed with
      | AStr s =>
          if arg_truthy (args_signature_def parsed) then AList [s]
          else AStr s
      | a => a
      end in
    if args_dequantize parsed && negb (path_truthy (args_tflite parsed))
    then ParserError msg_dequantize
    else
      extra_opset ← parse_extra_opset (args_extra_opset parsed);
      mret {| args_input := args_input parsed;
              args_graphdef := graphdef;
              args_saved_model := args_saved_model parsed;
              args_tag := args_tag parsed;
              args_signature_def := signature_def;
              args_concrete_function := args_concrete_function parsed;
              args_checkpoint := args_checkpoint parsed;
              args_keras := args_keras parsed;
              args_tflite := args_tflite parsed;
              args_large_model := args_large_model parsed;
              args_output := args_output parsed;
              args_inputs := inputs;
              args_outputs := outputs;
              args_ignore_default := ignore_default;
              args_use_default := use_default;
              args_opset := args_opset parsed;
              args_dequantize := args_dequantize parsed;
              args_custom_ops := args_custom_ops parsed;
              args_extra_opset := extra_opset;
              args_target := target;
              args_continue_on_error := args_continue_on_error parsed;
              args_verbose := args_verbose parsed;
              args_debug := args_debug parsed;
              args_output_frozen_graph := args_output_frozen_graph parsed;
              args_fold_const := args_fold_const parsed;
              args_inputs_as_nchw := inputs_as_nchw;
              args_shape_override := shape_override |}.

End CommandLine.
End Cli.

(** An instance of the helpers for names without shapes and for decimal
    versions, and the namespace of a command line with [--inputs x:0] and
    the given [--graphdef], [--outputs], [--custom-ops] and
    [--extra_opset]. *)
Definition ex_split_nodename_and_shape (s : string)
  : Res (list string * option unit) :=
  Ret (py_split "," s, None).

Definition ex_make_opsetid (domain : string) (version : Z) : string * Z :=
  (domain, version).

Fixpoint ex_digits (acc : Z) (s : string) : option Z :=
  match s with
  | EmptyString => Some acc
  | String c s' =>
      let n := nat_of_ascii c in
      if (48 <=? n) && (n <=? 57)
      then ex_digits (10 * acc + Z.of_nat (n - 48)) s'
      else None
  end.

Definition ex_py_int (s : string) : option Z :=
  if decide (s = "") then None else ex_digits 0 s.

Definition ex_parsed_of (graphdef : option string) (outputs : Arg string)
    (custom_ops : option string) (extra_opset : Arg (string * Z))
  : @Cli.Args unit (string * Z) :=
  {| Cli.args_input := None;
     Cli.args_graphdef := graphdef;
     Cli.args_saved_model := None;
     Cli.args_tag := None;
     Cli.args_signature_def := ANone;
     Cli.args_concrete_function := None;
     Cli.args_checkpoint := None;
     Cli.args_keras := None;
     Cli.args_tflite := None;
     Cli.args_large_model := false;
     Cli.args_output := None;
     Cli.args_inputs := AStr "x:0";
     Cli.args_outputs := outputs;
     Cli.args_ignore_default := ANone;
     Cli.args_use_default := ANone;
     Cli.args_opset := None;
     Cli.args_dequantize := false;
     Cli.args_custom_ops := custom_ops;
     Cli.args_extra_opset := extra_opset;
     Cli.args_target := AStr "";
     Cli.args_continue_on_error := false;
     Cli.args_verbose := None;
     Cli.args_debug := false;
     Cli.args_output_frozen_graph := None;
     Cli.args_fold_const := false;
     Cli.args_inputs_as_nchw := ANone;
     Cli.args_shape_override := None |}.

(** [--graphdef model.pb --inputs x:0 --outputs y:0,z:0
      --extra_opset com.microsoft:1 --custom-ops Foo:ai.bar,Baz], and the
    same without [--outputs]. *)
Definition ex_parsed : @Cli.Args unit (string * Z) :=
  ex_parsed_of (Some "model.pb") (AStr "y:0,z:0") (Some "Foo:ai.bar,Baz")
    (AStr "com.microsoft:1").

Definition ex_parsed_no_outputs : @Cli.Args unit (string * Z) :=
  ex_parsed_of (Some "model.pb") ANone None ANone.

Definition ex_get_args :=
  Cli.get_args ex_split_nodename_and_shape ex_make_opsetid ex_py_int.

(** ** tf2onnx/convert.py: [main] *)

Module Main.
Section MainFn.

Context {SO OpsetId GraphDef Names InitTables : Type}.

(** Declared outside the sources at hand: [constants.TENSORFLOW_OPSET] with
    its domain, and the loaders of [tf_loader]. *)
Variable TENSORFLOW_OPSET : OpsetId.
Variable TENSORFLOW_OPSET_domain : string.
Variable from_graphdef :
  string → Arg string → Arg string → Res (GraphDef * Names * Names).
Variable from_checkpoint :
  string → Arg string → Arg string → Res (GraphDef * Names * Names).
Variable from_saved_model :
  string → Arg string → Arg string → option string → Arg string →
  option Z → bool → Res (GraphDef * Names * Names * InitTables).
Variable from_keras :
  string → Arg string → Arg string → Res (GraphDef * Names * Names).

(** The dictionary [custom_ops]: an op name is mapped to a handler and an
    empty list. *)
Definition Handlers := gmap string ((Node → M Node) * list string).

(** One entry of [--custom-ops]: the op name, its domain, and whether the
    domain is the default one.
    [[
    if ":" in op:
        op, domain = op.split(":")
    else:
        # default custom ops for tensorflow-onnx are in the "tf" namespace
        using_tf_opset = True
        domain = constants.TENSORFLOW_OPSET.domain
    ]] *)
Definition custom_op_entry (op : string) : Res (string * string * bool) :=
  if py_contains ":" op then
    match py_split ":" op with
    | [op'; domain] => Ret (op', domain, false)
    | _ => Raise ValueError
    end
  else Ret (op, TENSORFLOW_OPSET_domain, true).

(** [[
    for op in args.custom_ops.split(","):
        ...
        custom_ops[op] = (make_default_custom_op_handler(domain), [])
    ]] *)
Fixpoint custom_ops_loop (ops : list string) (custom_ops : Handlers)
    (using_tf_opset : bool) : Res (Handlers * bool) :=
  match ops with
  | [] => Ret (custom_ops, using_tf_opset)
  | op :: ops' =>
      match custom_op_entry op with
      | Ret (op', domain, tf) =>
          custom_ops_loop ops'
            (<[op' := (make_default_custom_op_handler domain, [])]> custom_ops)
            (tf || using_tf_opset)
      | Raise e => Raise e
      end
  end.

(** [extra_opset = args.extra_opset or []], to which
    [constants.TENSORFLOW_OPSET] is appended when [using_tf_opset] is set,
    and which is then searched for the contrib domain.  A non-empty string
    has no [append], and its characters have no [domain]. *)
Definition extra_opset_of (a : Arg OpsetId) (using_tf_opset : bool)
  : Res (list OpsetId) :=
  let appended l := if using_tf_opset then l ++ [TENSORFLOW_OPSET] else l in
  match a with
  | AList l => Ret (appended l)
  | AStr s => if arg_truthy a then Raise AttributeError else Ret (appended [])
  | ANone => Ret (appended [])
  end.

(** The local variables [graph_def], [inputs], [outputs] and [model_path],
    which are assigned together. *)
Record Loaded := mkLoaded {
  graph_def : option GraphDef;
  inputs : option Names;
  outputs : option Names;
  model_path : string
}.

(** "get the frozen tensorflow model from graphdef, checkpoint or
    saved_model": five [if]s in a row.  The result is the four variables when
    they are assigned, [initialized_tables] and [tflite_path]. *)
Definition load (args : @Cli.Args SO OpsetId)
  : Exit (option Loaded * option InitTables * option string) :=
  let from '(g, i, o) path := Some (mkLoaded (Some g) (Some i) (Some o) path) in
  let path (p : option string) := default "" p in
  l1 ← (if path_truthy (Cli.args_graphdef args) then
          r ← exit_of_res (from_graphdef (path (Cli.args_graphdef args))
                             (Cli.args_inputs args) (Cli.args_outputs args));
          mret (from r (path (Cli.args_graphdef args)))
        else mret None);
  l2 ← (if path_truthy (Cli.args_checkpoint args) then
          r ← exit_of_res (from_checkpoint (path (Cli.args_checkpoint args))
                             (Cli.args_inputs args) (Cli.args_outputs args));
          mret (from r (path (Cli.args_checkpoint args)))
        else mret l1);
  '(l3, initialized_tables) ←
       (if path_truthy (Cli.args_saved_model args) then
          '(r, tables) ←
            exit_of_res (from_saved_model (path (Cli.args_saved_model args))
                           (Cli.args_inputs args) (Cli.args_outputs args)
                           (Cli.args_tag args) (Cli.args_signature_def args)
                           (Cli.args_concrete_function args)
                           (Cli.args_large_model args));
          mret (from r (path (Cli.args_saved_model args)), Some tables)
        else mret (l2, None));
  l4 ← (if path_truthy (Cli.args_keras args) then
          r ← exit_of_res (from_keras (path (Cli.args_keras args))
                             (Cli.args_inputs args) (Cli.args_outputs args));
          mret (from r (path (Cli.args_keras args)))
        else mret l3);
  if path_truthy (Cli.args_tflite args) then
    mret (Some (mkLoaded None None None (path (Cli.args_tflite args))),
          initialized_tables, Cli.args_tflite args)
  else mret (l4, initialized_tables, None).

(** The arguments of the call of [_convert_common] in [main]; the call
    sets [tensors_to_rename] to [None] and names no other parameter. *)
Record ConvertCall := mkConvertCall {
  call_frozen_graph : option GraphDef;
  call_name : string;
  call_continue_on_error : bool;
  call_target : Arg string;
  call_opset : option nat;
  call_custom_op_handlers : Handlers;
  call_extra_opset : list OpsetId;
  call_shape_override : option SO;
  call_input_names : option Names;
  call_output_names : option Names;
  call_inputs_as_nchw : Arg string;
  call_large_model : bool;
  call_ignore_default : Arg string;
  call_use_default : Arg string;
  call_tflite_path : option string;
  call_dequantize : bool;
  call_initialized_tables : option InitTables;
  call_output_path : option string
}.

(** [main] from the namespace of [get_args] up to its call of
    [_convert_common]: how the call is set up. *)
Definition convert_call (args : @Cli.Args SO OpsetId) : Exit ConvertCall :=
  '(custom_ops, using_tf_opset) ←
       (if path_truthy (Cli.args_custom_ops args) then
          exit_of_res
            (custom_ops_loop (py_split "," (default "" (Cli.args_custom_ops args)))
               ∅ false)
        else mret (∅, false));
  extra_opset ←
    exit_of_res (extra_opset_of (Cli.args_extra_opset args) using_tf_opset);
  '(loaded, initialized_tables, tflite_path) ← load args;
  match loaded with
  | None => UnboundLocalError
  | Some l =>
      mret {| call_frozen_graph := graph_def l;
              call_name := model_path l;
              call_continue_on_error := Cli.args_continue_on_error args;
              call_target := Cli.args_target args;
              call_opset := Cli.args_opset args;
              call_custom_op_handlers := custom_ops;
              call_extra_opset := extra_opset;
              call_shape_override := Cli.args_shape_override args;
              call_input_names := inputs l;
              call_output_names := outputs l;
              call_inputs_as_nchw := Cli.args_inputs_as_nchw args;
              call_large_model := Cli.args_large_model args;
              call_ignore_default := Cli.args_ignore_default args;
              call_use_default := Cli.args_use_default args;
              call_tflite_path := tflite_path;
              call_dequantize := Cli.args_dequantize args;
              call_initialized_tables := initialized_tables;
              call_output_path := Cli.args_output args |}
  end.

(** Helpers of [get_args], as in [Cli]. *)
Variable split_nodename_and_shape : string → Res (list string * option SO).
Variable make_opsetid : string → Z → OpsetId.
Variable py_int : string → option Z.

Definition main (parsed : @Cli.Args SO OpsetId) : Exit ConvertCall :=
  args ← Cli.get_args split_nodename_and_shape make_opsetid py_int parsed;
  convert_call args.

End MainFn.
End Main.

(** Loaders that return the path as the graph and the names they are
    given. *)
Definition ex_names (a : Arg string) : list string :=
  match a with
  | AList l => l
  | _ => []
  end.

Definition ex_loader (path : string) (inputs outputs : Arg string)
  : Res (string * list string * list string) :=
  Ret (path, ex_names inputs, ex_names outputs).

Definition ex_from_saved_model (path : string) (inputs outputs : Arg string)
    (tag : option string) (signature_def : Arg string)
    (concrete_function : option Z) (large_model : bool)
  : Res (string * list string * list string * unit) :=
  Ret (path, ex_names inputs, ex_names outputs, ()).

Definition ex_tf_opset : string * Z := ("ai.onnx.converters.tensorflow", 1%Z).

Definition ex_convert_call :=
  Main.convert_call (SO := unit) ex_tf_opset "ai.onnx.converters.tensorflow"
    ex_loader ex_loader ex_from_saved_model ex_loader.

Definition ex_main :=
  Main.main (SO := unit) ex_tf_opset "ai.onnx.converters.tensorflow"
    ex_loader ex_loader ex_from_saved_model ex_loader
    ex_split_nodename_and_shape ex_make_opsetid ex_py_int.

(** ** tf2onnx/convert.py: [from_graph] *)

(** Truth value of an optional list of names: [None] and the empty list
    are false. *)
Definition names_truthy (l : option (list string)) : bool :=
  match l with
  | Some (_ :: _) => true
  | _ => false
  end.

Module Api.
Section FromGraph.

Context {GraphDef TfGraph OnnxGraph ModelProto Session : Type}.
Context {ConstValues Storage CustomOps Rewriter ExtraOpset : Type}.
Context {ShapeOverride Renames : Type}.

(** The collaborators of [_convert_common], and those of [from_graph]: the
    session with the graph imported, and [freeze_session],
    [inputs_without_resource] and [tf_optimize] of [tf_loader]. *)
Variable compress_graph_def : GraphDef → ConstValues.
Variable ExternalTensorStorage : Storage.
Variable import_graph_def : GraphDef → TfGraph.
Variable process_tf_graph :
  TfGraph →
  @Convert.ProcessArgs ConstValues CustomOps ExtraOpset ShapeOverride Renames →
  Res OnnxGraph.
Variable optimize_graph : OnnxGraph → OnnxGraph.
Variable make_model : OnnxGraph → string → option Storage → ModelProto.
Variable tf_session : GraphDef → Res Session.
Variable freeze_session :
  Session → list string → list string → Res GraphDef.
Variable inputs_without_resource : Session → list string → Res (list string).
Variable tf_optimize : list string → list string → GraphDef → Res GraphDef.

(** The parameters of [from_graph]. *)
Record GraphArgs := mkGraphArgs {
  fg_graph_def : GraphDef;
  fg_name : option string;
  fg_input_names : option (list string);
  fg_output_names : option (list string);
  fg_opset : option nat;
  fg_custom_ops : option CustomOps;
  fg_custom_op_handlers : option CustomOps;
  fg_custom_rewriter : option Rewriter;
  fg_inputs_as_nchw : option (list string);
  fg_extra_opset : option ExtraOpset;
  fg_shape_override : option ShapeOverride;
  fg_target : option (list string);
  fg_large_model : bool;
  fg_output_path : option string
}.

(** The call of [_convert_common] in [from_graph]; the parameters the call
    does not name have their defaults. *)
Definition common_args (a : GraphArgs) (frozen_graph : GraphDef)
    (name : string) (input_names : list string)
  : @Convert.CommonArgs GraphDef CustomOps Rewriter ExtraOpset ShapeOverride
      Renames :=
  {| Convert.frozen_graph := frozen_graph;
     Convert.arg_name := name;
     Convert.input_names := Some input_names;
     Convert.output_names := fg_output_names a;
     Convert.initialized_tables := None;
     Convert.opset := fg_opset a;
     Convert.custom_ops := None;
     Convert.custom_op_handlers := fg_custom_ops a;
     Convert.custom_rewriter := None;
     Convert.ignore_default := PBool false;
     Convert.continue_on_error := true;
     Convert.inputs_as_nchw := fg_inputs_as_nchw a;
     Convert.extra_opset := fg_extra_opset a;
     Convert.shape_override := fg_shape_override a;
     Convert.target := None;
     Convert.tensors_to_rename := None;
     Convert.large_model := fg_large_model a;
     Convert.use_default := PBool false;
     Convert.dequantize := false;
     Convert.tflite_path := None;
     Convert.output_frozen_graph := None;
     Convert.output_path := fg_output_path a |}.

(** "Returns a ONNX model_proto for a tensorflow graphdef."  The result is
    that of [_convert_common]: the files written and the pair returned or
    the exception raised.
    [[
    if not input_names:
        raise ValueError("input_names needs to be provided")
    if not output_names:
        raise ValueError("output_names needs to be provided")
    if not name:
        name = "unknown"
    ...
    tf.import_graph_def(graph_def, name='')
    frozen_graph = tf_loader.freeze_session(sess, input_names=input_names, output_names=output_names)
    input_names = tf_loader.inputs_without_resource(sess, input_names)
    frozen_graph = tf_loader.tf_optimize(input_names, output_names, graph_def)
    ]] *)
Definition from_graph (a : GraphArgs)
  : list (@Convert.Saved GraphDef ModelProto Storage)
    * Res (ModelProto * option Storage) :=
  if negb (names_truthy (fg_input_names a)) then ([], Raise ValueError)
  else if negb (names_truthy (fg_output_names a)) then ([], Raise ValueError)
  else
    let name :=
      if path_truthy (fg_name a) then default "" (fg_name a) else "unknown" in
    let input_names := default [] (fg_input_names a) in
    let output_names := default [] (fg_output_names a) in
    match tf_session (fg_graph_def a) with
    | Raise e => ([], Raise e)
    | Ret sess =>
        match freeze_session sess input_names output_names with
        | Raise e => ([], Raise e)
        | Ret _ =>
            match inputs_without_resource sess input_names with
            | Raise e => ([], Raise e)
            | Ret input_names' =>
                match tf_optimize input_names' output_names (fg_graph_def a) with
                | Raise e => ([], Raise e)
                | Ret frozen_graph =>
                    Convert._convert_common compress_graph_def
                      ExternalTensorStorage import_graph_def process_tf_graph
                      optimize_graph make_model
                      (common_args a frozen_graph name input_names')
                end
            end
        end
    end.

End FromGraph.
End Api.

(** [from_graph] over the example driver, with a session that is the graph
    itself and helpers that change nothing. *)
Definition ex_from_graph :=
  Api.from_graph (Rewriter := unit) (Session := Graph)
    (λ _ : Graph, ()) () (λ g : Graph, g)
    (process_tf_graph onnx_ml_registry 9)
    (λ r, r) (λ r _ _, r)
    (λ g, Ret g) (λ s _ _, Ret s) (λ _ i, Ret i) (λ _ _ g, Ret g).

Definition ex_graph_foo : Graph := mkGraph [ex_foo] ∅ ∅ [].

Definition ex_graph_args
    (custom_ops : option (gmap string Driver.CustomHandler))
    (target : option (list string)) :=
  Api.mkGraphArgs (Rewriter := unit)
    (CustomOps := gmap string Driver.CustomHandler)
    (ExtraOpset := unit) (ShapeOverride := unit)
    ex_graph_foo None (Some ["x:0"]) (Some ["foo:0"]) (Some 9)
    custom_ops None None None None None target false None.

(** * Properties *)

(** ** The monad *)

Lemma bind_ret_run {A B} (m : M A) (k : A → M B) g g' a :
  m g = (g', Ret a) → (m ≫= k) g = k a g'.
Proof. intros H. unfold mbind, M_bind, bind. by rewrite H. Qed.

Lemma bind_raise_run {A B} (m : M A) (k : A → M B) g g' e :
  m g = (g', Raise e) → (m ≫= k) g = (g', Raise e).
Proof. intros H. unfold mbind, M_bind, bind. by rewrite H. Qed.

(** ** The walk through Identity nodes *)

Lemma get_node_by_output_Some g t m :
  get_node_by_output g t = Some m → m ∈ nodes g ∧ t ∈ output m.
Proof.
  unfold get_node_by_output. intros H.
  apply find_some in H as [Hin Hout].
  split; [by apply list_elem_of_In | by apply bool_decide_eq_true in Hout].
Qed.

Lemma input_node_Ret g n i m :
  input_node g n i = Ret m →
  ∃ t, input n !! i = Some t ∧ get_node_by_output g t = Some m.
Proof.
  unfold input_node, node_inputs. rewrite list_lookup_fmap.
  destruct (input n !! i) as [t|] eqn:Ht; simpl; [|done].
  destruct (get_node_by_output g t) as [p|] eqn:Hp; [|done].
  intros [= <-]. eauto.
Qed.

Lemma input_node_consumes g n i m :
  n ∈ nodes g → input_node g n i = Ret m → consumes g n m ∧ m ∈ nodes g.
Proof.
  intros Hn (t & Ht & Hp)%input_node_Ret.
  pose proof (get_node_by_output_Some _ _ _ Hp) as [Hm _].
  split; [|done]. split; [done|].
  exists t. split; [|done]. by eapply list_elem_of_lookup_2.
Qed.

Lemma input_node_output g n i m :
  input_node g n i = Ret m → m ∈ nodes g ∧ output m ≠ [].
Proof.
  intros (t & _ & Hp)%input_node_Ret.
  apply get_node_by_output_Some in Hp as [Hm Ht].
  split; [done|]. intros E. rewrite E in Ht. by apply not_elem_of_nil in Ht.
Qed.

(** The nodes seen so far are pairwise different nodes of the graph, so
    there are fewer of them than the graph has nodes. *)
Lemma walk_identity_fuel g fuel :
  acyclic g →
  ∀ visited n,
    n ∈ nodes g → NoDup visited →
    (∀ v, v ∈ visited → v ∈ nodes g ∧ tc (consumes g) v n) →
    length (nodes g) ≤ length visited + fuel →
    walk_identity fuel g n ≠ Raise NonTermination.
Proof.
  intros Hac. induction fuel as [|fuel IH]; intros visited n Hn Hnd Hvis Hlen.
  all: assert (Hfresh : n ∉ visited)
         by (intros Hin; destruct (Hvis _ Hin) as [_ Htc]; by apply (Hac n)).
  all: assert (Hbound : S (length visited) ≤ length (nodes g)).
  1,3: change (S (length visited)) with (length (n :: visited));
       apply submseteq_length, NoDup_submseteq; [by constructor|];
       intros x [->|Hx]%elem_of_cons; [done | by apply Hvis].
  - lia.
  - simpl. destruct (decide (type n = "Identity")) as [Hid|]; [|done].
    destruct (input_node g n 0) as [m|e] eqn:Hin.
    + destruct (input_node_consumes _ _ _ _ Hn Hin) as [Hedge Hm].
      apply (IH (n :: visited)); [done | by constructor | | simpl; lia].
      intros v [->|Hv]%elem_of_cons.
      * split; [done | by apply tc_once].
      * destruct (Hvis _ Hv) as [Hvn Htc]. split; [done|].
        eapply tc_r; eauto.
    + unfold input_node in Hin. repeat case_match; congruence.
Qed.

Lemma walk_identity_chain g fuel n r :
  walk_identity fuel g n = Ret r → id_chain g n r.
Proof.
  revert n. induction fuel as [|fuel IH]; intros n; simpl.
  - destruct (decide _); [done|]. intros [= <-]. by constructor.
  - destruct (decide _) as [Hid|Hid].
    + destruct (input_node g n 0) as [m|e] eqn:Hin; [|done].
      intros H. eapply id_chain_step; eauto.
    + intros [= <-]. by constructor.
Qed.

Lemma walk_identity_Raise g fuel n e :
  n ∈ nodes g →
  walk_identity fuel g n = Raise e →
  e = NonTermination ∨
  ∃ n', n' ∈ nodes g ∧ type n' = "Identity" ∧ input_node g n' 0 = Raise e.
Proof.
  revert n. induction fuel as [|fuel IH]; intros n Hn; simpl.
  - destruct (decide _); [|done]. intros [= <-]. by left.
  - destruct (decide _) as [Hid|Hid]; [|done].
    destruct (input_node g n 0) as [m|e'] eqn:Hin.
    + apply IH. by eapply input_node_consumes.
    + intros [= <-]. right. eauto.
Qed.

(** C8. On a graph that satisfies the acyclic-DAG invariant the walk from
    the first input of a lookup node through Identity nodes ends: it does
    not run forever; what it returns is the first node on the chain of
    first inputs whose kind is not 'Identity'; and when every Identity node
    has a produced first input it does return such a node. *)
Theorem identity_walk_terminates (g : Graph) (node m : Node) :
  acyclic g →
  input_node g node 0 = Ret m →
  find_table_node g node ≠ Raise NonTermination
  ∧ (∀ r, find_table_node g node = Ret r →
          id_chain g m r ∧ type r ≠ "Identity")
  ∧ (identity_inputs_produced g →
     ∃ r, find_table_node g node = Ret r
          ∧ id_chain g m r ∧ type r ≠ "Identity").
Proof.
  intros Hac Hin.
  pose proof (input_node_output _ _ _ _ Hin) as [Hm _].
  assert (Hend : ∀ a b, id_chain g a b → type b ≠ "Identity")
    by (induction 1; done).
  assert (Hnt : walk_identity (walk_fuel g) g m ≠ Raise NonTermination).
  { apply (walk_identity_fuel g _ Hac []); [done | constructor | | simpl; unfold walk_fuel; lia].
    intros v Hv. by apply not_elem_of_nil in Hv. }
  unfold find_table_node. rewrite Hin. split_and!.
  - done.
  - intros r Hr. apply walk_identity_chain in Hr. eauto.
  - intros Hprod.
    destruct (walk_identity (walk_fuel g) g m) as [r|e] eqn:Hw.
    + exists r. apply walk_identity_chain in Hw. eauto.
    + destruct (walk_identity_Raise _ _ _ _ Hm Hw) as [->|(n' & Hn' & Hid & He)];
        [done|].
      destruct (Hprod _ Hn' Hid) as [p Hp]. congruence.
Qed.

Lemma acyclic_ranked g (rank : Node → nat) :
  (∀ n m, consumes g n m → rank m < rank n) → acyclic g.
Proof.
  intros Hrank n Htc.
  assert (Hlt : ∀ a b, tc (consumes g) a b → rank b < rank a).
  { induction 1 as [a b Hab|a b c Hab _ IH]; [by apply Hrank|].
    apply Hrank in Hab. lia. }
  specialize (Hlt _ _ Htc). lia.
Qed.

Lemma ex_graph_const_acyclic key : acyclic (ex_graph_const key).
Proof.
  apply (acyclic_ranked _ ex_rank).
  intros n m [Hn (t & Ht & Hp)].
  simpl in Hn.
  repeat (apply elem_of_cons in Hn as [->|Hn]); [..|by apply not_elem_of_nil in Hn];
    simpl in Ht;
    repeat (apply elem_of_cons in Ht as [->|Ht]);
    try (by apply not_elem_of_nil in Ht);
    vm_compute in Hp; try discriminate;
    injection Hp as <-; vm_compute; lia.
Qed.

Lemma ex_graph_const_identities key :
  identity_inputs_produced (ex_graph_const key).
Proof.
  intros n Hn Hid. simpl in Hn.
  repeat (apply elem_of_cons in Hn as [->|Hn]);
    try (by apply not_elem_of_nil in Hn); try discriminate Hid;
    eexists; vm_compute; reflexivity.
Qed.

Lemma identity_walk_terminates_witness :
  find_table_node (ex_graph_const "b") ex_find ≠ Raise NonTermination
  ∧ ∃ r, find_table_node (ex_graph_const "b") ex_find = Ret r
         ∧ id_chain (ex_graph_const "b") ex_ident r
         ∧ type r ≠ "Identity".
Proof.
  destruct (identity_walk_terminates (ex_graph_const "b") ex_find ex_ident
              (ex_graph_const_acyclic "b") eq_refl) as (Hnt & _ & Hex).
  split; [exact Hnt|].
  exact (Hex (ex_graph_const_identities "b")).
Defined.

(** ** The fuel of the walk is enough *)

(** A walk that ends keeps its result with more fuel. *)
Lemma walk_identity_more_fuel g fuel k n r :
  walk_identity fuel g n = r → r ≠ Raise NonTermination →
  walk_identity (fuel + k) g n = r.
Proof.
  revert n. induction fuel as [|fuel IH]; intros n; simpl.
  - destruct (decide _) as [Hid|Hid].
    + by intros <-.
    + intros <- _. destruct k; simpl; by destruct (decide _).
  - destruct (decide _); [|done].
    destruct (input_node g n 0); [apply IH | done].
Qed.

(** A walk that comes back to a node it has left never ends. *)
Lemma walk_identity_cycle g fuel n :
  tc (id_step g) n n → walk_identity fuel g n = Raise NonTermination.
Proof.
  revert n. induction fuel as [|fuel IH]; intros n Hcyc.
  - simpl. destruct (decide _) as [|Hid]; [done|].
    inversion Hcyc as [? ? [? _]|? ? ? [? _] _]; by subst.
  - assert (∃ m, id_step g n m ∧ tc (id_step g) m m) as (m & [Hid Hm] & Hcyc').
    { inversion Hcyc as [? ? Hs|? m ? Hs Hrest]; subst.
      - exists n. split; [done | by apply tc_once].
      - exists m. split; [done|]. eapply tc_r; [exact Hrest | exact Hs]. }
    simpl. destruct (decide _); [|done]. rewrite Hm. by apply IH.
Qed.

(** The fuel the handlers give the walk is enough: when it runs out, the
    loop has come back to a node, and no fuel would do. *)
Lemma walk_identity_fuel_exact g fuel :
  ∀ visited n,
    n ∈ nodes g → NoDup visited →
    (∀ v, v ∈ visited → v ∈ nodes g ∧ tc (id_step g) v n) →
    length (nodes g) ≤ length visited + fuel →
    walk_identity fuel g n = Raise NonTermination →
    ∀ fuel', walk_identity fuel' g n = Raise NonTermination.
Proof.
  induction fuel as [|fuel IH]; intros visited n Hn Hnd Hvis Hlen Hw fuel'.
  all: destruct (decide (n ∈ visited)) as [Hin|Hfresh];
    [destruct (Hvis _ Hin) as [_ Hcyc]; by apply walk_identity_cycle|].
  all: assert (Hbound : S (length visited) ≤ length (nodes g)).
  1,3: change (S (length visited)) with (length (n :: visited));
       apply submseteq_length, NoDup_submseteq; [by constructor|];
       intros x [->|Hx]%elem_of_cons; [done | by apply Hvis].
  - lia.
  - simpl in Hw. destruct (decide (type n = "Identity")) as [Hid|]; [|done].
    destruct (input_node g n 0) as [m|e] eqn:Hin.
    + assert (Hm : ∀ f, walk_identity f g m = Raise NonTermination).
      { apply (IH (n :: visited)); [ | by constructor | | simpl; lia | done].
        - by eapply input_node_consumes.
        - intros v [->|Hv]%elem_of_cons.
          + split; [done | by apply tc_once].
          + destruct (Hvis _ Hv) as [Hvn Htc]. split; [done|].
            eapply tc_r; [exact Htc | done]. }
      destruct fuel'; simpl; destruct (decide _); try done.
      by rewrite Hin.
    + unfold input_node in Hin. repeat case_match; congruence.
Qed.

Lemma find_table_node_fuel_exact g node m :
  input_node g node 0 = Ret m →
  find_table_node g node = Raise NonTermination →
  ∀ fuel, walk_identity fuel g m = Raise NonTermination.
Proof.
  intros Hin. unfold find_table_node. rewrite Hin. intros Hw.
  apply (walk_identity_fuel_exact g (walk_fuel g) []);
    [by eapply input_node_output | constructor | | simpl; unfold walk_fuel; lia
    | done].
  intros v Hv. by apply not_elem_of_nil in Hv.
Qed.

(** ** Python dictionaries *)

Lemma py_dict_snoc `{Countable K} {V} (kvs : list (K * V)) k v :
  py_dict (kvs ++ [(k, v)]) = <[k := v]> (py_dict kvs).
Proof. unfold py_dict. by rewrite foldl_app. Qed.

(** A key that is not among the pairs is not bound. *)
Lemma py_dict_lookup_None `{Countable K} {V} (kvs : list (K * V)) k :
  k ∉ kvs.*1 → py_dict kvs !! k = None.
Proof.
  induction kvs as [|[k' v'] kvs IH] using rev_ind; [done|].
  rewrite fmap_app, py_dict_snoc. simpl.
  intros Hk. apply not_elem_of_app in Hk as [Hk Hk'].
  apply not_elem_of_cons in Hk' as [Hne _].
  rewrite lookup_insert_ne by done. by apply IH.
Qed.

(** The last pair with a given key is the binding of that key. *)
Lemma py_dict_lookup_last `{Countable K} {V} (kvs : list (K * V)) i k v :
  kvs !! i = Some (k, v) →
  (∀ j v', i < j → kvs !! j ≠ Some (k, v')) →
  py_dict kvs !! k = Some v.
Proof.
  revert i. induction kvs as [|[k' v'] kvs IH] using rev_ind; intros i Hi Hlast.
  - done.
  - rewrite py_dict_snoc.
    destruct (decide (i = length kvs)) as [->|Hne].
    + rewrite list_lookup_middle in Hi by done. injection Hi as -> ->.
      by rewrite lookup_insert_eq.
    + assert (i < length kvs).
      { apply lookup_lt_Some in Hi. rewrite length_app in Hi. simpl in Hi. lia. }
      rewrite lookup_app_l in Hi by done.
      assert (k' ≠ k).
      { intros ->. apply (Hlast (length kvs) v'); [done|].
        by rewrite list_lookup_middle. }
      rewrite lookup_insert_ne by done.
      apply (IH i); [done|].
      intros j v'' Hj Hjv. apply (Hlast j v''); [done|].
      rewrite lookup_app_l; [done|]. by eapply lookup_lt_Some.
Qed.

(** ** The lookup handlers: checks and cleanup *)

Ltac unfold_M :=
  unfold mbind, M_bind, bind, mret, M_ret, ret, raise, lift, get_graph,
    modify, make_sure in *.

Ltac run_cases :=
  repeat (case_match; unfold_M; simplify_eq/=; try done).

Lemma find_checks_graph node tables g :
  (LookupTableFind.checks node tables g).1 = g.
Proof. unfold LookupTableFind.checks. unfold_M. run_cases. Qed.

Lemma size_checks_graph node tables g :
  (LookupTableSize.checks node tables g).1 = g.
Proof. unfold LookupTableSize.checks. unfold_M. run_cases. Qed.

Lemma find_checks_table_node node tables g g' c :
  LookupTableFind.checks node tables g = (g', Ret c) →
  find_table_node g node = Ret (LookupTableFind.table_node c).
Proof. unfold LookupTableFind.checks. unfold_M. intros H. run_cases. Qed.

Lemma size_checks_table_node node tables g g' tn keys :
  LookupTableSize.checks node tables g = (g', Ret (tn, keys)) →
  find_table_node g node = Ret tn.
Proof. unfold LookupTableSize.checks. unfold_M. intros H. run_cases. Qed.

Lemma get_tensor_value_is_const n v :
  get_tensor_value n = Ret v → is_const n = true.
Proof. unfold get_tensor_value. by destruct (is_const n). Qed.

Lemma find_checks_ok g node tables tn s ks vs dn d out0 in1 :
  find_table_node g node = Ret tn →
  get_attr_value tn "shared_name" = PScalar (SStr s) →
  tables !! s = Some (ks, vs) →
  input_node g node 2 = Ret dn →
  get_tensor_value dn = Ret d →
  output node !! 0 = Some out0 →
  get_dtype g out0 = Some INT64 →
  input node !! 1 = Some in1 →
  get_dtype g in1 = Some STRING →
  LookupTableFind.checks node tables g =
    (g, Ret (LookupTableFind.mkChecked tn d (Some INT64) ks vs (get_shape g out0))).
Proof.
  intros Htn Hsn Htab Hdn Hd Hout Hdt Hin Hidt.
  pose proof (get_tensor_value_is_const _ _ Hd) as Hc.
  unfold LookupTableFind.checks, py_index. unfold_M.
  rewrite Htn, Hsn. simpl. rewrite Htab. simpl.
  rewrite Hdn, Hc, Hd, Hout, Hin, Hdt, Hidt. simpl. done.
Qed.

Lemma size_checks_ok g node tables tn s ks vs :
  find_table_node g node = Ret tn →
  get_attr_value tn "shared_name" = PScalar (SStr s) →
  tables !! s = Some (ks, vs) →
  LookupTableSize.checks node tables g = (g, Ret (tn, ks)).
Proof.
  intros Htn Hsn Htab.
  unfold LookupTableSize.checks. unfold_M.
  rewrite Htn, Hsn. simpl. rewrite Htab. simpl. done.
Qed.

Lemma walk_identity_output g fuel m r :
  output m ≠ [] → walk_identity fuel g m = Ret r → output r ≠ [].
Proof.
  revert m. induction fuel as [|fuel IH]; intros m Hm; simpl.
  - destruct (decide _); [done|]. by intros [= <-].
  - destruct (decide _); [|by intros [= <-]].
    destruct (input_node g m 0) as [p|] eqn:Hp; [|done].
    apply IH. by eapply input_node_output.
Qed.

(** The table node was found as the producer of a tensor, so it has a
    first output. *)
Lemma find_table_node_output g node tn :
  find_table_node g node = Ret tn → ∃ out0, output tn !! 0 = Some out0.
Proof.
  unfold find_table_node.
  destruct (input_node g node 0) as [m|] eqn:Hm; [|done].
  intros Hw. apply walk_identity_output in Hw; [|by eapply input_node_output].
  destruct (output tn) as [|t l]; [done|]. by exists t.
Qed.

Lemma prune_table_node_run g tn out0 :
  output tn !! 0 = Some out0 →
  prune_table_node tn g = (pruned g tn out0, Ret ()).
Proof.
  intros Hout. unfold prune_table_node, pruned, py_index, remove_node.
  unfold_M. rewrite Hout. by destruct (decide _).
Qed.

Lemma remove_node_pure_nodes nm g :
  nodes (remove_node_pure nm g) = filter (λ n, name n ≠ nm) (nodes g).
Proof. done. Qed.

(** What the cleanup does to the node collection. *)
Lemma pruned_nodes g tn out0 :
  (find_output_consumers g out0 = [] →
   nodes (pruned g tn out0) = filter (λ n, name n ≠ name tn) (nodes g))
  ∧ (find_output_consumers g out0 ≠ [] → pruned g tn out0 = g).
Proof.
  unfold pruned. split; intros H.
  - rewrite H. done.
  - destruct (decide _) as [Hl|]; [|done].
    by apply length_zero_iff_nil in Hl.
Qed.

(** ** Static-lookup folding *)

(** A constant holds a scalar or an array, and both have a tensor. *)
Lemma get_tensor_value_cases n v :
  get_tensor_value n = Ret v →
  (∃ k, v = PScalar k) ∨ (∃ d dims data, v = PArray d dims data).
Proof.
  unfold get_tensor_value. destruct (is_const n); [|done].
  destruct (attr n !! "value") as [[]|]; try done; intros [= <-]; eauto 10.
Qed.

Lemma get_tensor_value_from_array n v :
  get_tensor_value n = Ret v → ∃ t, from_array v = Ret t.
Proof.
  intros [[k ->]|(d & dims & data & ->)]%get_tensor_value_cases;
    simpl; eauto.
Qed.

Lemma find_convert_const g node c kn k v t :
  input_node g node 1 = Ret kn →
  get_tensor_value kn = Ret k →
  py_get (py_dict (zip (LookupTableFind.cats_strings c)
                       (LookupTableFind.cats_int64s c)))
         k (LookupTableFind.default_val c) = Ret v →
  from_array v = Ret t →
  LookupTableFind.convert node c g =
    (make_node_pure (folded_const node t)
       [Some []] [LookupTableFind.dtype c]
       (remove_node_pure (name node) g), Ret ()).
Proof.
  intros Hkn Hk Hv Ht. pose proof (get_tensor_value_is_const _ _ Hk) as Hc.
  unfold LookupTableFind.convert, make_node, remove_node. unfold_M.
  by rewrite Hkn, Hc, Hk, Hv, Ht.
Qed.

(** A key that cannot be hashed ends the conversion after the lookup node
    has been removed. *)
Lemma find_convert_unhashable g node c kn k e :
  input_node g node 1 = Ret kn →
  get_tensor_value kn = Ret k →
  py_get (py_dict (zip (LookupTableFind.cats_strings c)
                       (LookupTableFind.cats_int64s c)))
         k (LookupTableFind.default_val c) = Raise e →
  LookupTableFind.convert node c g
  = (remove_node_pure (name node) g, Raise e).
Proof.
  intros Hkn Hk Hv. pose proof (get_tensor_value_is_const _ _ Hk) as Hc.
  unfold LookupTableFind.convert, make_node, remove_node. unfold_M.
  by rewrite Hkn, Hc, Hk, Hv.
Qed.

Lemma find_convert_dynamic g node c kn in1 :
  input_node g node 1 = Ret kn →
  is_const kn = false →
  input node !! 1 = Some in1 →
  LookupTableFind.convert node c g =
    (make_node_pure
       (category_mapper node in1 (LookupTableFind.cats_strings c)
          (LookupTableFind.cats_int64s c) (LookupTableFind.default_val c))
       [LookupTableFind.shape c] [LookupTableFind.dtype c]
       (remove_node_pure (name node) g), Ret ()).
Proof.
  intros Hkn Hc Hin.
  unfold LookupTableFind.convert, make_node, remove_node, py_index. unfold_M.
  by rewrite Hkn, Hc, Hin.
Qed.

Lemma find_version_8_run g node tables c g1 out0 :
  LookupTableFind.checks node tables g = (g, Ret c) →
  LookupTableFind.convert node c g = (g1, Ret ()) →
  output (LookupTableFind.table_node c) !! 0 = Some out0 →
  LookupTableFind.version_8 node tables g =
    (pruned g1 (LookupTableFind.table_node c) out0, Ret ()).
Proof.
  intros Hc Hconv Hout.
  unfold LookupTableFind.version_8, LookupTableFind.rewrite.
  rewrite (bind_ret_run _ _ _ _ _ Hc), (bind_ret_run _ _ _ _ _ Hconv).
  by apply prune_table_node_run.
Qed.

Lemma find_version_8_convert_raise g node tables c g1 e :
  LookupTableFind.checks node tables g = (g, Ret c) →
  LookupTableFind.convert node c g = (g1, Raise e) →
  LookupTableFind.version_8 node tables g = (g1, Raise e).
Proof.
  intros Hc Hconv.
  unfold LookupTableFind.version_8, LookupTableFind.rewrite.
  rewrite (bind_ret_run _ _ _ _ _ Hc).
  by rewrite (bind_raise_run _ _ _ _ _ Hconv).
Qed.

Lemma elem_of_pruned_nodes g tn out0 n :
  n ∈ nodes g → name n ≠ name tn → n ∈ nodes (pruned g tn out0).
Proof.
  intros Hn Hne. unfold pruned. destruct (decide _); [|done].
  rewrite remove_node_pure_nodes. by apply list_elem_of_filter.
Qed.

Lemma pruned_nodes_subseteq g tn out0 n :
  n ∈ nodes (pruned g tn out0) → n ∈ nodes g.
Proof.
  unfold pruned. destruct (decide _); [|done].
  rewrite remove_node_pure_nodes. by intros [_ ?]%list_elem_of_filter.
Qed.

Lemma zip_fst_elem_of {A B} (ks : list A) (vs : list B) k :
  k ∈ (zip ks vs).*1 → k ∈ ks.
Proof.
  intros Hin. apply list_elem_of_fmap in Hin as ([k' v'] & -> & Hin).
  apply list_elem_of_lookup in Hin as [i Hi].
  rewrite lookup_zip_with in Hi.
  destruct (ks !! i) as [ki|] eqn:Hki; [|done]. simpl in Hi.
  destruct (vs !! i); simpl in Hi; [|done].
  injection Hi as -> _. by eapply list_elem_of_lookup_2.
Qed.

(** C1. What the LookupTableFindV2 handler does with a node that passes
    its checks.  For a constant key that is a scalar the node is removed and
    replaced by one [Const] node with the same name and the same output
    identifiers, whose value is the table value bound to a key equal to it,
    or the default when no key of the table equals it; a [str] key equals no
    [bytes] key, so with a table whose keys are [bytes] the value is always
    the default.  For a constant key that is an array the handler removes
    the node and then raises [TypeError]: no node of that name is left.  For
    a key that is not constant the node is replaced by one [CategoryMapper]
    node of the [ai.onnx.ml] domain that carries the keys, the values and
    the default as attributes. *)
Theorem static_lookup_folding (g : Graph) (node : Node) (tables : Tables)
    (tn : Node) (s : string) (ks : list Scalar) (vs : list Z)
    (dn : Node) (d : PyVal) (out0 in1 tout : string) (kn : Node) :
  type node = "LookupTableFindV2" →
  find_table_node g node = Ret tn →
  get_attr_value tn "shared_name" = PScalar (SStr s) →
  tables !! s = Some (ks, vs) →
  input_node g node 2 = Ret dn →
  get_tensor_value dn = Ret d →
  output node !! 0 = Some out0 →
  get_dtype g out0 = Some INT64 →
  input node !! 1 = Some in1 →
  get_dtype g in1 = Some STRING →
  input_node g node 1 = Ret kn →
  output tn !! 0 = Some tout →
  name tn ≠ name node →
  (∀ k, get_tensor_value kn = Ret (PScalar k) →
     let value :=
       match py_dict (zip ks vs) !! k with
       | Some v => PScalar (SInt v)
       | None => d
       end in
     ∃ tensor,
       from_array value = Ret tensor
       ∧ let c := folded_const node tensor in
         let g1 := make_node_pure c [Some []] [Some INT64]
                     (remove_node_pure (name node) g) in
         let g' := pruned g1 tn tout in
         LookupTableFind.version_8 node tables g = (g', Ret ())
         ∧ nodes g1 = filter (λ n, name n ≠ name node) (nodes g) ++ [c]
         ∧ c ∈ nodes g' ∧ (node ∉ nodes g')
         ∧ (∀ n, n ∈ nodes g' → name n = name node → n = c)
         ∧ (∀ i v, ks !! i = Some k → vs !! i = Some v →
              (∀ j, i < j → ks !! j ≠ Some k) →
              value = PScalar (SInt v) ∧ tensor = PTensor (SInt v))
         ∧ (k ∉ ks → value = d)
         ∧ (∀ key, k = SStr key → (∀ x, x ∈ ks → ∃ b, x = SBytes b) →
              value = d))
  ∧ (∀ n dims data, get_tensor_value kn = Ret (PArray n dims data) →
       let g' := remove_node_pure (name node) g in
       LookupTableFind.version_8 node tables g = (g', Raise TypeError)
       ∧ (∀ m, m ∈ nodes g' → name m ≠ name node))
  ∧ (is_const kn = false →
     let c := category_mapper node in1 ks vs d in
     let g1 := make_node_pure c [get_shape g out0] [Some INT64]
                 (remove_node_pure (name node) g) in
     let g' := pruned g1 tn tout in
     LookupTableFind.version_8 node tables g = (g', Ret ())
     ∧ nodes g1 = filter (λ n, name n ≠ name node) (nodes g) ++ [c]
     ∧ c ∈ nodes g' ∧ (node ∉ nodes g')
     ∧ (∀ n, n ∈ nodes g' → name n = name node → n = c)).
Proof.
  intros Hty Htn Hsn Htab Hdn Hd Hout Hdt Hin Hidt Hkn Htout Hne.
  pose proof (find_checks_ok _ _ _ _ _ _ _ _ _ _ _
                Htn Hsn Htab Hdn Hd Hout Hdt Hin Hidt) as Hchk.
  assert (Hframe : ∀ c shapes dtypes,
    name c = name node → c ≠ node →
    let g1 := make_node_pure c shapes dtypes (remove_node_pure (name node) g) in
    nodes g1 = filter (λ n, name n ≠ name node) (nodes g) ++ [c]
    ∧ c ∈ nodes (pruned g1 tn tout) ∧ (node ∉ nodes (pruned g1 tn tout))
    ∧ (∀ n, n ∈ nodes (pruned g1 tn tout) → name n = name node → n = c)).
  { intros c shapes dtypes Hnm Hcn g1.
    assert (Hg1 : nodes g1 = filter (λ n, name n ≠ name node) (nodes g) ++ [c])
      by done.
    assert (Hin1 : ∀ n, n ∈ nodes g1 → name n = name node → n = c).
    { intros n. rewrite Hg1. intros [Hn|Hn]%elem_of_app Hnn.
      - apply list_elem_of_filter in Hn as [Hn _]. done.
      - by apply list_elem_of_singleton in Hn. }
    split_and!; [done | | |].
    - apply elem_of_pruned_nodes; [|congruence].
      rewrite Hg1. apply elem_of_app. right. by apply list_elem_of_singleton.
    - intros Hn%pruned_nodes_subseteq. apply Hcn. symmetry. by apply Hin1.
    - intros n Hn%pruned_nodes_subseteq. by apply Hin1. }
  split_and!.
  - intros k Hk value.
    assert (Hvalue : ∃ tensor, from_array value = Ret tensor).
    { unfold value. destruct (py_dict (zip ks vs) !! k); [simpl; eauto|].
      by eapply get_tensor_value_from_array. }
    destruct Hvalue as [tensor Htensor]. exists tensor. split; [done|].
    intros c g1 g'.
    assert (Habsent : k ∉ ks → value = d).
    { intros Hk'. unfold value.
      rewrite py_dict_lookup_None; [done|].
      intros Hin'. by apply Hk', (zip_fst_elem_of ks vs). }
    split; [|split_and!].
    + apply (find_version_8_run _ _ _ _ _ _ Hchk); [|done].
      exact (find_convert_const g node
               (LookupTableFind.mkChecked tn d (Some INT64) ks vs
                  (get_shape g out0))
               kn (PScalar k) value tensor Hkn Hk eq_refl Htensor).
    + apply (Hframe c); [done|]. intros E. by rewrite <- E in Hty.
    + apply (Hframe c); [done|]. intros E. by rewrite <- E in Hty.
    + apply (Hframe c); [done|]. intros E. by rewrite <- E in Hty.
    + apply (Hframe c); [done|]. intros E. by rewrite <- E in Hty.
    + intros i v Hki Hvi Hlast.
      assert (Hv : value = PScalar (SInt v)).
      { unfold value.
        erewrite (py_dict_lookup_last _ i); [done | |].
        * rewrite lookup_zip_with, Hki. simpl. by rewrite Hvi.
        * intros j v' Hj Hz. apply (Hlast j Hj).
          rewrite lookup_zip_with in Hz.
          destruct (ks !! j) as [kj|]; [|done]. simpl in Hz.
          destruct (vs !! j); simpl in Hz; congruence. }
      split; [done|]. rewrite Hv in Htensor. simpl in Htensor. congruence.
    + done.
    + intros key -> Hbytes. apply Habsent.
      intros [b Hb]%Hbytes. discriminate Hb.
  - intros n dims data Hk g'. split.
    + apply (find_version_8_convert_raise _ _ _ _ _ _ Hchk).
      exact (find_convert_unhashable g node
               (LookupTableFind.mkChecked tn d (Some INT64) ks vs
                  (get_shape g out0))
               kn (PArray n dims data) TypeError Hkn Hk eq_refl).
    + intros m Hm. unfold g' in Hm. rewrite remove_node_pure_nodes in Hm.
      by apply list_elem_of_filter in Hm as [? _].
  - intros Hc c g1 g'.
    split; [|split_and!].
    + apply (find_version_8_run _ _ _ _ _ _ Hchk); [|done].
      by rewrite (find_convert_dynamic _ _ _ _ _ Hkn Hc Hin).
    + apply (Hframe c); [done|]. intros E. by rewrite <- E in Hty.
    + apply (Hframe c); [done|]. intros E. by rewrite <- E in Hty.
    + apply (Hframe c); [done|]. intros E. by rewrite <- E in Hty.
    + apply (Hframe c); [done|]. intros E. by rewrite <- E in Hty.
Qed.

Lemma static_lookup_folding_witness :
  folded_const ex_find (PTensor (SInt 2))
    ∈ nodes (LookupTableFind.version_8 ex_find ex_tables (ex_graph_const "b")).1
  ∧ LookupTableFind.version_8 ex_find ex_tables ex_graph_const_vector
    = (remove_node_pure "find" ex_graph_const_vector, Raise TypeError)
  ∧ category_mapper ex_find "key:0" [SStr "a"; SStr "b"] [1%Z; 2%Z]
      (PScalar (SInt 0))
    ∈ nodes (LookupTableFind.version_8 ex_find ex_tables ex_graph_dynamic).1.
Proof.
  split_and!.
  - destruct (static_lookup_folding (ex_graph_const "b") ex_find ex_tables
                ex_table "vocab" [SStr "a"; SStr "b"] [1%Z; 2%Z]
                (ex_const "default" (SInt 0)) (PScalar (SInt 0))
                "find:0" "key:0" "table:0" (ex_const "key" (SStr "b")))
      as (Hconst & _ & _); [vm_compute; reflexivity .. | discriminate | ].
    destruct (Hconst (SStr "b") eq_refl) as (t & Ht & Hrun & _ & Hin & _).
    vm_compute in Ht. injection Ht as <-.
    rewrite Hrun. exact Hin.
  - destruct (static_lookup_folding ex_graph_const_vector ex_find ex_tables
                ex_table "vocab" [SStr "a"; SStr "b"] [1%Z; 2%Z]
                (ex_const "default" (SInt 0)) (PScalar (SInt 0))
                "find:0" "key:0" "table:0"
                (ex_const_vector "key" [SStr "a"; SStr "b"]))
      as (_ & Hvec & _); [vm_compute; reflexivity .. | discriminate | ].
    destruct (Hvec 2 [] [SStr "a"; SStr "b"] eq_refl) as [Hrun _].
    exact Hrun.
  - destruct (static_lookup_folding ex_graph_dynamic ex_find ex_tables
                ex_table "vocab" [SStr "a"; SStr "b"] [1%Z; 2%Z]
                (ex_const "default" (SInt 0)) (PScalar (SInt 0))
                "find:0" "key:0" "table:0" (ex_placeholder "key"))
      as (_ & _ & Hdyn); [vm_compute; reflexivity .. | discriminate | ].
    destruct (Hdyn eq_refl) as (Hrun & _ & Hin & _).
    rewrite Hrun. exact Hin.
Defined.

(** The example of the specification: with the table [{"a": 1, "b": 2}] and
    default 0, the constant key "b" folds to 2 and the absent key "z" folds
    to 0. *)
Example static_lookup_folding_b :
  get_node_by_name
    (LookupTableFind.version_8 ex_find ex_tables (ex_graph_const "b")).1 "find"
  = Some (folded_const ex_find (PTensor (SInt 2))).
Proof. vm_compute. reflexivity. Qed.

Example static_lookup_folding_z :
  get_node_by_name
    (LookupTableFind.version_8 ex_find ex_tables (ex_graph_const "z")).1 "find"
  = Some (folded_const ex_find (PTensor (SInt 0))).
Proof. vm_compute. reflexivity. Qed.

(** The same lookup of "b" in the table as it is loaded from a model, whose
    keys are [bytes]: the key is not found and the lookup folds to the
    default 0. *)
Example static_lookup_folding_loaded_table :
  get_node_by_name
    (LookupTableFind.version_8 ex_find ex_tables_loaded (ex_graph_const "b")).1
    "find"
  = Some (folded_const ex_find (PTensor (SInt 0))).
Proof. vm_compute. reflexivity. Qed.

(** A lookup of the constant keys ["a"; "b"]: the handler raises
    [TypeError] and leaves the graph without the lookup node, whose output
    "find:0" the node "out" still reads. *)
Example static_lookup_folding_vector_key :
  let run := LookupTableFind.version_8 ex_find ex_tables ex_graph_const_vector in
  run.2 = Raise TypeError
  ∧ get_node_by_name run.1 "find" = None
  ∧ get_node_by_output run.1 "find:0" = None
  ∧ get_node_by_name run.1 "out" = Some (ex_out "out" "find:0").
Proof. vm_compute. done. Qed.

(** ** Table-size folding *)

Lemma size_convert_run g node keys old :
  output node !! 0 = Some old →
  LookupTableSize.convert node keys g =
    (replace_all_inputs_pure old (name node)
       (make_node_pure (size_const node keys) [Some []] [Some INT64]
          (remove_node_pure (name node) g)), Ret ()).
Proof.
  intros Hold.
  unfold LookupTableSize.convert, make_const, make_node, remove_node,
    replace_all_inputs, py_index.
  unfold_M. simpl. by rewrite Hold.
Qed.

Lemma size_version_1_run g node tables tn keys g1 out0 :
  LookupTableSize.checks node tables g = (g, Ret (tn, keys)) →
  LookupTableSize.convert node keys g = (g1, Ret ()) →
  output tn !! 0 = Some out0 →
  LookupTableSize.version_1 node tables g = (pruned g1 tn out0, Ret ()).
Proof.
  intros Hc Hconv Hout.
  unfold LookupTableSize.version_1, LookupTableSize.rewrite.
  rewrite (bind_ret_run _ _ _ _ _ Hc). simpl.
  rewrite (bind_ret_run _ _ _ _ _ Hconv).
  by apply prune_table_node_run.
Qed.

(** After [replace_all_inputs old new] with [old ≠ new] no node has [old]
    among its inputs. *)
Lemma rewire_not_elem old new n :
  old ≠ new → old ∉ input (rewire old new n).
Proof.
  intros Hne. simpl. intros Hin.
  apply list_elem_of_fmap in Hin as (t & Ht & _).
  unfold replace_input in Ht. destruct (decide (t = old)); congruence.
Qed.

Lemma rewire_elem old new n :
  old ∈ input n → new ∈ input (rewire old new n).
Proof.
  intros Hin. simpl. apply list_elem_of_fmap. exists old. split; [|done].
  unfold replace_input. by destruct (decide (old = old)).
Qed.

Lemma replace_all_inputs_consumers old new g :
  old ≠ new → find_output_consumers (replace_all_inputs_pure old new g) old = [].
Proof.
  intros Hne. unfold find_output_consumers. simpl.
  induction (nodes g) as [|n l IH]; [done|].
  rewrite fmap_cons, filter_cons_False; [done|].
  by apply rewire_not_elem.
Qed.

Lemma find_output_consumers_pruned g tn out0 t :
  find_output_consumers g t = [] →
  find_output_consumers (pruned g tn out0) t = [].
Proof.
  unfold pruned. destruct (decide _); [|done].
  unfold find_output_consumers. rewrite remove_node_pure_nodes.
  intros H. apply elem_of_nil_inv. intros n Hn.
  apply list_elem_of_filter in Hn as [Ht Hn].
  apply list_elem_of_filter in Hn as [_ Hn].
  assert (n ∈ filter (λ n, t ∈ input n) (nodes g))
    by (by apply list_elem_of_filter).
  rewrite H in *. by eapply not_elem_of_nil.
Qed.

(** C6. A LookupTableSizeV2 node that refers to an initialized table with
    keys [ks] is removed; a [Const] node of the same name is created whose
    value is the number of keys, annotated as an int64 scalar; every input
    of every node that was the old size output is the constant's output
    afterwards; and when the two identifiers differ no node consumes the old
    output any more. *)
Theorem table_size_folding (g : Graph) (node : Node) (tables : Tables)
    (tn : Node) (s : string) (ks : list Scalar) (vs : list Z)
    (old tout : string) :
  type node = "LookupTableSizeV2" →
  find_table_node g node = Ret tn →
  get_attr_value tn "shared_name" = PScalar (SStr s) →
  tables !! s = Some (ks, vs) →
  output node !! 0 = Some old →
  output tn !! 0 = Some tout →
  name tn ≠ name node →
  let c := size_const node ks in
  let new := name node in
  let g0 := make_node_pure c [Some []] [Some INT64]
              (remove_node_pure (name node) g) in
  let g1 := replace_all_inputs_pure old new g0 in
  let g' := pruned g1 tn tout in
  LookupTableSize.version_1 node tables g = (g', Ret ())
  ∧ attr c !! "value" = Some (PTensor (SInt (Z.of_nat (length ks))))
  ∧ output c !! 0 = Some new
  ∧ get_dtype g0 new = Some INT64 ∧ get_shape g0 new = Some []
  ∧ nodes g1 =
      (rewire old new <$> filter (λ n, name n ≠ name node) (nodes g)) ++ [c]
  ∧ c ∈ nodes g' ∧ (node ∉ nodes g')
  ∧ (∀ n, n ∈ nodes g → name n ≠ name node → name n ≠ name tn →
          old ∈ input n →
          rewire old new n ∈ nodes g' ∧ new ∈ input (rewire old new n))
  ∧ (old ≠ new → find_output_consumers g' old = []).
Proof.
  intros Hty Htn Hsn Htab Hold Htout Hne c new g0 g1 g'.
  pose proof (size_checks_ok _ _ _ _ _ _ _ Htn Hsn Htab) as Hchk.
  assert (Hg1 : nodes g1 =
      (rewire old new <$> filter (λ n, name n ≠ name node) (nodes g)) ++ [c]).
  { unfold g1, g0. simpl. by rewrite fmap_app. }
  split_and!.
  - apply (size_version_1_run _ _ _ _ _ _ _ Hchk); [|done].
    by apply size_convert_run.
  - done.
  - done.
  - unfold get_dtype, g0, make_node_pure, annotate, c, size_const.
    cbn [output_dtypes output zip zip_with foldr fst snd].
    apply lookup_insert_eq.
  - unfold get_shape, g0, make_node_pure, annotate, c, size_const.
    cbn [output_shapes output zip zip_with foldr fst snd].
    apply lookup_insert_eq.
  - done.
  - apply elem_of_pruned_nodes; [|done].
    rewrite Hg1. apply elem_of_app. right. by apply list_elem_of_singleton.
  - intros Hn%pruned_nodes_subseteq. rewrite Hg1 in Hn.
    apply elem_of_app in Hn as [Hn|Hn].
    + apply list_elem_of_fmap in Hn as (n & Hnn & Hn).
      apply list_elem_of_filter in Hn as [Hn _]. apply Hn. by rewrite Hnn.
    + apply list_elem_of_singleton in Hn. by rewrite Hn in Hty.
  - intros n Hn Hnn Hnt Hin. split; [|by apply rewire_elem].
    apply elem_of_pruned_nodes; [|done].
    rewrite Hg1. apply elem_of_app. left.
    apply list_elem_of_fmap. exists n. split; [done|].
    by apply list_elem_of_filter.
  - intros Hon. apply find_output_consumers_pruned.
    by apply replace_all_inputs_consumers.
Qed.

Lemma table_size_folding_witness :
  let g' := (LookupTableSize.version_1 ex_size ex_tables ex_graph_size).1 in
  size_const ex_size [SStr "a"; SStr "b"] ∈ nodes g'
  ∧ find_output_consumers g' "size:0" = [].
Proof.
  destruct (table_size_folding ex_graph_size ex_size ex_tables ex_table
              "vocab" [SStr "a"; SStr "b"] [1%Z; 2%Z] "size:0" "table:0")
    as (Hrun & _ & _ & _ & _ & _ & Hc & _ & _ & Hcons);
    try (vm_compute; reflexivity); [discriminate|].
  rewrite Hrun. split; [exact Hc|]. apply Hcons. discriminate.
Defined.

(** The size of the table [{"a": 1, "b": 2}] folds to the constant 2, both
    consumers of the old output read the constant, and a table node that is
    left without consumers goes. *)
Example table_size_folding_direct :
  let g' := (LookupTableSize.version_1
               (mkNode "size" "LookupTableSizeV2" "" ["table:0"] ["size:0"] ∅)
               ex_tables ex_graph_size_direct).1 in
  nodes g' = [ex_out "out" "size"; size_const ex_size [SStr "a"; SStr "b"]].
Proof. vm_compute. reflexivity. Qed.

(** ** Cleanup of the table node *)

(** C7. Once either lookup handler has converted its node, leaving the
    graph [g1], it looks at the consumers of the first output of the table
    node it reached through the Identity nodes: with no consumer left the
    nodes named like the table node are removed and every other node stays;
    with a consumer left the graph [g1] is the final graph. *)
Theorem table_node_cleanup (g g1 : Graph) (node : Node) (tables : Tables) :
  (∀ c,
     LookupTableFind.checks node tables g = (g, Ret c) →
     LookupTableFind.convert node c g = (g1, Ret ()) →
     let tn := LookupTableFind.table_node c in
     ∃ out0 g',
       output tn !! 0 = Some out0
       ∧ LookupTableFind.version_8 node tables g = (g', Ret ())
       ∧ (find_output_consumers g1 out0 = [] →
          nodes g' = filter (λ n, name n ≠ name tn) (nodes g1)
          ∧ (tn ∉ nodes g')
          ∧ (∀ n, n ∈ nodes g1 → name n ≠ name tn → n ∈ nodes g'))
       ∧ (find_output_consumers g1 out0 ≠ [] → g' = g1))
  ∧ (∀ tn keys,
     LookupTableSize.checks node tables g = (g, Ret (tn, keys)) →
     LookupTableSize.convert node keys g = (g1, Ret ()) →
     ∃ out0 g',
       output tn !! 0 = Some out0
       ∧ LookupTableSize.version_1 node tables g = (g', Ret ())
       ∧ (find_output_consumers g1 out0 = [] →
          nodes g' = filter (λ n, name n ≠ name tn) (nodes g1)
          ∧ (tn ∉ nodes g')
          ∧ (∀ n, n ∈ nodes g1 → name n ≠ name tn → n ∈ nodes g'))
       ∧ (find_output_consumers g1 out0 ≠ [] → g' = g1)).
Proof.
  assert (Hclean : ∀ tn out0,
    (find_output_consumers g1 out0 = [] →
       nodes (pruned g1 tn out0) = filter (λ n, name n ≠ name tn) (nodes g1)
       ∧ (tn ∉ nodes (pruned g1 tn out0))
       ∧ (∀ n, n ∈ nodes g1 → name n ≠ name tn → n ∈ nodes (pruned g1 tn out0)))
    ∧ (find_output_consumers g1 out0 ≠ [] → pruned g1 tn out0 = g1)).
  { intros tn out0. destruct (pruned_nodes g1 tn out0) as [Hnil Hcons].
    split; [|done]. intros H. specialize (Hnil H). split_and!; [done| |].
    - rewrite Hnil. by intros [? _]%list_elem_of_filter.
    - intros n Hn Hne. by apply elem_of_pruned_nodes. }
  split.
  - intros c Hchk Hconv tn.
    destruct (find_table_node_output g node tn) as [out0 Hout];
      [by eapply find_checks_table_node|].
    exists out0, (pruned g1 tn out0). split_and!; [done | | apply Hclean..].
    by apply find_version_8_run.
  - intros tn keys Hchk Hconv.
    destruct (find_table_node_output g node tn) as [out0 Hout];
      [exact (size_checks_table_node _ _ _ _ _ _ Hchk)|].
    exists out0, (pruned g1 tn out0). split_and!; [done | | apply Hclean..].
    exact (size_version_1_run _ _ _ _ _ _ _ Hchk Hconv Hout).
Qed.

Lemma table_node_cleanup_witness :
  (* the table is still read by the Identity node: nothing is removed *)
  (let g1 := (LookupTableSize.convert ex_size [SStr "a"; SStr "b"] ex_graph_size).1 in
   LookupTableSize.version_1 ex_size ex_tables ex_graph_size = (g1, Ret ()))
  (* the table was read by the lookup alone: the table node goes *)
  ∧ (let c := LookupTableFind.mkChecked ex_table (PScalar (SInt 0))
                (Some INT64)
                [SStr "a"; SStr "b"] [1%Z; 2%Z] None in
     let g1 := (LookupTableFind.convert ex_find_direct c
                  ex_graph_find_direct).1 in
     ex_table ∈ nodes g1
     ∧ ∃ g', LookupTableFind.version_8 ex_find_direct ex_tables
               ex_graph_find_direct = (g', Ret ())
             ∧ ex_table ∉ nodes g').
Proof.
  split.
  - intros g1.
    destruct (table_node_cleanup ex_graph_size g1 ex_size ex_tables)
      as [_ Hsize].
    destruct (Hsize ex_table [SStr "a"; SStr "b"])
      as (out0 & g' & Hout & Hrun & _ & Hkeep);
      [vm_compute; reflexivity | vm_compute; reflexivity |].
    rewrite Hrun. f_equal. apply Hkeep.
    injection Hout as <-. vm_compute. discriminate.
  - intros c g1.
    split; [vm_compute; by left|].
    destruct (table_node_cleanup ex_graph_find_direct g1 ex_find_direct
                ex_tables) as [Hfind _].
    destruct (Hfind c) as (out0 & g' & Hout & Hrun & Hgo & _);
      [vm_compute; reflexivity | vm_compute; reflexivity |].
    exists g'. split; [exact Hrun|].
    apply Hgo. injection Hout as <-. vm_compute. reflexivity.
Defined.

(** ** Precondition errors *)

(** The helpers raise Python's own exceptions, never a [make_sure]
    failure. *)
Lemma py_index_not_MakeSure {A} (l : list A) i fmt args :
  py_index l i ≠ Raise (MakeSureFailure fmt args).
Proof. unfold py_index. by destruct (l !! i). Qed.

Lemma input_node_not_MakeSure g n i fmt args :
  input_node g n i ≠ Raise (MakeSureFailure fmt args).
Proof. unfold input_node. by repeat case_match. Qed.

Lemma py_in_not_MakeSure {V} key (d : gmap string V) fmt args :
  py_in key d ≠ Raise (MakeSureFailure fmt args).
Proof. unfold py_in. by repeat case_match. Qed.

Lemma py_getitem_not_MakeSure {V} key (d : gmap string V) fmt args :
  py_getitem d key ≠ Raise (MakeSureFailure fmt args).
Proof. unfold py_getitem. by repeat case_match. Qed.

Lemma get_tensor_value_not_MakeSure n fmt args :
  get_tensor_value n ≠ Raise (MakeSureFailure fmt args).
Proof. unfold get_tensor_value. by repeat case_match. Qed.

Lemma py_get_not_MakeSure d key dflt fmt args :
  py_get d key dflt ≠ Raise (MakeSureFailure fmt args).
Proof. unfold py_get. by repeat case_match. Qed.

Lemma from_array_not_MakeSure v fmt args :
  from_array v ≠ Raise (MakeSureFailure fmt args).
Proof. unfold from_array. by repeat case_match. Qed.

Lemma walk_identity_not_MakeSure g fuel n fmt args :
  walk_identity fuel g n ≠ Raise (MakeSureFailure fmt args).
Proof.
  revert n. induction fuel as [|fuel IH]; intros n; simpl.
  - by destruct (decide _).
  - destruct (decide _); [|done].
    destruct (input_node g n 0) eqn:Hin; [apply IH|].
    intros [= ->]. exact (input_node_not_MakeSure _ _ _ _ _ Hin).
Qed.

Lemma find_table_node_not_MakeSure g n fmt args :
  find_table_node g n ≠ Raise (MakeSureFailure fmt args).
Proof.
  unfold find_table_node.
  destruct (input_node g n 0) eqn:Hin; [apply walk_identity_not_MakeSure|].
  intros [= ->]. exact (input_node_not_MakeSure _ _ _ _ _ Hin).
Qed.

Ltac no_make_sure :=
  match goal with
  | H : find_table_node _ _ = Raise (MakeSureFailure _ _) |- _ =>
      by destruct (find_table_node_not_MakeSure _ _ _ _ H)
  | H : input_node _ _ _ = Raise (MakeSureFailure _ _) |- _ =>
      by destruct (input_node_not_MakeSure _ _ _ _ _ H)
  | H : py_in _ _ = Raise (MakeSureFailure _ _) |- _ =>
      by destruct (py_in_not_MakeSure _ _ _ _ H)
  | H : py_getitem _ _ = Raise (MakeSureFailure _ _) |- _ =>
      by destruct (py_getitem_not_MakeSure _ _ _ _ H)
  | H : get_tensor_value _ = Raise (MakeSureFailure _ _) |- _ =>
      by destruct (get_tensor_value_not_MakeSure _ _ _ H)
  | H : py_index _ _ = Raise (MakeSureFailure _ _) |- _ =>
      by destruct (py_index_not_MakeSure _ _ _ _ H)
  | H : py_get _ _ _ = Raise (MakeSureFailure _ _) |- _ =>
      by destruct (py_get_not_MakeSure _ _ _ _ _ H)
  | H : from_array _ = Raise (MakeSureFailure _ _) |- _ =>
      by destruct (from_array_not_MakeSure _ _ _ H)
  end.

Ltac bool_hyps :=
  repeat match goal with
    | H : bool_decide _ = true |- _ => apply bool_decide_eq_true in H
    | H : bool_decide _ = false |- _ => apply bool_decide_eq_false in H
    | H : _ && _ = true |- _ => apply andb_true_iff in H as [? ?]
    | H : _ && _ = false |- _ => apply andb_false_iff in H
    end.

Lemma find_checks_MakeSure node tables g g' fmt args :
  LookupTableFind.checks node tables g = (g', Raise (MakeSureFailure fmt args)) →
  ∃ tn, find_table_node g node = Ret tn ∧
    let sn := get_attr_value tn "shared_name" in
    let who := PScalar (SStr (name node)) in
    (sn = PNone ∧ fmt = LookupTableFind.msg_shared_name ∧ args = [who])
    ∨ (sn ≠ PNone ∧ py_in sn tables = Ret false
       ∧ fmt = LookupTableFind.msg_not_found ∧ args = [sn; who])
    ∨ (∃ dn, py_in sn tables = Ret true ∧ input_node g node 2 = Ret dn
             ∧ is_const dn = false
             ∧ fmt = LookupTableFind.msg_default ∧ args = [])
    ∨ (∃ dn d out0 in1, py_in sn tables = Ret true
         ∧ input_node g node 2 = Ret dn ∧ get_tensor_value dn = Ret d
         ∧ output node !! 0 = Some out0 ∧ input node !! 1 = Some in1
         ∧ ¬ (get_dtype g out0 = Some INT64 ∧ get_dtype g in1 = Some STRING)
         ∧ fmt = LookupTableFind.msg_dtype ∧ args = []).
Proof.
  unfold LookupTableFind.checks, py_index. unfold_M. intros H.
  run_cases; try no_make_sure; bool_hyps; (eexists; split; [done|]); simpl.
  - do 3 right. eexists _, _, _, _. split_and!; try done.
    intros [? ?].
    match goal with
    | Hor : _ ∨ _ |- _ => destruct Hor as [Hb|Hb];
                          apply bool_decide_eq_false in Hb; done
    end.
  - do 2 right. left. eauto 10.
  - right. left. eauto.
  - left. split_and!; try done.
    by destruct (decide (get_attr_value a "shared_name" = PNone)).
Qed.

Lemma size_checks_MakeSure node tables g g' fmt args :
  LookupTableSize.checks node tables g = (g', Raise (MakeSureFailure fmt args)) →
  ∃ tn, find_table_node g node = Ret tn ∧
    let sn := get_attr_value tn "shared_name" in
    let who := PScalar (SStr (name node)) in
    (sn = PNone ∧ fmt = LookupTableFind.msg_shared_name ∧ args = [who])
    ∨ (sn ≠ PNone ∧ py_in sn tables = Ret false
       ∧ fmt = LookupTableFind.msg_not_found ∧ args = [sn; who]).
Proof.
  unfold LookupTableSize.checks. unfold_M. intros H.
  run_cases; try no_make_sure; bool_hyps; (eexists; split; [done|]); simpl.
  - right. eauto.
  - left. split_and!; try done.
    by destruct (decide (get_attr_value a "shared_name" = PNone)).
Qed.

(** After the checks no [make_sure] is left. *)
Lemma prune_table_node_not_MakeSure tn g g' fmt args :
  prune_table_node tn g ≠ (g', Raise (MakeSureFailure fmt args)).
Proof.
  unfold prune_table_node, py_index, remove_node. unfold_M. intros H.
  run_cases.
Qed.

Lemma find_rewrite_not_MakeSure node c g g' fmt args :
  LookupTableFind.rewrite node c g ≠ (g', Raise (MakeSureFailure fmt args)).
Proof.
  unfold LookupTableFind.rewrite, LookupTableFind.convert, make_node,
    remove_node, py_index.
  unfold_M. intros H.
  run_cases; try no_make_sure;
    by eapply prune_table_node_not_MakeSure.
Qed.

Lemma size_rewrite_not_MakeSure node tn keys g g' fmt args :
  LookupTableSize.rewrite node tn keys g ≠ (g', Raise (MakeSureFailure fmt args)).
Proof.
  unfold LookupTableSize.rewrite, LookupTableSize.convert, make_const,
    make_node, remove_node, replace_all_inputs, py_index.
  unfold_M. intros H.
  run_cases; try no_make_sure;
    by eapply prune_table_node_not_MakeSure.
Qed.

Lemma find_version_8_MakeSure node tables g g' fmt args :
  LookupTableFind.version_8 node tables g = (g', Raise (MakeSureFailure fmt args)) →
  g' = g
  ∧ LookupTableFind.checks node tables g = (g, Raise (MakeSureFailure fmt args)).
Proof.
  unfold LookupTableFind.version_8.
  pose proof (find_checks_graph node tables g) as Hg.
  unfold mbind, M_bind, bind.
  destruct (LookupTableFind.checks node tables g) as [g0 [c|e]]; simpl in Hg; subst g0.
  - intros H. by apply find_rewrite_not_MakeSure in H.
  - by intros [= -> ->].
Qed.

Lemma size_version_1_MakeSure node tables g g' fmt args :
  LookupTableSize.version_1 node tables g = (g', Raise (MakeSureFailure fmt args)) →
  g' = g
  ∧ LookupTableSize.checks node tables g = (g, Raise (MakeSureFailure fmt args)).
Proof.
  unfold LookupTableSize.version_1.
  pose proof (size_checks_graph node tables g) as Hg.
  unfold mbind, M_bind, bind.
  destruct (LookupTableSize.checks node tables g) as [g0 [[tn keys]|e]];
    simpl in Hg; subst g0.
  - intros H. by apply size_rewrite_not_MakeSure in H.
  - by intros [= -> ->].
Qed.

Lemma find_checks_shared_name g node tables tn :
  find_table_node g node = Ret tn →
  get_attr_value tn "shared_name" = PNone →
  LookupTableFind.checks node tables g =
    (g, Raise (MakeSureFailure LookupTableFind.msg_shared_name
                 [PScalar (SStr (name node))])).
Proof.
  intros Htn Hsn. unfold LookupTableFind.checks. unfold_M.
  by rewrite Htn, Hsn.
Qed.

Lemma find_checks_not_found g node tables tn :
  find_table_node g node = Ret tn →
  get_attr_value tn "shared_name" ≠ PNone →
  py_in (get_attr_value tn "shared_name") tables = Ret false →
  LookupTableFind.checks node tables g =
    (g, Raise (MakeSureFailure LookupTableFind.msg_not_found
                 [get_attr_value tn "shared_name"; PScalar (SStr (name node))])).
Proof.
  intros Htn Hsn Hin. unfold LookupTableFind.checks. unfold_M.
  rewrite Htn, bool_decide_eq_true_2 by done. by rewrite Hin.
Qed.

Lemma py_in_true_not_None {V} key (d : gmap string V) :
  py_in key d = Ret true → key ≠ PNone.
Proof. by intros H ->. Qed.

Lemma find_checks_default g node tables tn dn :
  find_table_node g node = Ret tn →
  py_in (get_attr_value tn "shared_name") tables = Ret true →
  input_node g node 2 = Ret dn →
  is_const dn = false →
  LookupTableFind.checks node tables g =
    (g, Raise (MakeSureFailure LookupTableFind.msg_default [])).
Proof.
  intros Htn Hin Hdn Hc. unfold LookupTableFind.checks. unfold_M.
  rewrite Htn, bool_decide_eq_true_2 by (by eapply py_in_true_not_None).
  by rewrite Hin, Hdn, Hc.
Qed.

Lemma find_checks_dtype g node tables tn dn d out0 in1 :
  find_table_node g node = Ret tn →
  py_in (get_attr_value tn "shared_name") tables = Ret true →
  input_node g node 2 = Ret dn →
  get_tensor_value dn = Ret d →
  output node !! 0 = Some out0 →
  input node !! 1 = Some in1 →
  ¬ (get_dtype g out0 = Some INT64 ∧ get_dtype g in1 = Some STRING) →
  LookupTableFind.checks node tables g =
    (g, Raise (MakeSureFailure LookupTableFind.msg_dtype [])).
Proof.
  intros Htn Hin Hdn Hd Hout Hin1 Hbad.
  pose proof (get_tensor_value_is_const _ _ Hd) as Hc.
  unfold LookupTableFind.checks, py_index. unfold_M.
  rewrite Htn, bool_decide_eq_true_2 by (by eapply py_in_true_not_None).
  rewrite Hin, Hdn, Hc, Hd, Hout, Hin1.
  destruct (bool_decide _ && bool_decide _) eqn:Hb; [|done].
  bool_hyps. by destruct Hbad.
Qed.

Lemma size_checks_shared_name g node tables tn :
  find_table_node g node = Ret tn →
  get_attr_value tn "shared_name" = PNone →
  LookupTableSize.checks node tables g =
    (g, Raise (MakeSureFailure LookupTableFind.msg_shared_name
                 [PScalar (SStr (name node))])).
Proof.
  intros Htn Hsn. unfold LookupTableSize.checks. unfold_M.
  by rewrite Htn, Hsn.
Qed.

Lemma size_checks_not_found g node tables tn :
  find_table_node g node = Ret tn →
  get_attr_value tn "shared_name" ≠ PNone →
  py_in (get_attr_value tn "shared_name") tables = Ret false →
  LookupTableSize.checks node tables g =
    (g, Raise (MakeSureFailure LookupTableFind.msg_not_found
                 [get_attr_value tn "shared_name"; PScalar (SStr (name node))])).
Proof.
  intros Htn Hsn Hin. unfold LookupTableSize.checks. unfold_M.
  rewrite Htn, bool_decide_eq_true_2 by done. by rewrite Hin.
Qed.


(** C5, as the handlers have it.  Given the table node [tn] the walk ends
    at, the handlers raise a [make_sure] error exactly in these cases, in
    this order: no shared name, no initialized table of that name, and for
    LookupTableFindV2 a default input that is not constant or, with a
    constant default, element types other than string to int64.  Each of the
    four conditions raises its error (the first conjunct), and every
    [make_sure] error comes from one of them (the second and the third).
    The first two messages carry the name of the node.  Every one of these
    errors leaves the graph as it was. *)
Theorem lookup_precondition_errors (g : Graph) (node : Node) (tables : Tables) :
  let who := PScalar (SStr (name node)) in
  (∀ tn, find_table_node g node = Ret tn →
     let sn := get_attr_value tn "shared_name" in
     (sn = PNone →
        let e := MakeSureFailure LookupTableFind.msg_shared_name [who] in
        LookupTableFind.version_8 node tables g = (g, Raise e)
        ∧ LookupTableSize.version_1 node tables g = (g, Raise e)
        ∧ names_node e node)
     ∧ (sn ≠ PNone → py_in sn tables = Ret false →
        let e := MakeSureFailure LookupTableFind.msg_not_found [sn; who] in
        LookupTableFind.version_8 node tables g = (g, Raise e)
        ∧ LookupTableSize.version_1 node tables g = (g, Raise e)
        ∧ names_node e node)
     ∧ (py_in sn tables = Ret true →
        ∀ dn, input_node g node 2 = Ret dn → is_const dn = false →
        LookupTableFind.version_8 node tables g =
          (g, Raise (MakeSureFailure LookupTableFind.msg_default [])))
     ∧ (py_in sn tables = Ret true →
        ∀ dn d out0 in1,
          input_node g node 2 = Ret dn → get_tensor_value dn = Ret d →
          output node !! 0 = Some out0 → input node !! 1 = Some in1 →
          ¬ (get_dtype g out0 = Some INT64 ∧ get_dtype g in1 = Some STRING) →
          LookupTableFind.version_8 node tables g =
            (g, Raise (MakeSureFailure LookupTableFind.msg_dtype []))))
  ∧ (∀ g' fmt args,
       LookupTableFind.version_8 node tables g
         = (g', Raise (MakeSureFailure fmt args)) →
       g' = g ∧
       ∃ tn, find_table_node g node = Ret tn ∧
         let sn := get_attr_value tn "shared_name" in
         (sn = PNone ∧ fmt = LookupTableFind.msg_shared_name ∧ args = [who])
         ∨ (sn ≠ PNone ∧ py_in sn tables = Ret false
            ∧ fmt = LookupTableFind.msg_not_found ∧ args = [sn; who])
         ∨ (∃ dn, py_in sn tables = Ret true ∧ input_node g node 2 = Ret dn
                  ∧ is_const dn = false
                  ∧ fmt = LookupTableFind.msg_default ∧ args = [])
         ∨ (∃ dn d out0 in1, py_in sn tables = Ret true
              ∧ input_node g node 2 = Ret dn ∧ get_tensor_value dn = Ret d
              ∧ output node !! 0 = Some out0 ∧ input node !! 1 = Some in1
              ∧ ¬ (get_dtype g out0 = Some INT64
                   ∧ get_dtype g in1 = Some STRING)
              ∧ fmt = LookupTableFind.msg_dtype ∧ args = []))
  ∧ (∀ g' fmt args,
       LookupTableSize.version_1 node tables g
         = (g', Raise (MakeSureFailure fmt args)) →
       g' = g ∧
       ∃ tn, find_table_node g node = Ret tn ∧
         let sn := get_attr_value tn "shared_name" in
         (sn = PNone ∧ fmt = LookupTableFind.msg_shared_name ∧ args = [who])
         ∨ (sn ≠ PNone ∧ py_in sn tables = Ret false
            ∧ fmt = LookupTableFind.msg_not_found ∧ args = [sn; who])).
Proof.
  intros who. split_and!.
  - intros tn Htn sn. split_and!.
    + intros Hsn e. split_and!.
      * exact (bind_raise_run _ _ _ _ _
                 (find_checks_shared_name _ _ tables _ Htn Hsn)).
      * exact (bind_raise_run _ _ _ _ _
                 (size_checks_shared_name _ _ tables _ Htn Hsn)).
      * eexists _, _. split; [done|]. apply list_elem_of_here.
    + intros Hsn Hin e. split_and!.
      * exact (bind_raise_run _ _ _ _ _
                 (find_checks_not_found _ _ _ _ Htn Hsn Hin)).
      * exact (bind_raise_run _ _ _ _ _
                 (size_checks_not_found _ _ _ _ Htn Hsn Hin)).
      * eexists _, _. split; [done|]. apply list_elem_of_further, list_elem_of_here.
    + intros Hin dn Hdn Hc.
      exact (bind_raise_run _ _ _ _ _
               (find_checks_default _ _ _ _ _ Htn Hin Hdn Hc)).
    + intros Hin dn d out0 in1 Hdn Hd Hout Hin1 Hbad.
      exact (bind_raise_run _ _ _ _ _
               (find_checks_dtype _ _ _ _ _ _ _ _
                  Htn Hin Hdn Hd Hout Hin1 Hbad)).
  - intros g' fmt args H.
    apply find_version_8_MakeSure in H as [-> H]. split; [done|].
    by apply find_checks_MakeSure in H.
  - intros g' fmt args H.
    apply size_version_1_MakeSure in H as [-> H]. split; [done|].
    by apply size_checks_MakeSure in H.
Qed.

Lemma lookup_precondition_errors_witness :
  LookupTableFind.version_8 ex_find ∅ (ex_graph_const "b")
  = (ex_graph_const "b",
     Raise (MakeSureFailure "Initialized table %s for node %s not found."
              [PScalar (SStr "vocab"); PScalar (SStr "find")]))
  ∧ LookupTableFind.version_8 ex_find ex_tables ex_graph_default_fed
  = (ex_graph_default_fed,
     Raise (MakeSureFailure "Default value of table lookup must be const." []))
  ∧ LookupTableFind.version_8 ex_find ex_tables ex_graph_float
  = (ex_graph_float,
     Raise (MakeSureFailure
              "Only lookup tables of type string->int64 are currently supported."
              [])).
Proof.
  destruct (lookup_precondition_errors (ex_graph_const "b") ex_find ∅)
    as (Hfwd & _).
  destruct (Hfwd ex_table eq_refl) as (_ & Hnf & _).
  destruct (lookup_precondition_errors ex_graph_default_fed ex_find ex_tables)
    as (Hfwd' & _).
  destruct (Hfwd' ex_table eq_refl) as (_ & _ & Hdef & _).
  destruct (lookup_precondition_errors ex_graph_float ex_find ex_tables)
    as (Hfwd'' & _).
  destruct (Hfwd'' ex_table eq_refl) as (_ & _ & _ & Hty).
  split_and!.
  - apply Hnf; [discriminate | reflexivity].
  - apply (Hdef eq_refl (ex_placeholder "default")); reflexivity.
  - apply (Hty eq_refl (ex_const "default" (SInt 0)) (PScalar (SInt 0))
             "find:0" "key:0"); try reflexivity.
    intros [Hd _]. vm_compute in Hd. discriminate.
Defined.

(** Not every precondition error names the node, and the three conditions
    above are not the only ones.  With a default input that is not constant
    the error raised does not name the node.  With an output annotated as
    float the shared name is there, the table is found and the default is
    constant, and a [make_sure] error is raised all the same. *)
Lemma lookup_error_without_node_name :
  (find_table_node ex_graph_default_fed ex_find = Ret ex_table
   ∧ input_node ex_graph_default_fed ex_find 2 = Ret (ex_placeholder "default")
   ∧ is_const (ex_placeholder "default") = false
   ∧ ∃ e, LookupTableFind.version_8 ex_find ex_tables ex_graph_default_fed
            = (ex_graph_default_fed, Raise e)
          ∧ ¬ names_node e ex_find)
  ∧ (find_table_node ex_graph_float ex_find = Ret ex_table
     ∧ get_attr_value ex_table "shared_name" = PScalar (SStr "vocab")
     ∧ py_in (PScalar (SStr "vocab")) ex_tables = Ret true
     ∧ input_node ex_graph_float ex_find 2 = Ret (ex_const "default" (SInt 0))
     ∧ is_const (ex_const "default" (SInt 0)) = true
     ∧ LookupTableFind.version_8 ex_find ex_tables ex_graph_float
       = (ex_graph_float,
          Raise (MakeSureFailure LookupTableFind.msg_dtype []))).
Proof.
  split.
  - split_and!; [reflexivity..|].
    eexists. split; [vm_compute; reflexivity|].
    intros (fmt & args & [= <- <-] & Hin). by apply not_elem_of_nil in Hin.
  - split_and!; vm_compute; reflexivity.
Qed.

(** ** The element-type guard *)

Lemma find_version_8_Ret node tables g g' :
  LookupTableFind.version_8 node tables g = (g', Ret ()) →
  ∃ c, LookupTableFind.checks node tables g = (g, Ret c).
Proof.
  unfold LookupTableFind.version_8.
  pose proof (find_checks_graph node tables g) as Hg.
  unfold mbind, M_bind, bind.
  destruct (LookupTableFind.checks node tables g) as [g0 [c|e]];
    simpl in Hg; subst g0; [eauto | done].
Qed.



(** ** BroadcastOp *)

Lemma swap_inputs_run node in0 in1 g :
  input node !! 0 = Some in0 → input node !! 1 = Some in1 →
  ∃ g', BroadcastOp.swap_inputs node g = (g', Ret (swapped in0 in1 node)).
Proof.
  intros H0 H1. unfold BroadcastOp.swap_inputs, store_node, py_index.
  unfold_M. rewrite H0, H1. eauto.
Qed.

(** Outside the target RS4 the shapes the test sees are the shapes of the
    graph; for the target RS4 they are what [rs4_shape] makes of them. *)
Lemma maybe_swap_run RS4 dim1 node s0 s1 in0 in1 g :
  input node !! 0 = Some in0 → input node !! 1 = Some in1 →
  (is_target g RS4 = false →
   ∃ g', BroadcastOp.maybe_swap RS4 dim1 node s0 s1 g =
         (g', Ret (if BroadcastOp.swap_test node s0 s1
                   then swapped in0 in1 node else node)))
  ∧ (is_target g RS4 = true →
     ∀ s0' s1',
       BroadcastOp.rs4_shape dim1 g node 0 s0 = Ret s0' →
       BroadcastOp.rs4_shape dim1 g node 1 s1 = Ret s1' →
       ∃ g', BroadcastOp.maybe_swap RS4 dim1 node s0 s1 g =
             (g', Ret (if BroadcastOp.swap_test node s0' s1'
                       then swapped in0 in1 node else node))).
Proof.
  intros H0 H1. split.
  - intros Ht. unfold BroadcastOp.maybe_swap, BroadcastOp.rs4_workaround.
    unfold_M. rewrite Ht.
    destruct (BroadcastOp.swap_test node s0 s1); [|eauto].
    by apply swap_inputs_run.
  - intros Ht s0' s1' Hs0 Hs1.
    unfold BroadcastOp.maybe_swap, BroadcastOp.rs4_workaround.
    unfold_M. rewrite Ht, Hs0, Hs1.
    destruct (BroadcastOp.swap_test node s0' s1'); [|eauto].
    by apply swap_inputs_run.
Qed.

(** Whatever the target, a handler that returns has exchanged the inputs
    or left the node's inputs alone, and it exchanges them only for 'Mul'
    and 'Add'. *)
Lemma maybe_swap_Ret RS4 dim1 node s0 s1 g g' node' :
  BroadcastOp.maybe_swap RS4 dim1 node s0 s1 g = (g', Ret node') →
  node' = node
  ∨ (type node ∈ ["Mul"; "Add"]
     ∧ ∃ in0 in1, input node !! 0 = Some in0 ∧ input node !! 1 = Some in1
                  ∧ node' = swapped in0 in1 node).
Proof.
  unfold BroadcastOp.maybe_swap, BroadcastOp.rs4_workaround,
    BroadcastOp.swap_inputs, store_node, py_index.
  unfold_M. intros H.
  run_cases; try (by left);
    right;
    match goal with
    | Ht : BroadcastOp.swap_test _ _ _ = true |- _ =>
        unfold BroadcastOp.swap_test in Ht; bool_hyps
    end; eauto 10.
Qed.

(** C10, as the handlers have it.  [version_4] sets "broadcast" to 1 when
    the shapes of the two inputs differ and to 0 when they are equal.  Both
    versions exchange the two inputs only for 'Mul' and 'Add' and only when
    the shapes differ.  Outside the target RS4 they exchange them exactly
    when moreover both shapes are known and not empty and the first is
    shorter than the second.  For the target RS4 the same test is made
    after an empty or unknown shape of a constant input has been replaced
    by [scalar_to_dim1()]. *)
Theorem broadcast_swap (RS4 : string) (dim1 : Node → option (list Z))
    (g : Graph) (node : Node) (in0 in1 : string) :
  input node !! 0 = Some in0 →
  input node !! 1 = Some in1 →
  let shape0 := get_shape g in0 in
  let shape1 := get_shape g in1 in
  let flag := PScalar (SInt (if decide (shape0 = shape1) then 0 else 1)) in
  let node4 := with_attr "broadcast" flag node in
  (* the broadcast attribute *)
  (∀ g' node', BroadcastOp.version_4 RS4 dim1 node g = (g', Ret node') →
     attr node' !! "broadcast" = Some flag)
  (* only Mul and Add, only for different shapes *)
  ∧ (∀ g' node', BroadcastOp.version_4 RS4 dim1 node g = (g', Ret node') →
       input node' ≠ input node →
       type node ∈ ["Mul"; "Add"] ∧ shape0 ≠ shape1
       ∧ node' = swapped in0 in1 node4)
  ∧ (∀ g' node', BroadcastOp.version_7 RS4 dim1 node g = (g', Ret node') →
       input node' ≠ input node →
       type node ∈ ["Mul"; "Add"] ∧ shape0 ≠ shape1
       ∧ node' = swapped in0 in1 node)
  (* outside RS4 *)
  ∧ (is_target g RS4 = false →
       (∃ g', BroadcastOp.version_4 RS4 dim1 node g =
              (g', Ret (if BroadcastOp.swap_test node shape0 shape1
                        then swapped in0 in1 node4 else node4)))
       ∧ (∃ g', BroadcastOp.version_7 RS4 dim1 node g =
                (g', Ret (if BroadcastOp.swap_test node shape0 shape1
                          then swapped in0 in1 node else node))))
  (* for RS4 *)
  ∧ (is_target g RS4 = true → shape0 ≠ shape1 →
       ∀ s0' s1',
         BroadcastOp.rs4_shape dim1 g node 0 shape0 = Ret s0' →
         BroadcastOp.rs4_shape dim1 g node 1 shape1 = Ret s1' →
         ∃ g', BroadcastOp.version_7 RS4 dim1 node g =
               (g', Ret (if BroadcastOp.swap_test node s0' s1'
                         then swapped in0 in1 node else node)))
  ∧ (is_target g RS4 = true → shape0 ≠ shape1 →
       let node1 := with_attr "broadcast" (PScalar (SInt 1)) node in
       let g1 := (set_attr node "broadcast" (PScalar (SInt 1)) g).1 in
       ∀ s0' s1',
         BroadcastOp.rs4_shape dim1 g1 node1 0 shape0 = Ret s0' →
         BroadcastOp.rs4_shape dim1 g1 node1 1 shape1 = Ret s1' →
         ∃ g', BroadcastOp.version_4 RS4 dim1 node g =
               (g', Ret (if BroadcastOp.swap_test node s0' s1'
                         then swapped in0 in1 node1 else node1))).
Proof.
  intros H0 H1 shape0 shape1 flag node4.
  assert (Hsame : ∀ n, BroadcastOp.swap_test n shape0 shape1 = true →
                       shape0 ≠ shape1).
  { intros n Ht E. unfold BroadcastOp.swap_test in Ht. bool_hyps.
    rewrite E in *. lia. }
  split_and!.
  - intros g' node'. unfold BroadcastOp.version_4, py_index, flag.
    unfold_M. rewrite H0, H1. fold shape0 shape1.
    destruct (decide (shape0 = shape1)) as [E|E].
    + rewrite bool_decide_eq_false_2 by (by intros ?).
      unfold set_attr, store_node. unfold_M. intros [= <- <-].
      simpl. by rewrite lookup_insert_eq.
    + rewrite bool_decide_eq_true_2 by done.
      unfold set_attr, store_node. unfold_M. simpl.
      intros H. apply maybe_swap_Ret in H as [->|(_ & a & b & _ & _ & ->)];
        simpl; by rewrite lookup_insert_eq.
  - intros g' node'. unfold BroadcastOp.version_4, py_index.
    unfold_M. rewrite H0, H1. fold shape0 shape1. unfold node4, flag.
    destruct (decide (shape0 = shape1)) as [E|E].
    + rewrite bool_decide_eq_false_2 by (by intros ?).
      unfold set_attr, store_node. unfold_M. by intros [= <- <-].
    + rewrite bool_decide_eq_true_2 by done.
      unfold set_attr, store_node. unfold_M. simpl.
      intros H. apply maybe_swap_Ret in H as [->|(Hty & a & b & Ha & Hb & ->)];
        [done|].
      simpl in *. intros _. by simplify_eq.
  - intros g' node'. unfold BroadcastOp.version_7, py_index.
    unfold_M. rewrite H0, H1. fold shape0 shape1.
    destruct (decide (shape0 = shape1)) as [E|E].
    + rewrite bool_decide_eq_false_2 by (by intros ?). by intros [= <- <-].
    + rewrite bool_decide_eq_true_2 by done.
      intros H. apply maybe_swap_Ret in H as [->|(Hty & a & b & Ha & Hb & ->)];
        [done|].
      intros _. by simplify_eq.
  - intros Ht. split.
    + unfold BroadcastOp.version_4, py_index.
      unfold_M. rewrite H0, H1. fold shape0 shape1. unfold node4, flag.
      destruct (decide (shape0 = shape1)) as [E|E].
      * rewrite bool_decide_eq_false_2 by (by intros ?).
        destruct (BroadcastOp.swap_test node shape0 shape1) eqn:Hsw;
          [by apply Hsame in Hsw|].
        unfold set_attr, store_node. unfold_M. eauto.
      * rewrite bool_decide_eq_true_2 by done.
        unfold set_attr, store_node. unfold_M. simpl.
        match goal with
        | |- ∃ g', BroadcastOp.maybe_swap _ _ ?n _ _ ?gg = _ =>
            destruct (maybe_swap_run RS4 dim1 n shape0 shape1 in0 in1 gg H0 H1)
              as [Hrun _]; exact (Hrun Ht)
        end.
    + unfold BroadcastOp.version_7, py_index.
      unfold_M. rewrite H0, H1. fold shape0 shape1.
      destruct (decide (shape0 = shape1)) as [E|E].
      * rewrite bool_decide_eq_false_2 by (by intros ?).
        destruct (BroadcastOp.swap_test node shape0 shape1) eqn:Hsw;
          [by apply Hsame in Hsw|].
        eauto.
      * rewrite bool_decide_eq_true_2 by done.
        destruct (maybe_swap_run RS4 dim1 node shape0 shape1 in0 in1 g H0 H1)
          as [Hrun _]; exact (Hrun Ht).
  - intros Ht Hne s0' s1' Hs0 Hs1.
    unfold BroadcastOp.version_7, py_index.
    unfold_M. rewrite H0, H1. fold shape0 shape1.
    rewrite bool_decide_eq_true_2 by done.
    destruct (maybe_swap_run RS4 dim1 node shape0 shape1 in0 in1 g H0 H1)
      as [_ Hrun]; exact (Hrun Ht _ _ Hs0 Hs1).
  - intros Ht Hne node1 g1 s0' s1' Hs0 Hs1.
    unfold BroadcastOp.version_4, py_index.
    unfold_M. rewrite H0, H1. fold shape0 shape1.
    rewrite bool_decide_eq_true_2 by done.
    unfold set_attr, store_node. unfold_M.
    destruct (maybe_swap_run RS4 dim1 node1 shape0 shape1 in0 in1 g1 H0 H1)
      as [_ Hrun]; exact (Hrun Ht _ _ Hs0 Hs1).
Qed.

Lemma broadcast_swap_witness :
  (BroadcastOp.version_7 "rs4" ex_scalar_to_dim1 ex_mul
     (ex_graph_mul [3%Z] [])).2
  = Ret (mkNode "mul" "Mul" "" ["x:0"; "c:0"] ["mul:0"] ∅).
Proof.
  destruct (broadcast_swap "rs4" ex_scalar_to_dim1 (ex_graph_mul [3%Z] [])
              ex_mul "c:0" "x:0" eq_refl eq_refl) as (_ & _ & _ & Hplain & _).
  destruct (Hplain eq_refl) as [_ [g' Hg']].
  rewrite Hg'. reflexivity.
Defined.

(** For the target RS4 the inputs are exchanged although a shape is
    empty: the first input is a scalar constant, its shape is known and
    empty, and both versions exchange the inputs. *)
Lemma broadcast_swap_rs4_scalar :
  let g := ex_graph_mul [] ["rs4"] in
  get_shape g "c:0" = Some []
  ∧ (BroadcastOp.version_7 "rs4" ex_scalar_to_dim1 ex_mul g).2
    = Ret (mkNode "mul" "Mul" "" ["x:0"; "c:0"] ["mul:0"] ∅)
  ∧ input <$> get_node_by_name
                (BroadcastOp.version_4 "rs4" ex_scalar_to_dim1 ex_mul g).1 "mul"
    = Some ["x:0"; "c:0"].
Proof. split_and!; vm_compute; reflexivity. Qed.

(** ** Version dispatch *)

Section DispatchProperties.

Context {H : Type}.
Implicit Types (entries : list (nat * H)) (e : nat * H).

Lemma version_ordered_cons e entries :
  Registry.version_ordered (e :: entries) →
  Registry.version_ordered entries ∧ ∀ e', e' ∈ entries → e.1 < e'.1.
Proof.
  intros Hs. apply StronglySorted_inv in Hs as [Hs Hall].
  split; [done|]. intros e' He'.
  rewrite List.Forall_forall in Hall. apply Hall. by apply list_elem_of_In.
Qed.

(** In a version-ordered list an entry is known by its version. *)
Lemma version_ordered_inj entries e1 e2 :
  Registry.version_ordered entries →
  e1 ∈ entries → e2 ∈ entries → e1.1 = e2.1 → e1 = e2.
Proof.
  induction entries as [|e entries IH]; intros Hs H1 H2 Heq.
  - by apply not_elem_of_nil in H1.
  - apply version_ordered_cons in Hs as [Hs Hlt].
    apply elem_of_cons in H1 as [->|H1]; apply elem_of_cons in H2 as [->|H2].
    + done.
    + apply Hlt in H2. lia.
    + apply Hlt in H1. lia.
    + by apply IH.
Qed.

(** The search returns [best] when every entry asks for a later version,
    and otherwise the entry with the greatest version among those that do
    not. *)
Lemma resolve_ordered entries version best :
  Registry.version_ordered entries →
  ((∀ e, e ∈ entries → version < e.1)
   ∧ Registry.resolve entries version best = best)
  ∨ (∃ e, Registry.resolve entries version best = Some e
          ∧ e ∈ entries ∧ e.1 ≤ version
          ∧ ∀ e', e' ∈ entries → e'.1 ≤ version → e'.1 ≤ e.1).
Proof.
  revert best. induction entries as [|e entries IH]; intros best Hs.
  - left. split; [|done]. intros e He. by apply not_elem_of_nil in He.
  - apply version_ordered_cons in Hs as [Hs Hlt]. simpl.
    destruct (decide (e.1 ≤ version)) as [Hle|Hgt].
    + right. destruct (IH (Some e) Hs) as [[Hall Hr]|(e0 & Hr & He0 & Hle0 & Hmax)].
      * exists e. split_and!; [done | by left | done |].
        intros e' [->|He']%elem_of_cons Hle'; [done|].
        apply Hall in He'. lia.
      * exists e0. split_and!; [done | by right | done |].
        intros e' [->|He']%elem_of_cons Hle'; [|by apply Hmax].
        apply Hlt in He0. lia.
    + left. split; [|done].
      intros e' [->|He']%elem_of_cons; [lia|]. apply Hlt in He'. lia.
Qed.

(** C2. For an operation kind with a version-ordered handler list,
    dispatch returns an entry exactly when it is the registered entry with
    the greatest minimum version that does not exceed the requested
    version; it returns nothing, and the node is unconverted, exactly when
    every entry asks for a later version, and also when the kind has no
    registration. *)
Theorem dispatch_greatest_version (registry : @Registry.Registration H)
    (K : string) (version : nat) :
  (registry !! K = None → Registry.dispatch registry K version = None)
  ∧ (∀ entries,
       registry !! K = Some entries →
       Registry.version_ordered entries →
       (∀ e, Registry.dispatch registry K version = Some e ↔
             e ∈ entries ∧ e.1 ≤ version
             ∧ ∀ e', e' ∈ entries → e'.1 ≤ version → e'.1 ≤ e.1)
       ∧ (Registry.dispatch registry K version = None ↔
          ∀ e, e ∈ entries → version < e.1)).
Proof.
  unfold Registry.dispatch. split; [by intros ->|].
  intros entries -> Hs.
  destruct (resolve_ordered entries version None Hs)
    as [[Hall Hr]|(e0 & Hr & He0 & Hle0 & Hmax)]; rewrite Hr.
  - split.
    + intros e. split; [done|]. intros (He & Hle & _).
      apply Hall in He. lia.
    + done.
  - split.
    + intros e. split.
      * by intros [= <-].
      * intros (He & Hle & Hmax'). f_equal.
        apply (version_ordered_inj entries); [done..|].
        specialize (Hmax _ He Hle). specialize (Hmax' _ He0 Hle0). lia.
    + split; [done|]. intros Hall. apply Hall in He0. lia.
Qed.

End DispatchProperties.

(** The example of the specification: registered at the minimum versions 4,
    7 and 9, requested version 8, the handler of version 7 is selected. *)
Lemma dispatch_greatest_version_witness :
  Registry.dispatch ex_registry "Add" 8 = Some (7, "version_7")
  ∧ Registry.dispatch ex_registry "Add" 3 = None
  ∧ Registry.dispatch ex_registry "Mul" 8 = None.
Proof.
  assert (Hs : Registry.version_ordered
                 [(4, "version_4"); (7, "version_7"); (9, "version_9")]).
  { repeat constructor; simpl; lia. }
  split_and!.
  - destruct (dispatch_greatest_version ex_registry "Add" 8) as [_ Hreg].
    destruct (Hreg _ eq_refl Hs) as [Hsome _].
    apply Hsome. split_and!; [apply list_elem_of_further, list_elem_of_here | simpl; lia |].
    intros e' He' Hle. simpl.
    repeat (apply elem_of_cons in He' as [->|He']); simpl in *; try lia.
    by apply not_elem_of_nil in He'.
  - destruct (dispatch_greatest_version ex_registry "Add" 3) as [_ Hreg].
    destruct (Hreg _ eq_refl Hs) as [_ Hnone].
    apply Hnone. intros e He.
    repeat (apply elem_of_cons in He as [->|He]); simpl; try lia.
    by apply not_elem_of_nil in He.
  - destruct (dispatch_greatest_version ex_registry "Mul" 8) as [Hnone _].
    by apply Hnone.
Defined.

(** ** The common conversion entry point *)

Section ConvertProperties.

Context {GraphDef TfGraph OnnxGraph ModelProto : Type}.
Context {ConstValues Storage CustomOps Rewriter ExtraOpset : Type}.
Context {ShapeOverride Renames : Type}.

Variable compress_graph_def : GraphDef → ConstValues.
Variable ExternalTensorStorage : Storage.
Variable import_graph_def : GraphDef → TfGraph.
Variable process_tf_graph :
  TfGraph →
  @Convert.ProcessArgs ConstValues CustomOps ExtraOpset ShapeOverride Renames →
  Res OnnxGraph.
Variable optimize_graph : OnnxGraph → OnnxGraph.
Variable make_model : OnnxGraph → string → option Storage → ModelProto.

Implicit Types
  a : @Convert.CommonArgs GraphDef CustomOps Rewriter ExtraOpset
        ShapeOverride Renames.

(** [_convert_common] calls the driver with [continue_on_error=True]
    whatever its own parameter is, so the parameter changes nothing. *)
Lemma convert_common_continue_on_error a (b : bool) :
  Convert.kw_continue_on_error (Convert.forwarded compress_graph_def a) = true
  ∧ Convert._convert_common compress_graph_def ExternalTensorStorage
      import_graph_def process_tf_graph optimize_graph make_model
      (Convert.set_continue_on_error b a)
    = Convert._convert_common compress_graph_def ExternalTensorStorage
        import_graph_def process_tf_graph optimize_graph make_model a.
Proof. by destruct a. Qed.

(** C4. Two calls of [_convert_common] that differ only in
    [ignore_default] hand the same arguments to [process_tf_graph], with
    [ignore_default=False] among them, whatever the driver, the optimizer
    and the serialization are; and they write the same files and return
    the same model or raise the same exception. *)
Theorem ignore_default_overridden a (v w : PyVal) :
  Convert.kw_ignore_default
    (Convert.forwarded compress_graph_def (Convert.set_ignore_default v a))
  = PBool false
  ∧ Convert.forwarded compress_graph_def (Convert.set_ignore_default v a)
    = Convert.forwarded compress_graph_def (Convert.set_ignore_default w a)
  ∧ Convert._convert_common compress_graph_def ExternalTensorStorage
      import_graph_def process_tf_graph optimize_graph make_model
      (Convert.set_ignore_default v a)
    = Convert._convert_common compress_graph_def ExternalTensorStorage
        import_graph_def process_tf_graph optimize_graph make_model
        (Convert.set_ignore_default w a).
Proof. by destruct a. Qed.

End ConvertProperties.

(** C3.  The driver aborts on the first operation without handler when it
    is told not to continue, and collects the node otherwise; but
    [_convert_common] called with [continue_on_error=False] tells it to
    continue: the call does not abort, it returns the model with the node
    "foo" in its original form and reported as unconverted, exactly as the
    call with [continue_on_error=True] does. *)
Theorem continue_on_error_overridden :
  process_tf_graph onnx_ml_registry 9 ex_graph_unsupported (ex_kw false)
  = Raise (UnsupportedOp "foo")
  ∧ Convert.forwarded (λ _ : Graph, ()) (ex_args false) = ex_kw true
  ∧ (∃ g', (ex_convert_common (ex_args false)).2 = Ret (g', ["foo"], None)
           ∧ get_node_by_name g' "foo" = Some (rewire "size:0" "size" ex_foo))
  ∧ ex_convert_common (ex_args false) = ex_convert_common (ex_args true).
Proof.
  split_and!.
  - vm_compute. reflexivity.
  - reflexivity.
  - eexists. split; vm_compute; reflexivity.
  - reflexivity.
Qed.

(** ** What the lookup handlers leave alone *)

Lemma walk_identity_elem g fuel m r :
  m ∈ nodes g → walk_identity fuel g m = Ret r → r ∈ nodes g.
Proof.
  revert m. induction fuel as [|fuel IH]; intros m Hm; simpl.
  - destruct (decide _); [done|]. by intros [= <-].
  - destruct (decide _); [|by intros [= <-]].
    destruct (input_node g m 0) as [p|] eqn:Hp; [|done].
    apply IH. by eapply input_node_output.
Qed.

(** The table node is a node of the graph. *)
Lemma find_table_node_elem g node tn :
  find_table_node g node = Ret tn → tn ∈ nodes g.
Proof.
  unfold find_table_node.
  destruct (input_node g node 0) as [m|] eqn:Hm; [|done].
  apply walk_identity_elem. by eapply input_node_output.
Qed.

Lemma find_convert_inv node c g g1 :
  LookupTableFind.convert node c g = (g1, Ret ()) →
  ∃ r shapes,
    g1 = make_node_pure r shapes [LookupTableFind.dtype c]
           (remove_node_pure (name node) g)
    ∧ name r = name node ∧ output r = output node
    ∧ (type r = "Const" ∧ shapes = [Some []]
       ∨ type r = "CategoryMapper" ∧ shapes = [LookupTableFind.shape c]).
Proof.
  unfold LookupTableFind.convert, make_node, remove_node, py_index.
  unfold_M. intros H. run_cases; eexists _, _; split_and!; eauto.
Qed.

Lemma find_version_8_inv node tables g g' :
  LookupTableFind.version_8 node tables g = (g', Ret ()) →
  ∃ c g1 out0,
    LookupTableFind.checks node tables g = (g, Ret c)
    ∧ LookupTableFind.convert node c g = (g1, Ret ())
    ∧ output (LookupTableFind.table_node c) !! 0 = Some out0
    ∧ g' = pruned g1 (LookupTableFind.table_node c) out0.
Proof.
  intros H. destruct (find_version_8_Ret _ _ _ _ H) as [c Hc].
  destruct (find_table_node_output g node (LookupTableFind.table_node c))
    as [out0 Hout]; [by eapply find_checks_table_node|].
  unfold LookupTableFind.version_8, LookupTableFind.rewrite in H.
  rewrite (bind_ret_run _ _ _ _ _ Hc) in H.
  unfold mbind, M_bind, bind in H.
  destruct (LookupTableFind.convert node c g) as [g1 [[]|e]] eqn:Hconv; [|done].
  rewrite (prune_table_node_run _ _ _ Hout) in H.
  exists c, g1, out0. split_and!; try done. congruence.
Qed.

Lemma size_version_1_inv node tables g g' :
  LookupTableSize.version_1 node tables g = (g', Ret ()) →
  ∃ tn keys g1 out0,
    LookupTableSize.checks node tables g = (g, Ret (tn, keys))
    ∧ LookupTableSize.convert node keys g = (g1, Ret ())
    ∧ output tn !! 0 = Some out0
    ∧ g' = pruned g1 tn out0.
Proof.
  intros H. unfold LookupTableSize.version_1 in H.
  pose proof (size_checks_graph node tables g) as Hg.
  unfold mbind, M_bind, bind in H.
  destruct (LookupTableSize.checks node tables g) as [g0 [[tn keys]|e]] eqn:Hc;
    simpl in Hg; subst g0; [|done].
  destruct (find_table_node_output g node tn) as [out0 Hout];
    [exact (size_checks_table_node _ _ _ _ _ _ Hc)|].
  unfold LookupTableSize.rewrite in H.
  unfold mbind, M_bind, bind in H.
  destruct (LookupTableSize.convert node keys g) as [g1 [[]|e]] eqn:Hconv; [|done].
  rewrite (prune_table_node_run _ _ _ Hout) in H.
  exists tn, keys, g1, out0. split_and!; try done. congruence.
Qed.

Lemma size_convert_inv node keys g g1 :
  LookupTableSize.convert node keys g = (g1, Ret ()) →
  ∃ old, output node !! 0 = Some old
    ∧ g1 = replace_all_inputs_pure old (name node)
             (make_node_pure (size_const node keys) [Some []] [Some INT64]
                (remove_node_pure (name node) g)).
Proof.
  unfold LookupTableSize.convert, make_const, make_node, remove_node,
    replace_all_inputs, py_index.
  unfold_M. simpl. intros H. run_cases. eauto.
Qed.

(** X1. When the LookupTableFindV2 handler returns, the graph differs from
    the one it started with in three places only: the lookup node is
    replaced by one new node of the same name and outputs, which is in the
    graph (unless the table node bears the name of the lookup node), the
    nodes named like the table node may be gone, and every other node is
    there as it was; nothing else is added. *)
Theorem lookup_find_frame (g g' : Graph) (node : Node) (tables : Tables) :
  LookupTableFind.version_8 node tables g = (g', Ret ()) →
  ∃ tn r,
    find_table_node g node = Ret tn
    ∧ name r = name node ∧ output r = output node
    ∧ type r ∈ ["Const"; "CategoryMapper"]
    ∧ (name tn ≠ name node → r ∈ nodes g')
    ∧ (∀ n, n ∈ nodes g → name n ≠ name node → name n ≠ name tn →
            n ∈ nodes g')
    ∧ (∀ n, n ∈ nodes g' → n = r ∨ (n ∈ nodes g ∧ name n ≠ name node))
    ∧ targets g' = targets g.
Proof.
  intros (c & g1 & out0 & Hchk & Hconv & Hout & ->)%find_version_8_inv.
  apply find_convert_inv in Hconv as (r & shapes & -> & Hnm & Houtr & Hty).
  exists (LookupTableFind.table_node c), r. split_and!.
  - by eapply find_checks_table_node.
  - done.
  - done.
  - destruct Hty as [[-> _]|[-> _]]; set_solver.
  - intros Hne. apply elem_of_pruned_nodes; [|congruence].
    simpl. apply elem_of_app. right. by apply list_elem_of_singleton.
  - intros n Hn Hne Hnt. apply elem_of_pruned_nodes; [|done].
    simpl. apply elem_of_app. left. by apply list_elem_of_filter.
  - intros n Hn%pruned_nodes_subseteq. simpl in Hn.
    apply elem_of_app in Hn as [Hn|Hn].
    + right. by apply list_elem_of_filter in Hn as [? ?].
    + left. by apply list_elem_of_singleton in Hn.
  - unfold pruned. by destruct (decide _).
Qed.

Lemma lookup_find_frame_witness :
  ex_out "out" "find:0"
    ∈ nodes (LookupTableFind.version_8 ex_find ex_tables (ex_graph_const "b")).1.
Proof.
  destruct (LookupTableFind.version_8 ex_find ex_tables (ex_graph_const "b"))
    as [g' r] eqn:Hrun.
  assert (r = Ret ()) as -> by (by vm_compute in Hrun; injection Hrun as _ <-).
  destruct (lookup_find_frame _ _ _ _ Hrun)
    as (tn & c & Htn & _ & _ & _ & _ & Hkeep & _).
  simpl. apply Hkeep.
  - vm_compute. do 5 right. by left.
  - discriminate.
  - vm_compute in Htn. injection Htn as <-. discriminate.
Defined.

Lemma size_checks_Ret_table g node tables g' tn keys :
  LookupTableSize.checks node tables g = (g', Ret (tn, keys)) →
  ∃ s vs, get_attr_value tn "shared_name" = PScalar (SStr s)
          ∧ tables !! s = Some (keys, vs).
Proof.
  unfold LookupTableSize.checks, py_in, py_getitem. unfold_M. intros H.
  run_cases. eauto.
Qed.

(** X2. When the LookupTableSizeV2 handler returns, every node other than
    the size node and the table node is still there, with each input that
    was the old size output replaced by the constant's output and nothing
    else changed; the only other node is the new constant, which holds the
    number of keys of the table the shared name stands for and is in the
    graph (unless the table node bears the name of the size node). *)
Theorem lookup_size_frame (g g' : Graph) (node : Node) (tables : Tables) :
  LookupTableSize.version_1 node tables g = (g', Ret ()) →
  ∃ tn s keys vs old,
    find_table_node g node = Ret tn
    ∧ get_attr_value tn "shared_name" = PScalar (SStr s)
    ∧ tables !! s = Some (keys, vs)
    ∧ output node !! 0 = Some old
    ∧ (name tn ≠ name node → size_const node keys ∈ nodes g')
    ∧ (∀ n, n ∈ nodes g → name n ≠ name node → name n ≠ name tn →
            rewire old (name node) n ∈ nodes g')
    ∧ (∀ n, old ∉ input n → rewire old (name node) n = n)
    ∧ (∀ n, n ∈ nodes g' →
            n = size_const node keys
            ∨ ∃ n0, n0 ∈ nodes g ∧ name n0 ≠ name node
                    ∧ n = rewire old (name node) n0)
    ∧ targets g' = targets g.
Proof.
  intros (tn & keys & g1 & out0 & Hchk & Hconv & Hout & ->)%size_version_1_inv.
  apply size_convert_inv in Hconv as (old & Hold & ->).
  destruct (size_checks_Ret_table _ _ _ _ _ _ Hchk) as (s & vs & Hsn & Htab).
  exists tn, s, keys, vs, old. split_and!.
  - exact (size_checks_table_node _ _ _ _ _ _ Hchk).
  - done.
  - done.
  - done.
  - intros Hne. apply elem_of_pruned_nodes; [|done].
    simpl. rewrite fmap_app. apply elem_of_app. right.
    apply list_elem_of_singleton. done.
  - intros n Hn Hne Hnt. apply elem_of_pruned_nodes; [|done].
    simpl. rewrite fmap_app. apply elem_of_app. left.
    apply list_elem_of_fmap. exists n. split; [done|].
    by apply list_elem_of_filter.
  - intros [nm ty dom inp out att] Hin. unfold rewire. simpl in *. f_equal.
    induction inp as [|t inp IH]; [done|].
    apply not_elem_of_cons in Hin as [Hne Hin].
    rewrite fmap_cons, IH by done. f_equal.
    unfold replace_input. by destruct (decide (t = old)).
  - intros n Hn%pruned_nodes_subseteq. simpl in Hn. rewrite fmap_app in Hn.
    apply elem_of_app in Hn as [Hn|Hn].
    + right. apply list_elem_of_fmap in Hn as (n0 & -> & Hn0).
      apply list_elem_of_filter in Hn0 as [? ?]. eauto.
    + left. by apply list_elem_of_singleton in Hn.
  - unfold pruned. by destruct (decide _).
Qed.

Lemma lookup_size_frame_witness :
  mkNode "out" "Identity" "" ["size"] ["out:0"] ∅
    ∈ nodes (LookupTableSize.version_1 ex_size ex_tables ex_graph_size).1.
Proof.
  destruct (LookupTableSize.version_1 ex_size ex_tables ex_graph_size)
    as [g' r] eqn:Hrun.
  assert (r = Ret ()) as -> by (by vm_compute in Hrun; injection Hrun as _ <-).
  destruct (lookup_size_frame _ _ _ _ Hrun)
    as (tn & s & keys & vs & old & Htn & _ & _ & Hold & _ & Hkeep & _).
  vm_compute in Htn. injection Htn as <-.
  vm_compute in Hold. injection Hold as <-.
  simpl. apply (Hkeep (ex_out "out" "size:0")).
  - vm_compute. do 3 right. by left.
  - discriminate.
  - discriminate.
Defined.

Lemma find_version_8_keeps g g' node tables tn n :
  LookupTableFind.version_8 node tables g = (g', Ret ()) →
  find_table_node g node = Ret tn →
  n ∈ nodes g → name n ≠ name node → name n ≠ name tn → n ∈ nodes g'.
Proof.
  intros (c & g1 & out0 & Hchk & Hconv & Hout & ->)%find_version_8_inv Htn.
  apply find_checks_table_node in Hchk as Htn'.
  assert (LookupTableFind.table_node c = tn) as -> by congruence.
  apply find_convert_inv in Hconv as (r & shapes & -> & _).
  intros Hn Hne Hnt. apply elem_of_pruned_nodes; [|done].
  simpl. apply elem_of_app. left. by apply list_elem_of_filter.
Qed.

Lemma find_version_8_table_consumed g g' node tn p tables tout :
  find_table_node g node = Ret tn →
  output tn !! 0 = Some tout →
  p ∈ nodes g → name p ≠ name node → tout ∈ input p →
  name tn ≠ name node →
  LookupTableFind.version_8 node tables g = (g', Ret ()) →
  tn ∈ nodes g' ∧ p ∈ nodes g'.
Proof.
  intros Htn Htout Hp Hpn Hcons Hne.
  pose proof (find_table_node_elem _ _ _ Htn) as Htng.
  intros (c & g1 & out0 & Hchk & Hconv & Hout & ->)%find_version_8_inv.
  apply find_checks_table_node in Hchk as Htn'.
  assert (LookupTableFind.table_node c = tn) as Hc by congruence.
  rewrite Hc in *. assert (out0 = tout) as -> by congruence.
  apply find_convert_inv in Hconv as (r & shapes & -> & _).
  set (g1 := make_node_pure _ _ _ _).
  assert (Hin : ∀ n, n ∈ nodes g → name n ≠ name node → n ∈ nodes g1).
  { intros n Hn Hnn. simpl. apply elem_of_app. left.
    by apply list_elem_of_filter. }
  destruct (pruned_nodes g1 tn tout) as [_ Hsame].
  rewrite Hsame; [split; by apply Hin|].
  intros Hnil.
  assert (p ∈ find_output_consumers g1 tout)
    by (apply list_elem_of_filter; split; [done | by apply Hin]).
  rewrite Hnil in *. by eapply not_elem_of_nil.
Qed.

(** X3. A table node whose first output has another consumer in the graph
    is not removed by either lookup handler, and neither is that consumer
    (for LookupTableSizeV2 both are there with the old size output replaced
    in their inputs). *)
Theorem table_kept_while_consumed (g g' : Graph) (node tn p : Node)
    (tables : Tables) (tout : string) :
  find_table_node g node = Ret tn →
  output tn !! 0 = Some tout →
  p ∈ nodes g → name p ≠ name node → tout ∈ input p →
  name tn ≠ name node →
  (LookupTableFind.version_8 node tables g = (g', Ret ()) →
   tn ∈ nodes g' ∧ p ∈ nodes g')
  ∧ (LookupTableSize.version_1 node tables g = (g', Ret ()) →
     tout ∉ output node →
     ∃ old, output node !! 0 = Some old
       ∧ rewire old (name node) tn ∈ nodes g'
       ∧ rewire old (name node) p ∈ nodes g'
       ∧ tout ∈ input (rewire old (name node) p)).
Proof.
  intros Htn Htout Hp Hpn Hcons Hne.
  pose proof (find_table_node_elem _ _ _ Htn) as Htng.
  split.
  - by apply (find_version_8_table_consumed g g' node tn p tables tout).
  - intros (tn' & keys & g1 & out0 & Hchk & Hconv & Hout & ->)%size_version_1_inv
      Hfresh.
    pose proof (size_checks_table_node _ _ _ _ _ _ Hchk) as Htn'.
    assert (tn' = tn) as -> by congruence.
    assert (out0 = tout) as -> by congruence.
    apply size_convert_inv in Hconv as (old & Hold & ->).
    assert (Hto : tout ≠ old).
    { intros ->. apply Hfresh. by eapply list_elem_of_lookup_2. }
    set (g1 := replace_all_inputs_pure _ _ _).
    assert (Hin : ∀ n, n ∈ nodes g → name n ≠ name node →
                       rewire old (name node) n ∈ nodes g1).
    { intros n Hn Hnn. simpl. rewrite fmap_app. apply elem_of_app. left.
      apply list_elem_of_fmap. exists n. split; [done|].
      by apply list_elem_of_filter. }
    assert (Hp2 : tout ∈ input (rewire old (name node) p)).
    { simpl. apply list_elem_of_fmap. exists tout. split; [|done].
      unfold replace_input. by destruct (decide (tout = old)). }
    exists old. split; [done|].
    destruct (pruned_nodes g1 tn tout) as [_ Hsame].
    rewrite Hsame; [split_and!; try done; by apply Hin|].
    intros Hnil.
    assert (rewire old (name node) p ∈ find_output_consumers g1 tout)
      by (apply list_elem_of_filter; split; [done | by apply Hin]).
    rewrite Hnil in *. by eapply not_elem_of_nil.
Qed.

Lemma table_kept_while_consumed_witness :
  let g' := (LookupTableSize.version_1 ex_size ex_tables ex_graph_size).1 in
  ex_table ∈ nodes g' ∧ ex_ident ∈ nodes g'.
Proof.
  destruct (LookupTableSize.version_1 ex_size ex_tables ex_graph_size)
    as [g' r] eqn:Hrun.
  assert (r = Ret ()) as -> by (by vm_compute in Hrun; injection Hrun as _ <-).
  destruct (table_kept_while_consumed ex_graph_size g' ex_size ex_table
              ex_ident ex_tables "table:0") as [_ Hsize];
    [reflexivity | reflexivity | vm_compute; right; by left | discriminate
    | vm_compute; by left | discriminate |].
  destruct (Hsize Hrun) as (old & Hold & Ht & Hi & _).
  - vm_compute. intros Hin. apply list_elem_of_singleton in Hin. discriminate.
  - vm_compute in Hold. injection Hold as <-. simpl. by split.
Defined.

Lemma id_chain_last g m tn :
  id_chain g m tn → type m = "Identity" → m ∈ nodes g →
  ∃ p, p ∈ nodes g ∧ type p = "Identity" ∧ input_node g p 0 = Ret tn.
Proof.
  induction 1 as [r Hr|n m r Hid Hin Hchain IH]; intros Hty Hn; [done|].
  destruct (decide (type m = "Identity")) as [Hm|Hm].
  - apply IH; [done|]. by eapply input_node_output.
  - inversion Hchain; subst; [eauto | done].
Qed.

(** X4. A lookup that reads its table through Identity nodes never gets
    the table node removed: the last Identity node still consumes the
    table's output, so the cleanup finds a consumer, and the table node and
    every Identity node stay in the graph. *)
Theorem table_behind_identity_is_kept (g g' : Graph) (node m tn : Node)
    (tables : Tables) (tout : string) :
  input_node g node 0 = Ret m →
  type m = "Identity" →
  find_table_node g node = Ret tn →
  output tn = [tout] →
  name tn ≠ name node →
  (∀ p, p ∈ nodes g → type p = "Identity" →
        name p ≠ name node ∧ name p ≠ name tn) →
  LookupTableFind.version_8 node tables g = (g', Ret ()) →
  tn ∈ nodes g'
  ∧ ∀ p, p ∈ nodes g → type p = "Identity" → p ∈ nodes g'.
Proof.
  intros Hm Hty Htn Hout Hne Hids Hrun.
  assert (Hchain : id_chain g m tn).
  { unfold find_table_node in Htn. rewrite Hm in Htn.
    by eapply walk_identity_chain. }
  destruct (id_chain_last _ _ _ Hchain Hty) as (p & Hp & Hpid & Hpin);
    [by eapply input_node_output|].
  apply input_node_Ret in Hpin as (t & Ht & Hprod).
  apply get_node_by_output_Some in Hprod as [_ Htout].
  rewrite Hout in Htout. apply list_elem_of_singleton in Htout as ->.
  destruct (Hids p Hp Hpid) as [Hpn _].
  destruct (find_version_8_table_consumed g g' node tn p tables tout)
    as [Htn' _]; try done.
  - by rewrite Hout.
  - by eapply list_elem_of_lookup_2.
  - split; [done|].
    intros q Hq Hqid. destruct (Hids q Hq Hqid) as [Hq1 Hq2].
    by eapply find_version_8_keeps.
Qed.

(** The table of the example is read through an Identity node: the
    handler leaves the table node and the Identity node, which has no
    consumer any more, in the graph. *)
Lemma table_behind_identity_is_kept_witness :
  let g' := (LookupTableFind.version_8 ex_find ex_tables ex_graph_dynamic).1 in
  ex_table ∈ nodes g' ∧ ex_ident ∈ nodes g'
  ∧ find_output_consumers g' "ident:0" = [].
Proof.
  destruct (LookupTableFind.version_8 ex_find ex_tables ex_graph_dynamic)
    as [g' r] eqn:Hrun.
  assert (r = Ret ()) as -> by (by vm_compute in Hrun; injection Hrun as _ <-).
  destruct (table_behind_identity_is_kept ex_graph_dynamic g' ex_find ex_ident
              ex_table ex_tables "table:0") as [Ht Hi];
    [reflexivity | reflexivity | reflexivity | reflexivity | discriminate
    | | exact Hrun |].
  - intros p Hp Hid. simpl in Hp.
    repeat (apply elem_of_cons in Hp as [->|Hp]);
      try (by apply not_elem_of_nil in Hp); try discriminate Hid;
      split; discriminate.
  - simpl. split_and!; [done | apply Hi; [vm_compute; right; by left | done] |].
    vm_compute in Hrun. injection Hrun as <-. reflexivity.
Defined.

(** ** Annotations of the replaced output *)

Lemma lookup_foldr_delete_notin {V} (m : gmap string V) outs k :
  k ∉ outs → foldr delete m outs !! k = m !! k.
Proof.
  induction outs as [|o outs IH]; [done|].
  intros [Hne Hk]%not_elem_of_cons. simpl.
  rewrite lookup_delete_ne by done. by apply IH.
Qed.

Lemma annotate_first {V} (m : gmap string V) out0 outs v :
  annotate (out0 :: outs) [v] m !! out0 = v.
Proof.
  unfold annotate. simpl. destruct v.
  - by rewrite lookup_insert_eq.
  - by rewrite lookup_delete_eq.
Qed.

Lemma find_convert_inv_key node c g g1 :
  LookupTableFind.convert node c g = (g1, Ret ()) →
  ∃ kn r shapes,
    input_node g node 1 = Ret kn
    ∧ g1 = make_node_pure r shapes [LookupTableFind.dtype c]
             (remove_node_pure (name node) g)
    ∧ name r = name node ∧ output r = output node
    ∧ (is_const kn = true ∧ shapes = [Some []]
       ∨ is_const kn = false ∧ shapes = [LookupTableFind.shape c]).
Proof.
  unfold LookupTableFind.convert, make_node, remove_node, py_index.
  unfold_M. intros H. run_cases; eexists _, _, _; split_and!; eauto.
Qed.

Lemma find_checks_Ret_annotations g node tables g' c out0 :
  LookupTableFind.checks node tables g = (g', Ret c) →
  output node !! 0 = Some out0 →
  LookupTableFind.dtype c = Some INT64
  ∧ LookupTableFind.shape c = get_shape g out0.
Proof.
  unfold LookupTableFind.checks, py_index. unfold_M. intros H Hout.
  rewrite Hout in H. run_cases. bool_hyps. done.
Qed.

(** X5. When the LookupTableFindV2 handler returns, the first output of
    the lookup node, which no other node produces, is annotated as int64;
    its shape is the scalar shape when the key was a constant, and the shape
    it had before, known or not, when the key was not. *)
Theorem lookup_find_annotations (g g' : Graph) (node tn : Node)
    (tables : Tables) (out0 : string) :
  LookupTableFind.version_8 node tables g = (g', Ret ()) →
  output node !! 0 = Some out0 →
  find_table_node g node = Ret tn →
  name tn ≠ name node →
  (∀ n, n ∈ nodes g → name n ≠ name node → out0 ∉ output n) →
  get_dtype g' out0 = Some INT64
  ∧ ∃ kn, input_node g node 1 = Ret kn
      ∧ get_shape g' out0 =
          if is_const kn then Some [] else get_shape g out0.
Proof.
  intros (c & g1 & tout & Hchk & Hconv & Hout & ->)%find_version_8_inv
    Hout0 Htn Hne Huniq.
  apply find_checks_table_node in Hchk as Htn'.
  assert (LookupTableFind.table_node c = tn) as -> by congruence.
  destruct (find_checks_Ret_annotations _ _ _ _ _ _ Hchk Hout0) as [Hdt Hsh].
  apply find_convert_inv_key in Hconv
    as (kn & r & shapes & Hkn & -> & Hnm & Houtr & Hcase).
  destruct (output node) as [|o outs] eqn:Ho; [done|].
  injection Hout0 as ->.
  set (g1 := make_node_pure r shapes _ _).
  assert (Hd1 : get_dtype g1 out0 = Some INT64).
  { unfold get_dtype, g1. simpl. rewrite Houtr, Hdt. apply annotate_first. }
  assert (Hs1 : get_shape g1 out0 = if is_const kn then Some [] else get_shape g out0).
  { unfold get_shape at 1, g1. simpl. rewrite Houtr.
    destruct Hcase as [[-> ->]|[-> ->]]; rewrite annotate_first; [done|].
    by rewrite Hsh. }
  assert (Hkeep : get_dtype (pruned g1 tn tout) out0 = get_dtype g1 out0
                  ∧ get_shape (pruned g1 tn tout) out0 = get_shape g1 out0).
  { unfold pruned. destruct (decide _); [|done].
    assert (Hno : out0 ∉ filter (λ n, name n = name tn) (nodes g1) ≫= output).
    { intros Hin. apply list_elem_of_bind in Hin as (n & Hon & Hn).
      apply list_elem_of_filter in Hn as [Hnn Hn].
      simpl in Hn. apply elem_of_app in Hn as [Hn|Hn].
      - apply list_elem_of_filter in Hn as [Hnn' Hn].
        by apply (Huniq n).
      - apply list_elem_of_singleton in Hn as ->. congruence. }
    unfold get_dtype, get_shape. simpl.
    by rewrite !lookup_foldr_delete_notin. }
  destruct Hkeep as [-> ->]. eauto.
Qed.

Lemma lookup_find_annotations_witness :
  let g' := (LookupTableFind.version_8 ex_find ex_tables (ex_graph_const "b")).1 in
  get_dtype g' "find:0" = Some INT64 ∧ get_shape g' "find:0" = Some [].
Proof.
  destruct (LookupTableFind.version_8 ex_find ex_tables (ex_graph_const "b"))
    as [g' r] eqn:Hrun.
  assert (r = Ret ()) as -> by (by vm_compute in Hrun; injection Hrun as _ <-).
  destruct (lookup_find_annotations (ex_graph_const "b") g' ex_find ex_table
              ex_tables "find:0" Hrun)
    as (Hd & kn & Hkn & Hs); [reflexivity | reflexivity | discriminate | |].
  - intros n Hn Hne. simpl in Hn.
    repeat (apply elem_of_cons in Hn as [->|Hn]);
      try (by apply not_elem_of_nil in Hn); try done;
      vm_compute; intros Hin; apply list_elem_of_singleton in Hin; discriminate.
  - simpl. split; [done|]. rewrite Hs.
    vm_compute in Hkn. injection Hkn as <-. reflexivity.
Defined.

(** ** Exceptions of the table-size handler *)

(** X6. The LookupTableSizeV2 handler raises before it touches the graph,
    with one exception: for a node without outputs it raises [IndexError]
    at [node_outputs[0]], after it has removed the node and added the
    constant.  That case does occur whenever the checks pass and the node
    has no output. *)
Theorem lookup_size_exceptions (g : Graph) (node : Node) (tables : Tables) :
  let broken keys :=
    make_node_pure (size_const node keys) [Some []] [Some INT64]
      (remove_node_pure (name node) g) in
  (∀ g' e, LookupTableSize.version_1 node tables g = (g', Raise e) →
     g' = g
     ∨ (output node = [] ∧ e = IndexError ∧ ∃ keys, g' = broken keys))
  ∧ (∀ tn s ks vs,
       find_table_node g node = Ret tn →
       get_attr_value tn "shared_name" = PScalar (SStr s) →
       tables !! s = Some (ks, vs) →
       output node = [] →
       LookupTableSize.version_1 node tables g = (broken ks, Raise IndexError)).
Proof.
  intros broken. split.
  - intros g' e H. unfold LookupTableSize.version_1 in H.
    pose proof (size_checks_graph node tables g) as Hg.
    unfold mbind, M_bind, bind in H.
    destruct (LookupTableSize.checks node tables g) as [g0 [[tn keys]|e0]] eqn:Hc;
      simpl in Hg; subst g0; [|left; congruence].
    destruct (find_table_node_output g node tn) as [out0 Hout];
      [exact (size_checks_table_node _ _ _ _ _ _ Hc)|].
    unfold LookupTableSize.rewrite, LookupTableSize.convert, make_const,
      make_node, remove_node, replace_all_inputs, py_index in H.
    unfold_M. simpl in H.
    destruct (output node) as [|old outs] eqn:Ho; simpl in H.
    + right. injection H as <- <-. eauto.
    + rewrite (prune_table_node_run _ _ _ Hout) in H. done.
  - intros tn s ks vs Htn Hsn Htab Ho.
    unfold LookupTableSize.version_1.
    rewrite (bind_ret_run _ _ _ _ _ (size_checks_ok _ _ _ _ _ _ _ Htn Hsn Htab)).
    unfold LookupTableSize.rewrite, LookupTableSize.convert, make_const,
      make_node, remove_node, replace_all_inputs, py_index.
    unfold_M. simpl. by rewrite Ho.
Qed.

Lemma lookup_size_exceptions_witness :
  let node := mkNode "size" "LookupTableSizeV2" "" ["ident:0"] [] ∅ in
  ∃ g', LookupTableSize.version_1 node ex_tables ex_graph_size
          = (g', Raise IndexError)
        ∧ name <$> nodes g' = ["table"; "ident"; "out"; "out2"; "size"].
Proof.
  intros node.
  destruct (lookup_size_exceptions ex_graph_size node ex_tables) as [_ Hraise].
  eexists. split.
  - apply (Hraise ex_table "vocab" [SStr "a"; SStr "b"] [1%Z; 2%Z]); reflexivity.
  - reflexivity.
Defined.

(** ** BroadcastOp: what the handlers keep *)

Lemma stored_frame n' g :
  output_shapes (stored n' g) = output_shapes g
  ∧ output_dtypes (stored n' g) = output_dtypes g
  ∧ targets (stored n' g) = targets g
  ∧ name <$> nodes (stored n' g) = name <$> nodes g
  ∧ (∀ n, n ∈ nodes g → name n ≠ name n' → n ∈ nodes (stored n' g))
  ∧ (∀ n, n ∈ nodes g → name n = name n' → n' ∈ nodes (stored n' g)).
Proof.
  unfold stored, store_node, modify. simpl. split_and!; try done.
  - induction (nodes g) as [|n l IH]; [done|].
    rewrite !fmap_cons, IH. f_equal. by destruct (decide _).
  - intros n Hn Hne. apply list_elem_of_fmap. exists n.
    by destruct (decide _).
  - intros n Hn He. apply list_elem_of_fmap. exists n.
    by destruct (decide _).
Qed.

Lemma stored_stored n1 n2 g :
  name n1 = name n2 → stored n2 (stored n1 g) = stored n2 g.
Proof.
  intros Hn. unfold stored, store_node, modify. simpl. f_equal.
  rewrite <- list_fmap_compose. apply list_fmap_ext. intros i n _. simpl.
  destruct (decide (name n = name n1)) as [E|E].
  - rewrite decide_True by done. rewrite decide_True by congruence. done.
  - done.
Qed.

Lemma rs4_shape_cases dim1 g node i t s :
  input node !! i = Some t →
  (∃ s', BroadcastOp.rs4_shape dim1 g node i s = Ret s')
  ∨ BroadcastOp.rs4_shape dim1 g node i s = Raise AttributeError.
Proof.
  intros Hi. unfold BroadcastOp.rs4_shape, input_node, node_inputs.
  rewrite list_lookup_fmap, Hi. simpl.
  destruct (shape_truthy s); [eauto|].
  destruct (get_node_by_output g t); eauto.
Qed.

(** What [maybe_swap] can do to a node with two inputs: nothing, exchange
    the inputs of a 'Mul' or 'Add' node, or fail for the target RS4 at an
    input without producer. *)
Lemma maybe_swap_cases RS4 dim1 node s0 s1 in0 in1 g g' r :
  input node !! 0 = Some in0 → input node !! 1 = Some in1 →
  BroadcastOp.maybe_swap RS4 dim1 node s0 s1 g = (g', r) →
  (g' = g ∧ r = Ret node)
  ∨ (type node ∈ ["Mul"; "Add"]
     ∧ g' = stored (swapped in0 in1 node) g
     ∧ r = Ret (swapped in0 in1 node))
  ∨ (g' = g ∧ is_target g RS4 = true ∧ r = Raise AttributeError).
Proof.
  intros H0 H1.
  assert (Hswap : ∀ a b gg,
    (if BroadcastOp.swap_test node a b
     then BroadcastOp.swap_inputs node else mret node) gg = (g', r) →
    (g' = gg ∧ r = Ret node)
    ∨ (type node ∈ ["Mul"; "Add"]
       ∧ g' = stored (swapped in0 in1 node) gg
       ∧ r = Ret (swapped in0 in1 node))).
  { intros a b gg. destruct (BroadcastOp.swap_test node a b) eqn:Ht.
    - unfold BroadcastOp.swap_inputs, py_index. unfold_M.
      rewrite H0, H1. intros [= <- <-]. right.
      unfold BroadcastOp.swap_test in Ht. bool_hyps. done.
    - unfold_M. intros [= <- <-]. by left. }
  unfold BroadcastOp.maybe_swap, BroadcastOp.rs4_workaround.
  unfold mbind, M_bind, bind, get_graph.
  destruct (is_target g RS4) eqn:Htgt.
  - unfold lift.
    destruct (rs4_shape_cases dim1 g node 0 in0 s0 H0) as [[a ->]| ->];
      [|intros [= <- <-]; eauto].
    destruct (rs4_shape_cases dim1 g node 1 in1 s1 H1) as [[b ->]| ->];
      [|intros [= <- <-]; eauto].
    unfold mret, M_ret, ret. intros H.
    destruct (Hswap _ _ _ H) as [?|?]; eauto.
  - unfold mret, M_ret, ret. intros H.
    destruct (Hswap _ _ _ H) as [?|?]; eauto.
Qed.

Lemma swapped_perm in0 in1 node :
  input node !! 0 = Some in0 → input node !! 1 = Some in1 →
  input (swapped in0 in1 node) ≡ₚ input node.
Proof.
  intros H0 H1. destruct (input node) as [|a [|b l]] eqn:Hi; try done.
  injection H0 as ->. injection H1 as ->.
  unfold swapped. simpl. rewrite Hi. simpl. apply Permutation_swap.
Qed.

Lemma version_7_cases RS4 dim1 node g g' r :
  BroadcastOp.version_7 RS4 dim1 node g = (g', r) →
  (length (input node) < 2 ∧ g' = g ∧ r = Raise IndexError)
  ∨ ∃ in0 in1, input node !! 0 = Some in0 ∧ input node !! 1 = Some in1 ∧
      ((g' = g ∧ r = Ret node)
       ∨ (type node ∈ ["Mul"; "Add"] ∧ get_shape g in0 ≠ get_shape g in1
          ∧ g' = stored (swapped in0 in1 node) g
          ∧ r = Ret (swapped in0 in1 node))
       ∨ (g' = g ∧ is_target g RS4 = true ∧ r = Raise AttributeError)).
Proof.
  unfold BroadcastOp.version_7, py_index. unfold_M.
  destruct (input node !! 0) as [in0|] eqn:H0.
  2:{ intros [= <- <-]. left. apply lookup_ge_None in H0. split; [lia|done]. }
  destruct (input node !! 1) as [in1|] eqn:H1.
  2:{ intros [= <- <-]. left. apply lookup_ge_None in H1. split; [lia|done]. }
  right. exists in0, in1. split_and!; try done.
  destruct (bool_decide _) eqn:Hb.
  - apply bool_decide_eq_true in Hb.
    destruct (maybe_swap_cases _ _ _ _ _ _ _ _ _ _ H0 H1 H)
      as [?|[(? & ? & ?)|?]]; eauto 10.
  - injection H as <- <-. eauto.
Qed.

Lemma version_4_cases RS4 dim1 node g g' r :
  BroadcastOp.version_4 RS4 dim1 node g = (g', r) →
  (length (input node) < 2 ∧ g' = g ∧ r = Raise IndexError)
  ∨ ∃ in0 in1 flag,
      input node !! 0 = Some in0 ∧ input node !! 1 = Some in1 ∧
      let node4 := with_attr "broadcast" (PScalar (SInt flag)) node in
      let g4 := stored node4 g in
      ((g' = g4 ∧ r = Ret node4)
       ∨ (type node ∈ ["Mul"; "Add"] ∧ get_shape g in0 ≠ get_shape g in1
          ∧ g' = stored (swapped in0 in1 node4) g4
          ∧ r = Ret (swapped in0 in1 node4))
       ∨ (g' = g4 ∧ is_target g RS4 = true ∧ r = Raise AttributeError)).
Proof.
  unfold BroadcastOp.version_4, py_index. unfold_M.
  destruct (input node !! 0) as [in0|] eqn:H0.
  2:{ intros [= <- <-]. left. apply lookup_ge_None in H0. split; [lia|done]. }
  destruct (input node !! 1) as [in1|] eqn:H1.
  2:{ intros [= <- <-]. left. apply lookup_ge_None in H1. split; [lia|done]. }
  right. exists in0, in1.
  destruct (bool_decide _) eqn:Hb.
  - apply bool_decide_eq_true in Hb. exists 1%Z. split_and!; try done.
    unfold set_attr in H. unfold_M. simpl in H.
    match type of H with
    | BroadcastOp.maybe_swap _ _ ?n _ _ ?gg = _ =>
        destruct (maybe_swap_cases RS4 dim1 n _ _ in0 in1 gg _ _ H0 H1 H)
          as [?|[(? & ? & ?)|(? & ? & ?)]]
    end; eauto 10.
  - exists 0%Z. split_and!; try done.
    unfold set_attr in H. unfold_M. simpl in H. injection H as <- <-. eauto.
Qed.

Lemma broadcast_keeps_stored node node' g :
  name node' = name node → type node' = type node →
  domain node' = domain node → output node' = output node →
  input node' ≡ₚ input node →
  (∀ k, k ≠ "broadcast" → attr node' !! k = attr node !! k) →
  broadcast_keeps node g node' (stored node' g).
Proof.
  intros Hn Ht Hd Ho Hi Ha.
  destruct (stored_frame node' g) as (? & ? & ? & ? & Hkeep & Hself).
  unfold broadcast_keeps. split_and!; try done.
  - intros n Hin Hne. apply Hkeep; [done|congruence].
  - intros Hin. left. by apply (Hself node).
Qed.

(** X7. Outside the target RS4, where [scalar_to_dim1] is not called, a
    broadcast handler that returns has changed nothing but the order of the
    node's inputs and, for [version_4], its "broadcast" attribute: name,
    kind, domain, outputs and every other attribute of the node are the
    same, the inputs are the same up to order, every other node of the graph
    and all shapes and element types are untouched. *)
Theorem broadcast_handlers_keep (RS4 : string) (dim1 : Node → option (list Z))
    (g g' : Graph) (node node' : Node) :
  is_target g RS4 = false →
  (BroadcastOp.version_4 RS4 dim1 node g = (g', Ret node') →
   broadcast_keeps node g node' g')
  ∧ (BroadcastOp.version_7 RS4 dim1 node g = (g', Ret node') →
     broadcast_keeps node g node' g' ∧ attr node' = attr node).
Proof.
  intros _. split.
  - intros H. apply version_4_cases in H
      as [(_ & _ & ?)|(in0 & in1 & flag & H0 & H1 & Hc)]; [done|].
    simpl in Hc.
    assert (Hattr : ∀ k, k ≠ "broadcast" →
              attr (with_attr "broadcast" (PScalar (SInt flag)) node) !! k
              = attr node !! k).
    { intros k Hk. simpl. by rewrite lookup_insert_ne. }
    destruct Hc as [[-> [= ->]]|[(_ & _ & -> & [= ->])|(_ & _ & ?)]]; [| |done].
    + apply broadcast_keeps_stored; [done.. | reflexivity | done].
    + rewrite stored_stored by done.
      apply broadcast_keeps_stored; [done.. | | done].
      by apply (swapped_perm in0 in1
                  (with_attr "broadcast" (PScalar (SInt flag)) node)).
  - intros H. apply version_7_cases in H
      as [(_ & _ & ?)|(in0 & in1 & H0 & H1 & Hc)]; [done|].
    destruct Hc as [[-> [= ->]]|[(_ & _ & -> & [= ->])|(_ & _ & ?)]]; [| |done].
    + split; [|done]. unfold broadcast_keeps. split_and!; try done. eauto.
    + split; [|done]. apply broadcast_keeps_stored; [done.. | | done].
      by apply swapped_perm.
Qed.

Lemma broadcast_handlers_keep_witness :
  ∃ g' node',
    BroadcastOp.version_4 "rs4" ex_scalar_to_dim1 ex_mul (ex_graph_mul [3%Z] [])
      = (g', Ret node')
    ∧ input node' = ["x:0"; "c:0"]
    ∧ broadcast_keeps ex_mul (ex_graph_mul [3%Z] []) node' g'.
Proof.
  eexists _, _. split; [vm_compute; reflexivity|]. split; [reflexivity|].
  match goal with
  | |- broadcast_keeps _ _ ?n' ?gg =>
      destruct (broadcast_handlers_keep "rs4" ex_scalar_to_dim1
                  (ex_graph_mul [3%Z] []) gg ex_mul n') as [H4 _]
  end.
  - reflexivity.
  - apply H4. vm_compute. reflexivity.
Defined.

(** X8. For a node with fewer than two inputs the broadcast handlers
    raise [IndexError] before anything is changed, under every target.
    Outside the target RS4, where [scalar_to_dim1] is not called, this is
    the only way they raise: every exception is that [IndexError], the node
    has fewer than two inputs and the graph is as it was. *)
Theorem broadcast_exceptions (RS4 : string) (dim1 : Node → option (list Z))
    (g : Graph) (node : Node) :
  (length (input node) < 2 →
   BroadcastOp.version_4 RS4 dim1 node g = (g, Raise IndexError)
   ∧ BroadcastOp.version_7 RS4 dim1 node g = (g, Raise IndexError))
  ∧ (is_target g RS4 = false →
     (∀ g' e, BroadcastOp.version_7 RS4 dim1 node g = (g', Raise e) →
        g' = g ∧ e = IndexError ∧ length (input node) < 2)
     ∧ (∀ g' e, BroadcastOp.version_4 RS4 dim1 node g = (g', Raise e) →
          g' = g ∧ e = IndexError ∧ length (input node) < 2)).
Proof.
  split.
  - intros Hlen. unfold BroadcastOp.version_4, BroadcastOp.version_7, py_index.
    unfold_M.
    destruct (input node) as [|a [|b l]] eqn:Hi; simpl in *; try lia; done.
  - intros Hplain. split.
    + intros g' e H. apply version_7_cases in H
        as [(? & -> & [= ->])|(in0 & in1 & H0 & H1 & Hc)]; [done|].
      destruct Hc as [[_ ?]|[(_ & _ & _ & ?)|(_ & Ht & _)]]; [done..|].
      congruence.
    + intros g' e H.
      unfold BroadcastOp.version_4, py_index in H. unfold_M.
      destruct (input node !! 0) as [in0|] eqn:H0.
      2:{ injection H as <- <-. apply lookup_ge_None in H0.
          split_and!; [done | done | lia]. }
      destruct (input node !! 1) as [in1|] eqn:H1.
      2:{ injection H as <- <-. apply lookup_ge_None in H1.
          split_and!; [done | done | lia]. }
      destruct (bool_decide _) eqn:Hb; [|done].
      unfold set_attr in H. unfold_M. simpl in H.
      match type of H with
      | BroadcastOp.maybe_swap _ _ ?n _ _ ?gg = _ =>
          destruct (maybe_swap_cases RS4 dim1 n _ _ in0 in1 gg _ _ H0 H1 H)
            as [[_ ?]|[(_ & _ & ?)|(_ & Ht & _)]]
      end; [done..|].
      unfold is_target in *. simpl in Ht. congruence.
Qed.

Lemma broadcast_exceptions_witness :
  BroadcastOp.version_7 "rs4" ex_scalar_to_dim1
    (mkNode "neg" "Neg" "" ["x:0"] ["neg:0"] ∅) (ex_graph_mul [] [])
  = (ex_graph_mul [] [], Raise IndexError).
Proof.
  destruct (broadcast_exceptions "rs4" ex_scalar_to_dim1 (ex_graph_mul [] [])
              (mkNode "neg" "Neg" "" ["x:0"] ["neg:0"] ∅)) as [Hshort _].
  apply Hshort. simpl. lia.
Defined.

(** ** BroadcastOp: running a handler again *)

Lemma maybe_swap_plain RS4 dim1 node s0 s1 in0 in1 g :
  input node !! 0 = Some in0 → input node !! 1 = Some in1 →
  is_target g RS4 = false →
  BroadcastOp.maybe_swap RS4 dim1 node s0 s1 g =
    if BroadcastOp.swap_test node s0 s1
    then (stored (swapped in0 in1 node) g, Ret (swapped in0 in1 node))
    else (g, Ret node).
Proof.
  intros H0 H1 Ht.
  unfold BroadcastOp.maybe_swap, BroadcastOp.rs4_workaround.
  unfold_M. rewrite Ht.
  destruct (BroadcastOp.swap_test node s0 s1); [|done].
  unfold BroadcastOp.swap_inputs, py_index. unfold_M. by rewrite H0, H1.
Qed.

Lemma swap_test_differ node s0 s1 :
  BroadcastOp.swap_test node s0 s1 = true →
  s0 ≠ s1 ∧ BroadcastOp.swap_test node s1 s0 = false.
Proof.
  unfold BroadcastOp.swap_test. intros Ht. bool_hyps. split.
  - intros ->. lia.
  - rewrite (bool_decide_eq_false_2 (shape_len s1 < shape_len s0)) by lia.
    by rewrite andb_false_r.
Qed.

Lemma version_7_plain RS4 dim1 node in0 in1 g :
  input node !! 0 = Some in0 → input node !! 1 = Some in1 →
  is_target g RS4 = false →
  BroadcastOp.version_7 RS4 dim1 node g =
    if BroadcastOp.swap_test node (get_shape g in0) (get_shape g in1)
    then (stored (swapped in0 in1 node) g, Ret (swapped in0 in1 node))
    else (g, Ret node).
Proof.
  intros H0 H1 Ht. unfold BroadcastOp.version_7, py_index. unfold_M.
  rewrite H0, H1.
  destruct (BroadcastOp.swap_test node _ _) eqn:Hs.
  - apply swap_test_differ in Hs as Hd. destruct Hd as [Hd _].
    rewrite bool_decide_eq_true_2 by done.
    by rewrite (maybe_swap_plain _ _ _ _ _ in0 in1), Hs.
  - destruct (bool_decide _); [|done].
    by rewrite (maybe_swap_plain _ _ _ _ _ in0 in1), Hs.
Qed.

Lemma version_4_plain RS4 dim1 node in0 in1 g :
  input node !! 0 = Some in0 → input node !! 1 = Some in1 →
  is_target g RS4 = false →
  let flag := if decide (get_shape g in0 = get_shape g in1) then 0%Z else 1%Z in
  let node4 := with_attr "broadcast" (PScalar (SInt flag)) node in
  BroadcastOp.version_4 RS4 dim1 node g =
    if BroadcastOp.swap_test node (get_shape g in0) (get_shape g in1)
    then (stored (swapped in0 in1 node4) g, Ret (swapped in0 in1 node4))
    else (stored node4 g, Ret node4).
Proof.
  intros H0 H1 Ht flag node4. unfold BroadcastOp.version_4, py_index. unfold_M.
  rewrite H0, H1. unfold node4, flag.
  destruct (decide (get_shape g in0 = get_shape g in1)) as [E|E].
  - rewrite bool_decide_eq_false_2 by (by intros ?).
    destruct (BroadcastOp.swap_test node _ _) eqn:Hs;
      [by apply swap_test_differ in Hs as [? _]|].
    unfold set_attr. unfold_M. done.
  - rewrite bool_decide_eq_true_2 by done.
    unfold set_attr. unfold_M. unfold store_node, modify.
    cbv beta iota.
    change {| nodes := _ <$> nodes g; output_shapes := output_shapes g;
              output_dtypes := output_dtypes g; targets := targets g |}
      with (stored (with_attr "broadcast" (PScalar (SInt 1)) node) g).
    rewrite (maybe_swap_plain _ _ _ _ _ in0 in1) by done.
    change (BroadcastOp.swap_test (with_attr "broadcast" (PScalar (SInt 1)) node))
      with (BroadcastOp.swap_test node).
    destruct (BroadcastOp.swap_test node _ _); [|done].
    by rewrite stored_stored.
Qed.

Lemma swapped_inputs in0 in1 node :
  input node !! 0 = Some in0 → input node !! 1 = Some in1 →
  input (swapped in0 in1 node) !! 0 = Some in1
  ∧ input (swapped in0 in1 node) !! 1 = Some in0.
Proof.
  intros H0 H1. destruct (input node) as [|a [|b l]] eqn:Hi; try done.
  unfold swapped. simpl. rewrite Hi. simpl in *. by simplify_eq.
Qed.

Lemma with_attr_again k v n :
  attr n !! k = Some v → with_attr k v n = n.
Proof.
  intros Hk. destruct n as [nm ty dom inp out att]. unfold with_attr.
  simpl in *. f_equal. by apply insert_id.
Qed.

Lemma get_shape_stored n' g t : get_shape (stored n' g) t = get_shape g t.
Proof. done. Qed.

Lemma is_target_stored n' g flag :
  is_target (stored n' g) flag = is_target g flag.
Proof. done. Qed.

(** X9. Outside the target RS4 a broadcast handler does its work once:
    run again on the node and the graph it returned, it returns the same
    node and the same graph.  Inputs that were exchanged are not exchanged
    back. *)
Theorem broadcast_handlers_idempotent (RS4 : string)
    (dim1 : Node → option (list Z)) (g g1 : Graph) (node node1 : Node) :
  is_target g RS4 = false →
  (BroadcastOp.version_4 RS4 dim1 node g = (g1, Ret node1) →
   BroadcastOp.version_4 RS4 dim1 node1 g1 = (g1, Ret node1))
  ∧ (BroadcastOp.version_7 RS4 dim1 node g = (g1, Ret node1) →
     BroadcastOp.version_7 RS4 dim1 node1 g1 = (g1, Ret node1)).
Proof.
  intros Ht. split; intros H.
  - destruct (version_4_cases _ _ _ _ _ _ H)
      as [(_ & _ & ?)|(in0 & in1 & _ & H0 & H1 & _)]; [done|].
    rewrite (version_4_plain _ _ _ in0 in1) in H by done.
    set (s0 := get_shape g in0) in *. set (s1 := get_shape g in1) in *.
    set (flag := if decide (s0 = s1) then 0%Z else 1%Z) in *.
    set (node4 := with_attr "broadcast" (PScalar (SInt flag)) node) in *.
    destruct (BroadcastOp.swap_test node s0 s1) eqn:Hs.
    + injection H as <- <-.
      destruct (swap_test_differ _ _ _ Hs) as [Hd Hback].
      destruct (swapped_inputs in0 in1 node4 H0 H1) as [H0' H1'].
      rewrite (version_4_plain _ _ _ in1 in0) by done.
      rewrite !get_shape_stored. fold s0 s1.
      change (BroadcastOp.swap_test (swapped in0 in1 node4))
        with (BroadcastOp.swap_test node).
      rewrite Hback. cbv zeta.
      rewrite decide_False by (by intros ?).
      rewrite with_attr_again.
      * by rewrite stored_stored.
      * unfold node4, flag. rewrite decide_False by done.
        simpl. by rewrite lookup_insert_eq.
    + injection H as <- <-.
      rewrite (version_4_plain _ _ _ in0 in1) by done.
      rewrite !get_shape_stored. fold s0 s1.
      change (BroadcastOp.swap_test node4) with (BroadcastOp.swap_test node).
      rewrite Hs. cbv zeta. fold flag.
      rewrite with_attr_again.
      * by rewrite stored_stored.
      * unfold node4. simpl. by rewrite lookup_insert_eq.
  - destruct (version_7_cases _ _ _ _ _ _ H)
      as [(_ & _ & ?)|(in0 & in1 & H0 & H1 & _)]; [done|].
    rewrite (version_7_plain _ _ _ in0 in1) in H by done.
    destruct (BroadcastOp.swap_test node _ _) eqn:Hs.
    + injection H as <- <-.
      destruct (swap_test_differ _ _ _ Hs) as [Hd Hback].
      destruct (swapped_inputs in0 in1 node H0 H1) as [H0' H1'].
      rewrite (version_7_plain _ _ _ in1 in0) by done.
      rewrite !get_shape_stored.
      change (BroadcastOp.swap_test (swapped in0 in1 node))
        with (BroadcastOp.swap_test node).
      by rewrite Hback.
    + injection H as <- <-.
      rewrite (version_7_plain _ _ _ in0 in1) by done.
      by rewrite Hs.
Qed.

Lemma broadcast_handlers_idempotent_witness :
  let g := ex_graph_mul [3%Z] [] in
  let r := BroadcastOp.version_4 "rs4" ex_scalar_to_dim1 ex_mul g in
  ∃ node1, r.2 = Ret node1
    ∧ input node1 = ["x:0"; "c:0"]
    ∧ BroadcastOp.version_4 "rs4" ex_scalar_to_dim1 node1 r.1 = (r.1, Ret node1).
Proof.
  intros g r.
  destruct r as [g1 [node1|e]] eqn:Hr; [|by vm_compute in Hr].
  exists node1. simpl. split; [done|].
  destruct (broadcast_handlers_idempotent "rs4" ex_scalar_to_dim1 g g1
              ex_mul node1) as [H4 _]; [reflexivity|].
  split; [|by apply H4].
  vm_compute in Hr. by injection Hr as _ <-.
Defined.

(** ** What [_convert_common] writes *)

Section ConvertWrites.

Context {GraphDef TfGraph OnnxGraph ModelProto : Type}.
Context {ConstValues Storage CustomOps Rewriter ExtraOpset : Type}.
Context {ShapeOverride Renames : Type}.

Variable compress_graph_def : GraphDef → ConstValues.
Variable ExternalTensorStorage : Storage.
Variable import_graph_def : GraphDef → TfGraph.
Variable process_tf_graph :
  TfGraph →
  @Convert.ProcessArgs ConstValues CustomOps ExtraOpset ShapeOverride Renames →
  Res OnnxGraph.
Variable optimize_graph : OnnxGraph → OnnxGraph.
Variable make_model : OnnxGraph → string → option Storage → ModelProto.

Implicit Types
  a : @Convert.CommonArgs GraphDef CustomOps Rewriter ExtraOpset
        ShapeOverride Renames.


End ConvertWrites.


(** ** Splitting at a separator *)

Lemma py_split_not_nil sep s : py_split sep s ≠ [].
Proof.
  destruct s as [|c s]; simpl; [done|].
  destruct (decide (c = sep)); [done|]. by destruct (py_split sep s).
Qed.

Lemma py_join_cons sep h t :
  t ≠ [] → py_join sep (h :: t) = h +:+ String sep (py_join sep t).
Proof. by destruct t. Qed.

Lemma py_join_split sep s : py_join sep (py_split sep s) = s.
Proof.
  induction s as [|c s IH]; simpl; [done|].
  destruct (decide (c = sep)) as [->|Hne].
  - rewrite py_join_cons by apply py_split_not_nil. simpl. by rewrite IH.
  - pose proof (py_split_not_nil sep s) as Hnil.
    destruct (py_split sep s) as [|h t]; [done|].
    destruct t as [|h' t'].
    + simpl in *. by rewrite IH.
    + rewrite py_join_cons by done. rewrite py_join_cons in IH by done.
      set (rest := py_join sep (h' :: t')) in *.
      change (String c (h +:+ String sep rest) = String c s). by rewrite IH.
Qed.

Lemma py_split_no_sep sep s x :
  x ∈ py_split sep s → py_contains sep x = false.
Proof.
  revert x. induction s as [|c s IH]; intros x; simpl.
  - by intros ->%list_elem_of_singleton.
  - destruct (decide (c = sep)) as [->|Hne].
    + intros [->|Hx]%elem_of_cons; [done | by apply IH].
    + pose proof (py_split_not_nil sep s) as Hnil.
      destruct (py_split sep s) as [|h t]; [done|].
      intros [->|Hx]%elem_of_cons.
      * simpl. rewrite decide_False by done. apply IH. by left.
      * apply IH. by right.
Qed.

Lemma py_split_length sep s :
  length (py_split sep s) = S (py_count sep s).
Proof.
  induction s as [|c s IH]; simpl; [done|].
  destruct (decide (c = sep)); simpl; [by rewrite IH|].
  pose proof (py_split_not_nil sep s) as Hnil.
  destruct (py_split sep s) as [|h t]; [done|]. simpl in *. lia.
Qed.

Lemma py_contains_count sep s :
  py_contains sep s = true ↔ 0 < py_count sep s.
Proof.
  induction s as [|c s IH]; simpl; [split; [done|lia]|].
  destruct (decide (c = sep)); simpl; [split; [lia|done]|]. done.
Qed.

(** Splitting a string in two at its only separator. *)
Lemma py_split_two sep s a b :
  py_split sep s = [a; b] →
  py_count sep s = 1 ∧ s = a +:+ String sep b.
Proof.
  intros Hs. split.
  - pose proof (py_split_length sep s) as Hl. rewrite Hs in Hl. simpl in Hl. lia.
  - rewrite <- (py_join_split sep s), Hs. done.
Qed.

Lemma py_split_count_one sep s :
  py_count sep s = 1 → ∃ a b, py_split sep s = [a; b].
Proof.
  intros Hc. pose proof (py_split_length sep s) as Hl. rewrite Hc in Hl.
  destruct (py_split sep s) as [|a [|b [|c l]]]; simpl in Hl; try lia. eauto.
Qed.

(** ** [get_args] *)

Ltac unfold_E :=
  unfold mbind, Exit_bind, exit_bind, mret, Exit_ret, exit_of_res in *.

Section GetArgs.

Context {SO OpsetId : Type}.
Variable split_nodename_and_shape : string → Res (list string * option SO).
Variable make_opsetid : string → Z → OpsetId.
Variable py_int : string → option Z.

Implicit Types parsed args : @Cli.Args SO OpsetId.

Local Abbreviation get_args :=
  (Cli.get_args split_nodename_and_shape make_opsetid py_int).

Lemma parse_extra_opset_not_io a msg :
  Cli.parse_extra_opset make_opsetid py_int a = ParserError msg →
  msg = Cli.msg_extra_opset.
Proof.
  unfold Cli.parse_extra_opset. unfold_E. intros H.
  repeat (case_match; simplify_eq/=; try done).
Qed.

Lemma split_inputs_not_error a msg :
  Cli.split_inputs split_nodename_and_shape a ≠ ParserError msg
  ∧ Cli.split_inputs split_nodename_and_shape a ≠ HelpExit.
Proof.
  unfold Cli.split_inputs. unfold_E.
  split; intros H; repeat (case_match; simplify_eq/=; try done).
Qed.

(** What [get_args] does after its first two checks never ends with the
    message of the first. *)
Lemma get_args_rest_not_io (k : Exit (Arg string * option SO))
    (body : Arg string * option SO → Exit (@Cli.Args SO OpsetId)) :
  (∀ msg, k ≠ ParserError msg) →
  (∀ x msg, body x = ParserError msg → msg ≠ Cli.msg_io) →
  (k ≫= body) ≠ ParserError Cli.msg_io.
Proof.
  intros Hk Hbody. unfold_E. destruct k as [x| | | |]; try done.
  - intros H. by apply Hbody in H.
  - by destruct (Hk msg).
Qed.

(** X11. [get_args] ends with "graphdef and checkpoint models need to
    provide inputs and outputs" exactly when a graphdef or a checkpoint is
    given with [--graphdef] or [--checkpoint] and neither [--input] nor
    [--outputs] is given.  [--inputs] plays no part in it, and a model given
    with [--input] is never rejected for missing inputs and outputs. *)
Theorem get_args_io_check parsed :
  (get_args parsed = ParserError Cli.msg_io ↔
   (path_truthy (Cli.args_graphdef parsed) = true
    ∨ path_truthy (Cli.args_checkpoint parsed) = true)
   ∧ path_truthy (Cli.args_input parsed) = false
   ∧ arg_truthy (Cli.args_outputs parsed) = false)
  ∧ (path_truthy (Cli.args_input parsed) = true →
     get_args parsed ≠ ParserError Cli.msg_io).
Proof.
  assert (Hiff : get_args parsed = ParserError Cli.msg_io ↔
   (path_truthy (Cli.args_graphdef parsed) = true
    ∨ path_truthy (Cli.args_checkpoint parsed) = true)
   ∧ path_truthy (Cli.args_input parsed) = false
   ∧ arg_truthy (Cli.args_outputs parsed) = false).
  { unfold Cli.get_args.
    match goal with
    | |- context [if ?c then ParserError Cli.msg_io else _] =>
        destruct c eqn:Hc1
    end.
    - split; [intros _|done].
      bool_hyps.
      destruct (path_truthy (Cli.args_input parsed)) eqn:Hi; [done|].
      destruct (arg_truthy (Cli.args_outputs parsed)); [done|].
      split; [|done]. by apply orb_true_iff.
    - split.
      + intros H. exfalso. revert H.
        match goal with
        | |- (if ?c then _ else _) = _ → False => destruct c; [done|]
        end.
        apply get_args_rest_not_io.
        * intros msg. apply split_inputs_not_error.
        * intros [inputs so] msg.
          destruct (Cli.args_dequantize parsed
                    && negb (path_truthy (Cli.args_tflite parsed))) eqn:Hd;
            [by intros [= <-]|].
          unfold_E.
          destruct (Cli.parse_extra_opset make_opsetid py_int
                      (Cli.args_extra_opset parsed)) eqn:Hp; try done.
          intros Hm. injection Hm as <-.
          by apply parse_extra_opset_not_io in Hp as ->.
      + intros (Hsrc & Hi & Ho). rewrite Hi, Ho in Hc1. simpl in Hc1.
        rewrite !andb_true_r in Hc1. apply orb_false_iff in Hc1 as [? ?].
        destruct Hsrc; congruence. }
  split; [done|]. intros Hi Hx. apply Hiff in Hx as (_ & Hx & _). congruence.
Qed.


(** What a returned namespace tells about the run of [get_args]. *)
Lemma get_args_inv parsed args :
  get_args parsed = Returned args →
  let graphdef :=
    if path_truthy (Cli.args_input parsed) then Cli.args_input parsed
    else Cli.args_graphdef parsed in
  (path_truthy graphdef || path_truthy (Cli.args_checkpoint parsed))
    && negb (path_truthy (Cli.args_input parsed))
    && negb (arg_truthy (Cli.args_outputs parsed)) = false
  ∧ path_truthy graphdef || path_truthy (Cli.args_checkpoint parsed)
    || path_truthy (Cli.args_saved_model parsed)
    || path_truthy (Cli.args_keras parsed)
    || path_truthy (Cli.args_tflite parsed) = true
  ∧ Cli.args_dequantize parsed
    && negb (path_truthy (Cli.args_tflite parsed)) = false
  ∧ Cli.split_inputs split_nodename_and_shape (Cli.args_inputs parsed)
    = Returned (Cli.args_inputs args, Cli.args_shape_override args)
  ∧ Cli.parse_extra_opset make_opsetid py_int (Cli.args_extra_opset parsed)
    = Returned (Cli.args_extra_opset args)
  ∧ Cli.args_graphdef args = graphdef
  ∧ Cli.args_outputs args = Cli.split_commas (Cli.args_outputs parsed)
  ∧ Cli.args_ignore_default args
    = Cli.split_commas (Cli.args_ignore_default parsed)
  ∧ Cli.args_use_default args = Cli.split_commas (Cli.args_use_default parsed)
  ∧ Cli.args_inputs_as_nchw args
    = Cli.split_commas (Cli.args_inputs_as_nchw parsed)
  ∧ Cli.args_target args = Cli.split_commas (Cli.args_target parsed)
  ∧ Cli.args_input args = Cli.args_input parsed
  ∧ Cli.args_saved_model args = Cli.args_saved_model parsed
  ∧ Cli.args_tag args = Cli.args_tag parsed
  ∧ Cli.args_concrete_function args = Cli.args_concrete_function parsed
  ∧ Cli.args_checkpoint args = Cli.args_checkpoint parsed
  ∧ Cli.args_keras args = Cli.args_keras parsed
  ∧ Cli.args_tflite args = Cli.args_tflite parsed
  ∧ Cli.args_large_model args = Cli.args_large_model parsed
  ∧ Cli.args_output args = Cli.args_output parsed
  ∧ Cli.args_opset args = Cli.args_opset parsed
  ∧ Cli.args_dequantize args = Cli.args_dequantize parsed
  ∧ Cli.args_custom_ops args = Cli.args_custom_ops parsed
  ∧ Cli.args_continue_on_error args = Cli.args_continue_on_error parsed
  ∧ Cli.args_verbose args = Cli.args_verbose parsed
  ∧ Cli.args_debug args = Cli.args_debug parsed
  ∧ Cli.args_output_frozen_graph args = Cli.args_output_frozen_graph parsed
  ∧ Cli.args_fold_const args = Cli.args_fold_const parsed.
Proof.
  unfold Cli.get_args. cbv zeta.
  match goal with
  | |- (if ?c then _ else _) = _ → _ => destruct c eqn:Hc1; [done|]
  end.
  match goal with
  | |- (if negb ?c then _ else _) = _ → _ => destruct c eqn:Hc2; [|done]
  end.
  simpl negb. cbv iota. unfold_E.
  destruct (Cli.split_inputs split_nodename_and_shape
              (Cli.args_inputs parsed)) as [[inputs so]| | | |] eqn:Hs;
    try done.
  destruct (Cli.args_dequantize parsed
            && negb (path_truthy (Cli.args_tflite parsed))) eqn:Hd; [done|].
  destruct (Cli.parse_extra_opset make_opsetid py_int
              (Cli.args_extra_opset parsed)) as [eo| | | |] eqn:Hp; try done.
  intros [= <-]. simpl. split_and!; done.
Qed.

Lemma split_commas_truthy a : arg_truthy (Cli.split_commas a) = arg_truthy a.
Proof.
  destruct a as [|s|l]; simpl; try done.
  destruct (bool_decide (s = "")) eqn:Hs; simpl; [by rewrite Hs|].
  pose proof (py_split_not_nil "," s). by destruct (py_split "," s).
Qed.

(** X12. The namespace [get_args] returns names a model to convert: one of
    [graphdef], [checkpoint], [saved_model], [keras] and [tflite] is set.
    [graphdef] is the value of [--input] when that is given, and [--graphdef]
    itself is then dropped.  [dequantize] is only set together with
    [tflite], and a graphdef or checkpoint given without [--input] comes
    with outputs.  The options [get_args] does not rewrite are returned as
    the parser gave them. *)
Theorem get_args_returned parsed args :
  get_args parsed = Returned args →
  (path_truthy (Cli.args_graphdef args) = true
   ∨ path_truthy (Cli.args_checkpoint args) = true
   ∨ path_truthy (Cli.args_saved_model args) = true
   ∨ path_truthy (Cli.args_keras args) = true
   ∨ path_truthy (Cli.args_tflite args) = true)
  ∧ (path_truthy (Cli.args_input parsed) = true →
     Cli.args_graphdef args = Cli.args_input parsed)
  ∧ (path_truthy (Cli.args_input parsed) = false →
     Cli.args_graphdef args = Cli.args_graphdef parsed)
  ∧ (Cli.args_dequantize args = true →
     path_truthy (Cli.args_tflite args) = true)
  ∧ (path_truthy (Cli.args_graphdef args) = true
     ∨ path_truthy (Cli.args_checkpoint args) = true →
     path_truthy (Cli.args_input args) = true
     ∨ arg_truthy (Cli.args_outputs args) = true)
  ∧ Cli.args_input args = Cli.args_input parsed
  ∧ Cli.args_saved_model args = Cli.args_saved_model parsed
  ∧ Cli.args_tag args = Cli.args_tag parsed
  ∧ Cli.args_concrete_function args = Cli.args_concrete_function parsed
  ∧ Cli.args_checkpoint args = Cli.args_checkpoint parsed
  ∧ Cli.args_keras args = Cli.args_keras parsed
  ∧ Cli.args_tflite args = Cli.args_tflite parsed
  ∧ Cli.args_large_model args = Cli.args_large_model parsed
  ∧ Cli.args_output args = Cli.args_output parsed
  ∧ Cli.args_opset args = Cli.args_opset parsed
  ∧ Cli.args_dequantize args = Cli.args_dequantize parsed
  ∧ Cli.args_custom_ops args = Cli.args_custom_ops parsed
  ∧ Cli.args_continue_on_error args = Cli.args_continue_on_error parsed
  ∧ Cli.args_verbose args = Cli.args_verbose parsed
  ∧ Cli.args_debug args = Cli.args_debug parsed
  ∧ Cli.args_output_frozen_graph args = Cli.args_output_frozen_graph parsed
  ∧ Cli.args_fold_const args = Cli.args_fold_const parsed.
Proof.
  intros H. apply get_args_inv in H. cbv zeta in H.
  destruct H as (Hc1 & Hc2 & Hd & _ & _ & Hg & Ho & _ & _ & _ & _ & Hi & Hsm
                 & Htag & Hcf & Hck & Hk & Htf & Hrest).
  rewrite Hg, Hck, Hsm, Hk, Htf, Hi, Ho, split_commas_truthy.
  destruct Hrest as (? & ? & ? & Hdq & Hrest). rewrite Hdq.
  destruct_and!.
  split_and!; try done.
  - repeat (apply orb_true_iff in Hc2 as [Hc2|Hc2]); auto.
  - by intros ->.
  - by intros ->.
  - intros Hdt. rewrite Hdt in Hd. simpl in Hd. by apply negb_false_iff in Hd.
  - intros Hsrc.
    destruct (path_truthy (Cli.args_input parsed)) eqn:Hin; [by left|right].
    destruct (arg_truthy (Cli.args_outputs parsed)); [done|].
    rewrite !andb_true_r in Hc1. apply orb_false_iff in Hc1 as [? ?].
    destruct Hsrc; congruence.
Qed.

(** X13. The options [--outputs], [--ignore_default], [--use_default],
    [--inputs-as-nchw] and [--target] come back from [get_args] as lists
    that lose nothing: a non-empty string is replaced by a non-empty list
    of names without a comma, one more than the string has commas, and
    joining them with commas gives the string back.  An option that is not
    given, or given as the empty string, is left as it is. *)
Theorem get_args_comma_lists parsed args
    (proj : @Cli.Args SO OpsetId → Arg string) :
  get_args parsed = Returned args →
  proj ∈ [Cli.args_outputs; Cli.args_ignore_default; Cli.args_use_default;
          Cli.args_inputs_as_nchw; Cli.args_target] →
  (∀ s, proj parsed = AStr s → s ≠ "" →
     ∃ l, proj args = AList l
          ∧ l ≠ []
          ∧ length l = S (py_count "," s)
          ∧ py_join "," l = s
          ∧ ∀ x, x ∈ l → py_contains "," x = false)
  ∧ (proj parsed = ANone ∨ proj parsed = AStr "" → proj args = proj parsed).
Proof.
  intros H Hproj. apply get_args_inv in H. cbv zeta in H.
  destruct H as (_ & _ & _ & _ & _ & _ & Ho & Hid & Hud & Hnchw & Ht & _).
  assert (Hsplit : proj args = Cli.split_commas (proj parsed)).
  { repeat (apply elem_of_cons in Hproj as [->|Hproj]; [done|]).
    by apply elem_of_nil in Hproj. }
  rewrite Hsplit. split.
  - intros s -> Hs. exists (py_split "," s). simpl.
    rewrite bool_decide_eq_false_2 by done. simpl. split_and!.
    + done.
    + apply py_split_not_nil.
    + apply py_split_length.
    + apply py_join_split.
    + intros x. apply py_split_no_sep.
  - by intros [->| ->].
Qed.

(** X14. A non-empty [--extra_opset] survives [get_args] only when it
    has exactly one colon; it is then replaced by the one-element list of
    the opset made from the text before the colon and the number after it.
    [get_args] ends with "invalid extra_opset argument" only for a non-empty
    [--extra_opset] whose number of colons is not one. *)
Theorem get_args_extra_opset parsed :
  (∀ args s,
     get_args parsed = Returned args →
     Cli.args_extra_opset parsed = AStr s → s ≠ "" →
     py_count ":" s = 1
     ∧ ∃ domain version v,
         s = domain +:+ ":" +:+ version
         ∧ py_int version = Some v
         ∧ Cli.args_extra_opset args = AList [make_opsetid domain v])
  ∧ (get_args parsed = ParserError Cli.msg_extra_opset →
     ∃ s, Cli.args_extra_opset parsed = AStr s ∧ s ≠ ""
          ∧ py_count ":" s ≠ 1).
Proof.
  split.
  - intros args s H Hs Hne. apply get_args_inv in H. cbv zeta in H.
    destruct H as (_ & _ & _ & _ & Hp & _).
    rewrite Hs in Hp. simpl in Hp. rewrite bool_decide_eq_false_2 in Hp by done.
    simpl in Hp.
    destruct (py_split ":" s) as [|domain [|version [|x l]]] eqn:Hsp;
      try done.
    apply py_split_two in Hsp as [Hc ->]. split; [done|].
    destruct (py_int version) as [v|] eqn:Hv; [|done].
    injection Hp as <-. by exists domain, version, v.
  - unfold Cli.get_args.
    match goal with
    | |- (if ?c then _ else _) = _ → _ => destruct c; [done|]
    end.
    match goal with
    | |- (if ?c then _ else _) = _ → _ => destruct c; [done|]
    end.
    unfold_E.
    destruct (Cli.split_inputs split_nodename_and_shape
                (Cli.args_inputs parsed)) as [[inputs so]|msg| | |] eqn:Hsi;
      try done.
    + destruct (Cli.args_dequantize parsed
                && negb (path_truthy (Cli.args_tflite parsed))); [done|].
      destruct (Cli.args_extra_opset parsed) as [|s|l]; simpl; try done.
      * destruct (bool_decide (s = "")) eqn:Hs; simpl; [done|].
        apply bool_decide_eq_false in Hs. intros Hp.
        exists s. split_and!; try done.
        intros Hc. apply py_split_count_one in Hc as (a & b & Hab).
        rewrite Hab in Hp. by destruct (py_int b).
      * by destruct (bool_decide (length l = 0)).
    + by destruct (split_inputs_not_error (Cli.args_inputs parsed) msg).
Qed.

End GetArgs.

Lemma get_args_io_check_witness :
  ex_get_args ex_parsed_no_outputs = ParserError Cli.msg_io
  ∧ ex_get_args ex_parsed ≠ ParserError Cli.msg_io.
Proof.
  split.
  - apply (get_args_io_check ex_split_nodename_and_shape ex_make_opsetid
             ex_py_int ex_parsed_no_outputs).
    split; [by left | done].
  - intros H.
    apply (get_args_io_check ex_split_nodename_and_shape ex_make_opsetid
             ex_py_int ex_parsed) in H as (_ & _ & H).
    discriminate H.
Defined.

Lemma get_args_returned_witness :
  ∃ args, ex_get_args ex_parsed = Returned args
          ∧ Cli.args_graphdef args = Some "model.pb"
          ∧ Cli.args_custom_ops args = Some "Foo:ai.bar,Baz".
Proof.
  destruct (ex_get_args ex_parsed) as [args| | | |] eqn:Hrun;
    try by vm_compute in Hrun.
  exists args. split; [done|].
  pose proof (get_args_returned ex_split_nodename_and_shape ex_make_opsetid
                ex_py_int ex_parsed args Hrun) as H.
  destruct H as (_ & _ & Hg & _ & _ & _ & _ & _ & _ & _ & _ & _ & _ & _ & _
                 & _ & Hc & _).
  split; [by rewrite Hg | by rewrite Hc].
Defined.

Lemma get_args_comma_lists_witness :
  ∃ args l, ex_get_args ex_parsed = Returned args
            ∧ Cli.args_outputs args = AList l
            ∧ py_join "," l = "y:0,z:0"
            ∧ Cli.args_target args = AStr "".
Proof.
  destruct (ex_get_args ex_parsed) as [args| | | |] eqn:Hrun;
    try by vm_compute in Hrun.
  destruct (get_args_comma_lists ex_split_nodename_and_shape ex_make_opsetid
              ex_py_int ex_parsed args Cli.args_outputs Hrun) as [Hl _].
  { repeat constructor. }
  destruct (Hl "y:0,z:0") as (l & Hout & _ & _ & Hjoin & _); [done..|].
  destruct (get_args_comma_lists ex_split_nodename_and_shape ex_make_opsetid
              ex_py_int ex_parsed args Cli.args_target Hrun) as [_ Ht].
  { repeat constructor. }
  exists args, l. split_and!; try done. apply Ht. by right.
Defined.

Lemma get_args_extra_opset_witness :
  ∃ args domain version v,
    ex_get_args ex_parsed = Returned args
    ∧ "com.microsoft:1" = domain +:+ ":" +:+ version
    ∧ ex_py_int version = Some v
    ∧ Cli.args_extra_opset args = AList [(domain, v)].
Proof.
  destruct (ex_get_args ex_parsed) as [args| | | |] eqn:Hrun;
    try by vm_compute in Hrun.
  destruct (get_args_extra_opset ex_split_nodename_and_shape ex_make_opsetid
              ex_py_int ex_parsed) as [H _].
  destruct (H args "com.microsoft:1" Hrun) as (_ & d & ver & v & Hs & Hv & He);
    [done..|].
  by exists args, d, ver, v.
Defined.

Lemma py_split_none sep s : py_contains sep s = false → py_split sep s = [s].
Proof.
  induction s as [|c s IH]; simpl; [done|].
  destruct (decide (c = sep)); [done|]. intros H. by rewrite IH.
Qed.

Lemma py_split_app sep a b :
  py_contains sep a = false →
  py_split sep (a +:+ String sep b) = a :: py_split sep b.
Proof.
  induction a as [|c a IH]; simpl.
  - intros _. by rewrite decide_True.
  - destruct (decide (c = sep)); [done|]. intros H. by rewrite IH.
Qed.

Lemma py_count_app sep a b :
  py_count sep (a +:+ String sep b) = S (py_count sep a + py_count sep b).
Proof.
  induction a as [|c a IH]; simpl.
  - by rewrite decide_True.
  - rewrite IH. destruct (decide (c = sep)); simpl; lia.
Qed.

Lemma py_contains_false_count sep s :
  py_contains sep s = false ↔ py_count sep s = 0.
Proof.
  pose proof (py_contains_count sep s) as H.
  destruct (py_contains sep s); split; intros H'; try done.
  - destruct H as [H _]. specialize (H eq_refl). lia.
  - destruct (py_count sep s) eqn:Hc; [done|]. destruct H as [_ H].
    discriminate H. lia.
Qed.

(** ** [main] *)

Section MainProps.

Context {SO OpsetId GraphDef Names InitTables : Type}.
Variable TENSORFLOW_OPSET : OpsetId.
Variable TENSORFLOW_OPSET_domain : string.
Variable from_graphdef :
  string → Arg string → Arg string → Res (GraphDef * Names * Names).
Variable from_checkpoint :
  string → Arg string → Arg string → Res (GraphDef * Names * Names).
Variable from_saved_model :
  string → Arg string → Arg string → option string → Arg string →
  option Z → bool → Res (GraphDef * Names * Names * InitTables).
Variable from_keras :
  string → Arg string → Arg string → Res (GraphDef * Names * Names).
Variable split_nodename_and_shape : string → Res (list string * option SO).
Variable make_opsetid : string → Z → OpsetId.
Variable py_int : string → option Z.

Implicit Types args parsed : @Cli.Args SO OpsetId.
Implicit Types call : @Main.ConvertCall SO OpsetId GraphDef Names InitTables.
Implicit Types d : Main.Handlers.

Local Abbreviation custom_op_entry :=
  (Main.custom_op_entry TENSORFLOW_OPSET_domain).
Local Abbreviation custom_ops_loop :=
  (Main.custom_ops_loop TENSORFLOW_OPSET_domain).
Local Abbreviation extra_opset_of := (Main.extra_opset_of TENSORFLOW_OPSET).
Local Abbreviation load :=
  (Main.load from_graphdef from_checkpoint from_saved_model from_keras).
Local Abbreviation convert_call :=
  (Main.convert_call TENSORFLOW_OPSET TENSORFLOW_OPSET_domain from_graphdef
     from_checkpoint from_saved_model from_keras).
Local Abbreviation main :=
  (Main.main TENSORFLOW_OPSET TENSORFLOW_OPSET_domain from_graphdef
     from_checkpoint from_saved_model from_keras split_nodename_and_shape
     make_opsetid py_int).
Local Abbreviation handler_of domain :=
  (make_default_custom_op_handler domain, @nil string).

(** What one entry of [--custom-ops] stands for. *)
Lemma custom_op_entry_Ret op k dom tf :
  custom_op_entry op = Ret (k, dom, tf) ↔
  (tf = false ∧ op = k +:+ ":" +:+ dom
   ∧ py_contains ":" k = false ∧ py_contains ":" dom = false)
  ∨ (tf = true ∧ op = k ∧ py_contains ":" op = false
     ∧ dom = TENSORFLOW_OPSET_domain).
Proof.
  unfold Main.custom_op_entry. split.
  - destruct (py_contains ":" op) eqn:Hc.
    + destruct (py_split ":" op) as [|a [|b [|c l]]] eqn:Hs; try done.
      intros [= <- <- <-]. left.
      assert (Ha : py_contains ":" a = false).
      { apply (py_split_no_sep ":" op). rewrite Hs. by left. }
      assert (Hb : py_contains ":" b = false).
      { apply (py_split_no_sep ":" op). rewrite Hs. right. by left. }
      apply py_split_two in Hs as [_ ->]. done.
    + intros [= <- <- <-]. by right.
  - intros [(-> & -> & Hk & Hd)|(-> & -> & Hc & ->)].
    + assert (Hc : py_contains ":" (k +:+ ":" +:+ dom) = true).
      { apply py_contains_count.
        change (k +:+ ":" +:+ dom) with (k +:+ String ":" dom).
        rewrite py_count_app. lia. }
      rewrite Hc. change (k +:+ ":" +:+ dom) with (k +:+ String ":" dom).
      rewrite py_split_app by done. by rewrite py_split_none.
    + by rewrite Hc.
Qed.

Lemma custom_op_entry_Raise op e :
  custom_op_entry op = Raise e ↔ e = ValueError ∧ 2 ≤ py_count ":" op.
Proof.
  unfold Main.custom_op_entry.
  pose proof (py_split_length ":" op) as Hl.
  pose proof (py_contains_count ":" op) as Hc.
  destruct (py_contains ":" op).
  - destruct Hc as [Hc _]. specialize (Hc eq_refl).
    destruct (py_split ":" op) as [|a [|b [|c l]]]; simpl in Hl; split;
      first [ by intros [= <-]; split; [|lia]
            | by intros [-> ?]
            | intros [_ ?]; lia
            | done ].
  - split; [done|]. intros [_ H2].
    destruct (py_count ":" op) eqn:Hn; [lia|]. destruct Hc as [_ Hc].
    discriminate Hc. lia.
Qed.

Lemma custom_ops_loop_Raise ops d tf e :
  custom_ops_loop ops d tf = Raise e →
  e = ValueError ∧ ∃ op, op ∈ ops ∧ 2 ≤ py_count ":" op.
Proof.
  revert d tf. induction ops as [|op ops IH]; intros d tf; simpl; [done|].
  destruct (custom_op_entry op) as [[[k dom] b]|e'] eqn:He.
  - intros H. apply IH in H as (-> & op' & Hin & Hc).
    split; [done|]. exists op'. split; [by right | done].
  - intros [= <-]. apply custom_op_entry_Raise in He as [-> Hc].
    split; [done|]. exists op. split; [by left | done].
Qed.

Lemma custom_ops_loop_many_colons ops d tf op :
  op ∈ ops → 2 ≤ py_count ":" op →
  custom_ops_loop ops d tf = Raise ValueError.
Proof.
  revert d tf. induction ops as [|op' ops IH]; intros d tf Hin Hc.
  - by apply elem_of_nil in Hin.
  - simpl. destruct (custom_op_entry op') as [[[k dom] b]|e'] eqn:He.
    + apply elem_of_cons in Hin as [->|Hin]; [|by apply IH].
      assert (custom_op_entry op' = Raise ValueError) as Hr
        by by apply custom_op_entry_Raise.
      congruence.
    + by apply custom_op_entry_Raise in He as [-> _].
Qed.

Lemma handlers_lookup_insert d k v : (<[k:=v]> d : Main.Handlers) !! k = Some v.
Proof. unfold Main.Handlers in *. apply lookup_insert_eq. Qed.

Lemma handlers_lookup_insert_ne d k k' v :
  k' ≠ k → (<[k':=v]> d : Main.Handlers) !! k = d !! k.
Proof. unfold Main.Handlers in *. apply lookup_insert_ne. Qed.

(** What the dictionary has for an op name stays when the later entries
    for that name give the same domain. *)
Lemma custom_ops_loop_stable ops d tf d' tf' k dom :
  custom_ops_loop ops d tf = Ret (d', tf') →
  d !! k = Some (handler_of dom) →
  (∀ op k' dom' b,
     op ∈ ops → custom_op_entry op = Ret (k', dom', b) → k' = k → dom' = dom) →
  d' !! k = Some (handler_of dom).
Proof.
  revert d tf. induction ops as [|op ops IH]; intros d tf; simpl.
  - by intros [= <- <-].
  - destruct (custom_op_entry op) as [[[k' dom'] b]|e'] eqn:He; [|done].
    intros H Hd Hsame. apply (IH _ _ H).
    + destruct (decide (k' = k)) as [->|Hne].
      * rewrite handlers_lookup_insert.
        by rewrite (Hsame op k dom' b (list_elem_of_here _ _) He eq_refl).
      * by rewrite handlers_lookup_insert_ne.
    + intros op' k'' dom'' b' Hin. apply Hsame. by right.
Qed.

(** The last entry for an op name decides. *)
Lemma custom_ops_loop_last pre op post d tf d' tf' k dom b :
  custom_ops_loop (pre ++ op :: post) d tf = Ret (d', tf') →
  custom_op_entry op = Ret (k, dom, b) →
  (∀ op' k' dom' b',
     op' ∈ post → custom_op_entry op' = Ret (k', dom', b') →
     k' = k → dom' = dom) →
  d' !! k = Some (handler_of dom).
Proof.
  revert d tf. induction pre as [|p pre IH]; intros d tf; simpl.
  - intros H He Hsame. rewrite He in H.
    eapply custom_ops_loop_stable; [exact H| |exact Hsame].
    apply handlers_lookup_insert.
  - destruct (custom_op_entry p) as [[[k' dom'] b']|e'] eqn:Hp; [|done].
    apply IH.
Qed.

(** Every key of the dictionary comes from an entry. *)
Lemma custom_ops_loop_keys ops d tf d' tf' k v :
  custom_ops_loop ops d tf = Ret (d', tf') →
  d' !! k = Some v →
  d !! k = Some v
  ∨ ∃ op dom b, op ∈ ops ∧ custom_op_entry op = Ret (k, dom, b)
                ∧ v = handler_of dom.
Proof.
  revert d tf. induction ops as [|op ops IH]; intros d tf; simpl.
  - intros [= <- <-]. by left.
  - destruct (custom_op_entry op) as [[[k' dom] b]|e'] eqn:He; [|done].
    intros H Hk. destruct (IH _ _ H Hk) as [Hd|(op' & dom' & b' & Hin & He' & ->)].
    + destruct (decide (k' = k)) as [->|Hne].
      * rewrite handlers_lookup_insert in Hd. injection Hd as <-.
        right. exists op, dom, b. split_and!; [by left | done | done].
      * rewrite handlers_lookup_insert_ne in Hd by done. by left.
    + right. exists op', dom', b'. split_and!; [by right | done | done].
Qed.

Lemma custom_ops_loop_using_tf ops d tf d' tf' :
  custom_ops_loop ops d tf = Ret (d', tf') →
  tf' = tf || existsb (λ op, negb (py_contains ":" op)) ops.
Proof.
  revert d tf. induction ops as [|op ops IH]; intros d tf; simpl.
  - intros [= <- <-]. by rewrite orb_false_r.
  - destruct (custom_op_entry op) as [[[k' dom] b]|e'] eqn:He; [|done].
    intros H. apply IH in H as ->.
    apply custom_op_entry_Ret in He
      as [(-> & -> & Hk & Hd)|(-> & -> & Hc & ->)].
    + assert (Hc : py_contains ":" (k' +:+ ":" +:+ dom) = true).
      { apply py_contains_count.
        change (k' +:+ ":" +:+ dom) with (k' +:+ String ":" dom).
        rewrite py_count_app. lia. }
      rewrite Hc. done.
    + rewrite Hc. simpl. by rewrite orb_true_r.
Qed.

(** The first two steps of [convert_call]. *)
Lemma convert_call_Returned args call :
  convert_call args = Returned call →
  ∃ d tf l,
    (if path_truthy (Cli.args_custom_ops args)
     then custom_ops_loop
            (py_split "," (default "" (Cli.args_custom_ops args))) ∅ false
     else Ret (∅, false)) = Ret (d, tf)
    ∧ extra_opset_of (Cli.args_extra_opset args) tf
      = Ret (Main.call_extra_opset call)
    ∧ load args = Returned (Some l, Main.call_initialized_tables call,
                            Main.call_tflite_path call)
    ∧ Main.call_custom_op_handlers call = d
    ∧ Main.call_frozen_graph call = Main.graph_def l
    ∧ Main.call_name call = Main.model_path l
    ∧ Main.call_input_names call = Main.inputs l
    ∧ Main.call_output_names call = Main.outputs l.
Proof.
  unfold Main.convert_call. unfold_E.
  intros H.
  assert (∃ d tf,
    (if path_truthy (Cli.args_custom_ops args)
     then custom_ops_loop
            (py_split "," (default "" (Cli.args_custom_ops args))) ∅ false
     else Ret (∅, false)) = Ret (d, tf)) as (d & tf & Hloop).
  { destruct (path_truthy (Cli.args_custom_ops args)); [|by eauto].
    destruct (custom_ops_loop _ _ _) as [[d tf]|e]; [by eauto | done]. }
  exists d, tf.
  assert (match extra_opset_of (Cli.args_extra_opset args) tf with
          | Ret extra_opset =>
              match load args with
              | Returned (Some l, initialized_tables, tflite_path) =>
                  Main.call_custom_op_handlers call = d
                  ∧ Main.call_extra_opset call = extra_opset
                  ∧ Main.call_initialized_tables call = initialized_tables
                  ∧ Main.call_tflite_path call = tflite_path
                  ∧ Main.call_frozen_graph call = Main.graph_def l
                  ∧ Main.call_name call = Main.model_path l
                  ∧ Main.call_input_names call = Main.inputs l
                  ∧ Main.call_output_names call = Main.outputs l
              | _ => False
              end
          | Raise _ => False
          end) as Hrest.
  { destruct (path_truthy (Cli.args_custom_ops args)).
    - rewrite Hloop in H. simpl in H.
      destruct (extra_opset_of _ tf) as [eo|e]; [|done]. simpl in H.
      destruct (load args) as [[[[l|] it] tp]| | | |]; try done.
      by injection H as <-.
    - injection Hloop as <- <-. simpl in H.
      destruct (extra_opset_of _ false) as [eo|e]; [|done]. simpl in H.
      destruct (load args) as [[[[l|] it] tp]| | | |]; try done.
      by injection H as <-. }
  destruct (extra_opset_of _ tf) as [eo|e]; [|done].
  destruct (load args) as [[[[l|] it] tp]| | | |]; try done.
  destruct Hrest as (? & <- & <- & <- & ? & ? & ? & ?). exists l.
  by split_and!.
Qed.

(** X15. Once [get_args] has returned, [main] ends with a [ValueError]
    when an entry of [--custom-ops] has more than one colon, whatever else
    the namespace holds and whatever the loaders would do: no model is
    loaded before. *)
Theorem main_custom_ops_colons args s op :
  Cli.args_custom_ops args = Some s → s ≠ "" →
  op ∈ py_split "," s → 2 ≤ py_count ":" op →
  convert_call args = Raised ValueError.
Proof.
  intros Hs Hne Hin Hc. unfold Main.convert_call. rewrite Hs. simpl.
  rewrite bool_decide_eq_false_2 by done. simpl.
  by rewrite (custom_ops_loop_many_colons _ ∅ false op Hin Hc).
Qed.

(** X16. When [main] reaches its call of [_convert_common] with
    [--custom-ops] given, no entry has more than one colon, and the
    dictionary of handlers has the op names of the entries as its keys: an
    entry [Op:domain] gives [Op] the default handler of [domain], an entry
    [Op] gives it the default handler of the domain of
    [TENSORFLOW_OPSET], and the last entry of an op name decides.
    [TENSORFLOW_OPSET] is appended to the extra opsets exactly when an
    entry has no colon. *)
Theorem main_custom_ops_handlers args call s :
  convert_call args = Returned call →
  Cli.args_custom_ops args = Some s → s ≠ "" →
  let entries := py_split "," s in
  let handlers := Main.call_custom_op_handlers call in
  (∀ op, op ∈ entries → py_count ":" op ≤ 1)
  ∧ (∀ k v, handlers !! k = Some v →
       ∃ dom, v = handler_of dom
              ∧ ((k +:+ ":" +:+ dom) ∈ entries
                 ∨ (k ∈ entries ∧ py_contains ":" k = false
                    ∧ dom = TENSORFLOW_OPSET_domain)))
  ∧ (∀ pre k dom post,
       entries = pre ++ (k +:+ ":" +:+ dom) :: post →
       (∀ op, op ∈ post → op ≠ k ∧ ∀ dom', op ≠ k +:+ ":" +:+ dom') →
       handlers !! k = Some (handler_of dom))
  ∧ (∀ pre k post,
       entries = pre ++ k :: post →
       py_contains ":" k = false →
       (∀ op dom', op ∈ post → op ≠ k +:+ ":" +:+ dom') →
       handlers !! k = Some (handler_of TENSORFLOW_OPSET_domain))
  ∧ Main.call_extra_opset call
    = match Cli.args_extra_opset args with AList l => l | _ => [] end
      ++ (if existsb (λ op, negb (py_contains ":" op)) entries
          then [TENSORFLOW_OPSET] else []).
Proof.
  intros Hrun Hs Hne entries handlers.
  apply convert_call_Returned in Hrun
    as (d & tf & l & Hloop & Heo & _ & Hd & _).
  rewrite Hs in Hloop. simpl in Hloop.
  rewrite bool_decide_eq_false_2 in Hloop by done. simpl in Hloop.
  fold entries in Hloop. unfold handlers. rewrite Hd. clear handlers Hd.
  assert (Hcount : ∀ op, op ∈ entries → py_count ":" op ≤ 1).
  { intros op Hin. destruct (decide (py_count ":" op ≤ 1)) as [|Hgt]; [done|].
    rewrite (custom_ops_loop_many_colons entries ∅ false op) in Hloop;
      [done | done | lia]. }
  split_and!.
  - done.
  - intros k v Hk.
    destruct (custom_ops_loop_keys _ _ _ _ _ _ _ Hloop Hk)
      as [Hd|(op & dom & b & Hin & He & ->)]; [done|].
    exists dom. split; [done|].
    apply custom_op_entry_Ret in He
      as [(-> & -> & Hk' & Hdom)|(-> & -> & Hc & ->)]; [by left | by right].
  - intros pre k dom post Hentries Hlater.
    assert (Hin : (k +:+ ":" +:+ dom) ∈ entries).
    { rewrite Hentries. apply elem_of_app. right. by left. }
    apply Hcount in Hin.
    change (k +:+ ":" +:+ dom) with (k +:+ String ":" dom) in Hin.
    rewrite py_count_app in Hin.
    rewrite Hentries in Hloop.
    eapply custom_ops_loop_last; [exact Hloop| |].
    + apply custom_op_entry_Ret. left. split_and!; try done.
      * apply py_contains_false_count. lia.
      * apply py_contains_false_count. lia.
    + intros op' k' dom' b' Hin' He' ->.
      destruct (Hlater op' Hin') as [Hne1 Hne2].
      apply custom_op_entry_Ret in He'
        as [(-> & -> & _)|(-> & -> & _)]; [by destruct (Hne2 dom') | done].
  - intros pre k post Hentries Hc Hlater.
    rewrite Hentries in Hloop.
    eapply custom_ops_loop_last; [exact Hloop| |].
    + apply custom_op_entry_Ret. by right.
    + intros op' k' dom' b' Hin' He' ->.
      apply custom_op_entry_Ret in He'
        as [(-> & -> & _)|(-> & -> & _ & ->)]; [|done].
      by destruct (Hlater _ dom' Hin').
  - apply custom_ops_loop_using_tf in Hloop as ->. simpl.
    unfold Main.extra_opset_of in Heo.
    destruct (Cli.args_extra_opset args) as [|s'|l']; simpl in *.
    + by injection Heo as <-.
    + destruct (negb (bool_decide (s' = ""))); [done|]. by injection Heo as <-.
    + injection Heo as <-.
      destruct (existsb _ entries); [done | by rewrite app_nil_r].
Qed.


(** X17. When [main] reaches its call of [_convert_common], every model
    named on the command line has been loaded, and the one converted is
    chosen by the order of the five [if]s: the tflite file when there is
    one (then without graph, inputs and outputs), else the keras model, else
    the saved model, else the checkpoint, else the graphdef.  The
    initialized tables are those of the saved model whenever one is
    named, also when another model is converted. *)
Theorem main_model_source args call :
  convert_call args = Returned call →
  let inputs := Cli.args_inputs args in
  let outputs := Cli.args_outputs args in
  let path (p : option string) := default "" p in
  let loaded (r : GraphDef * Names * Names) p :=
    Main.call_frozen_graph call = Some r.1.1
    ∧ Main.call_input_names call = Some r.1.2
    ∧ Main.call_output_names call = Some r.2
    ∧ Main.call_name call = p in
  let saved_model :=
    from_saved_model (path (Cli.args_saved_model args)) inputs outputs
      (Cli.args_tag args) (Cli.args_signature_def args)
      (Cli.args_concrete_function args) (Cli.args_large_model args) in
  (path_truthy (Cli.args_graphdef args) = true →
   ∃ r, from_graphdef (path (Cli.args_graphdef args)) inputs outputs = Ret r)
  ∧ (path_truthy (Cli.args_checkpoint args) = true →
     ∃ r, from_checkpoint (path (Cli.args_checkpoint args)) inputs outputs
          = Ret r)
  ∧ (path_truthy (Cli.args_keras args) = true →
     ∃ r, from_keras (path (Cli.args_keras args)) inputs outputs = Ret r)
  ∧ (if path_truthy (Cli.args_saved_model args)
     then ∃ r tables, saved_model = Ret (r, tables)
                      ∧ Main.call_initialized_tables call = Some tables
     else Main.call_initialized_tables call = None)
  ∧ (if path_truthy (Cli.args_tflite args) then
       Main.call_frozen_graph call = None
       ∧ Main.call_input_names call = None
       ∧ Main.call_output_names call = None
       ∧ Main.call_name call = path (Cli.args_tflite args)
       ∧ Main.call_tflite_path call = Cli.args_tflite args
     else
       Main.call_tflite_path call = None
       ∧ if path_truthy (Cli.args_keras args) then
           ∃ r, from_keras (path (Cli.args_keras args)) inputs outputs = Ret r
                ∧ loaded r (path (Cli.args_keras args))
         else if path_truthy (Cli.args_saved_model args) then
           ∃ r tables, saved_model = Ret (r, tables)
                       ∧ loaded r (path (Cli.args_saved_model args))
         else if path_truthy (Cli.args_checkpoint args) then
           ∃ r, from_checkpoint (path (Cli.args_checkpoint args)) inputs
                  outputs = Ret r
                ∧ loaded r (path (Cli.args_checkpoint args))
         else
           path_truthy (Cli.args_graphdef args) = true
           ∧ ∃ r, from_graphdef (path (Cli.args_graphdef args)) inputs
                    outputs = Ret r
                  ∧ loaded r (path (Cli.args_graphdef args))).
Proof.
  intros Hrun. cbv zeta.
  apply convert_call_Returned in Hrun
    as (_ & _ & l & _ & _ & Hload & _ & -> & -> & -> & ->).
  revert Hload. unfold Main.load. unfold_E. 
  destruct (Main.call_initialized_tables call) as [it|],
    (Main.call_tflite_path call) as [tp|];
  destruct (path_truthy (Cli.args_graphdef args)),
    (path_truthy (Cli.args_checkpoint args)),
    (path_truthy (Cli.args_saved_model args)),
    (path_truthy (Cli.args_keras args)),
    (path_truthy (Cli.args_tflite args));
  repeat match goal with
  | |- context [from_graphdef ?a ?b ?c] =>
      destruct (from_graphdef a b c) as [[[? ?] ?]|]
  | |- context [from_checkpoint ?a ?b ?c] =>
      destruct (from_checkpoint a b c) as [[[? ?] ?]|]
  | |- context [from_keras ?a ?b ?c] =>
      destruct (from_keras a b c) as [[[? ?] ?]|]
  | |- context [from_saved_model ?a ?b ?c ?d ?e ?f ?g] =>
      destruct (from_saved_model a b c d e f g) as [[[[? ?] ?] ?]|]
  end; simpl; intros Hl; simplify_eq/=; try done;
  split_and!; try done; eauto 10.
Qed.


Lemma load_unbound args :
  (∀ tables tflite_path,
     load args = Returned (None, tables, tflite_path) →
     path_truthy (Cli.args_graphdef args) = false
     ∧ path_truthy (Cli.args_checkpoint args) = false
     ∧ path_truthy (Cli.args_saved_model args) = false
     ∧ path_truthy (Cli.args_keras args) = false
     ∧ path_truthy (Cli.args_tflite args) = false)
  ∧ load args ≠ UnboundLocalError.
Proof.
  unfold Main.load. unfold_E.
  destruct (path_truthy (Cli.args_graphdef args)),
    (path_truthy (Cli.args_checkpoint args)),
    (path_truthy (Cli.args_saved_model args)),
    (path_truthy (Cli.args_keras args)),
    (path_truthy (Cli.args_tflite args));
  repeat match goal with
  | |- context [from_graphdef ?a ?b ?c] =>
      destruct (from_graphdef a b c) as [[[? ?] ?]|]
  | |- context [from_checkpoint ?a ?b ?c] =>
      destruct (from_checkpoint a b c) as [[[? ?] ?]|]
  | |- context [from_keras ?a ?b ?c] =>
      destruct (from_keras a b c) as [[[? ?] ?]|]
  | |- context [from_saved_model ?a ?b ?c ?d ?e ?f ?g] =>
      destruct (from_saved_model a b c d e f g) as [[[[? ?] ?] ?]|]
  end; simpl; split; try done; intros ? ? ?; simplify_eq/=.
Qed.

Lemma convert_call_unbound args :
  convert_call args = UnboundLocalError →
  path_truthy (Cli.args_graphdef args) = false
  ∧ path_truthy (Cli.args_checkpoint args) = false
  ∧ path_truthy (Cli.args_saved_model args) = false
  ∧ path_truthy (Cli.args_keras args) = false
  ∧ path_truthy (Cli.args_tflite args) = false.
Proof.
  unfold Main.convert_call. unfold_E.
  destruct (load_unbound args) as [Hnone Hnot].
  destruct (path_truthy (Cli.args_custom_ops args)).
  - destruct (custom_ops_loop _ _ _) as [[d tf]|e]; [simpl|done].
    destruct (extra_opset_of _ tf) as [eo|e]; [simpl|done].
    destruct (load args) as [[[[l|] it] tp]| | | |]; try done.
    intros _. by eapply Hnone.
  - simpl. destruct (extra_opset_of _ false) as [eo|e]; [simpl|done].
    destruct (load args) as [[[[l|] it] tp]| | | |]; try done.
    intros _. by eapply Hnone.
Qed.

Lemma get_args_not_unbound parsed :
  Cli.get_args split_nodename_and_shape make_opsetid py_int parsed
  ≠ UnboundLocalError.
Proof.
  unfold Cli.get_args, Cli.split_inputs, Cli.parse_extra_opset. unfold_E.
  repeat (case_match; simplify_eq/=; try done).
Qed.

(** X18. [main] never reads [graph_def], [inputs], [outputs] or
    [model_path] before they are assigned: the five [if]s leave them
    unassigned only when none of graphdef, checkpoint, saved model, keras
    model and tflite file is named, and [get_args] ends the run with the
    help text in that case. *)
Theorem main_model_bound parsed :
  main parsed ≠ UnboundLocalError
  ∧ ∀ args,
      convert_call args = UnboundLocalError →
      path_truthy (Cli.args_graphdef args) = false
      ∧ path_truthy (Cli.args_checkpoint args) = false
      ∧ path_truthy (Cli.args_saved_model args) = false
      ∧ path_truthy (Cli.args_keras args) = false
      ∧ path_truthy (Cli.args_tflite args) = false.
Proof.
  split; [|apply convert_call_unbound].
  unfold Main.main. unfold_E.
  destruct (Cli.get_args split_nodename_and_shape make_opsetid py_int parsed)
    as [args| | | |] eqn:Hargs; try done.
  - intros Hu. apply convert_call_unbound in Hu as (Hg & Hc & Hs & Hk & Ht).
    apply get_args_inv in Hargs. cbv zeta in Hargs.
    destruct Hargs as (_ & Hsrc & _ & _ & _ & Hg' & _ & _ & _ & _ & _ & _
                       & Hs' & _ & _ & Hc' & Hk' & Ht' & _).
    rewrite <- Hg', <- Hs', <- Hc', <- Hk', <- Ht' in Hsrc.
    by rewrite Hg, Hc, Hs, Hk, Ht in Hsrc.
  - by destruct (get_args_not_unbound parsed).
Qed.

End MainProps.

Lemma main_custom_ops_colons_witness :
  ex_convert_call (ex_parsed_of (Some "model.pb") (AStr "y:0")
                     (Some "Foo:ai:bar,Baz") ANone)
  = Raised ValueError.
Proof.
  apply (main_custom_ops_colons ex_tf_opset "ai.onnx.converters.tensorflow"
           ex_loader ex_loader ex_from_saved_model ex_loader
           (ex_parsed_of (Some "model.pb") (AStr "y:0") (Some "Foo:ai:bar,Baz")
              ANone)
           "Foo:ai:bar,Baz" "Foo:ai:bar").
  - reflexivity.
  - done.
  - simpl. by left.
  - simpl. lia.
Defined.

Lemma main_custom_ops_handlers_witness :
  ∃ args call,
    ex_get_args ex_parsed = Returned args
    ∧ ex_convert_call args = Returned call
    ∧ Main.call_custom_op_handlers call !! "Foo"
      = Some (make_default_custom_op_handler "ai.bar", [])
    ∧ Main.call_custom_op_handlers call !! "Baz"
      = Some (make_default_custom_op_handler "ai.onnx.converters.tensorflow",
              [])
    ∧ Main.call_extra_opset call = [("com.microsoft", 1%Z); ex_tf_opset].
Proof.
  destruct (ex_get_args ex_parsed) as [args| | | |] eqn:Hargs;
    try by vm_compute in Hargs.
  vm_compute in Hargs. injection Hargs as <-.
  match goal with
  | |- ∃ args call, Returned ?a = _ ∧ _ => set (args := a)
  end.
  destruct (ex_convert_call args) as [call| | | |] eqn:Hrun;
    try by vm_compute in Hrun.
  exists args, call. split; [done|]. split; [done|].
  destruct (main_custom_ops_handlers ex_tf_opset
              "ai.onnx.converters.tensorflow" ex_loader ex_loader
              ex_from_saved_model ex_loader args call "Foo:ai.bar,Baz" Hrun)
    as (_ & _ & Hcolon & Hplain & Hextra); [done..|].
  split_and!.
  - apply (Hcolon [] "Foo" "ai.bar" ["Baz"]); [done|].
    intros op ->%list_elem_of_singleton. split; [done|].
    intros dom' Heq. simpl in Heq. discriminate Heq.
  - apply (Hplain ["Foo:ai.bar"] "Baz" []); [done | done |].
    intros op dom' Hin. by apply elem_of_nil in Hin.
  - rewrite Hextra. reflexivity.
Defined.

Lemma main_model_source_witness :
  ∃ args call,
    ex_get_args ex_parsed = Returned args
    ∧ ex_convert_call args = Returned call
    ∧ Main.call_frozen_graph call = Some "model.pb"
    ∧ Main.call_name call = "model.pb"
    ∧ Main.call_output_names call = Some ["y:0"; "z:0"]
    ∧ Main.call_initialized_tables call = None
    ∧ Main.call_tflite_path call = None.
Proof.
  destruct (ex_get_args ex_parsed) as [args| | | |] eqn:Hargs;
    try by vm_compute in Hargs.
  vm_compute in Hargs. injection Hargs as <-.
  match goal with
  | |- ∃ args call, Returned ?a = _ ∧ _ => set (args := a)
  end.
  destruct (ex_convert_call args) as [call| | | |] eqn:Hrun;
    try by vm_compute in Hrun.
  exists args, call. split; [done|]. split; [done|].
  pose proof (main_model_source ex_tf_opset "ai.onnx.converters.tensorflow"
                ex_loader ex_loader ex_from_saved_model ex_loader args call
                Hrun) as H.
  cbv zeta in H. destruct H as (_ & _ & _ & Htables & Hsrc).
  simpl in Htables, Hsrc.
  destruct Hsrc as (Htf & _ & r & [= <-] & Hg & _ & Ho & Hn).
  by split_and!.
Defined.

Lemma main_model_bound_witness :
  ex_main ex_parsed ≠ UnboundLocalError
  ∧ ex_convert_call (ex_parsed_of None ANone None ANone) = UnboundLocalError
  ∧ path_truthy (Cli.args_graphdef (ex_parsed_of None ANone None ANone)) = false.
Proof.
  destruct (main_model_bound ex_tf_opset "ai.onnx.converters.tensorflow"
              ex_loader ex_loader ex_from_saved_model ex_loader
              ex_split_nodename_and_shape ex_make_opsetid ex_py_int ex_parsed)
    as [Hmain Hcall].
  split; [exact Hmain|].
  assert (Hu : ex_convert_call (ex_parsed_of None ANone None ANone)
               = UnboundLocalError) by (vm_compute; reflexivity).
  split; [exact Hu|].
  by destruct (Hcall (ex_parsed_of None ANone None ANone) Hu) as [-> _].
Defined.

(** ** [from_graph] *)

Section FromGraphProps.

Context {GraphDef TfGraph OnnxGraph ModelProto Session : Type}.
Context {ConstValues Storage CustomOps Rewriter ExtraOpset : Type}.
Context {ShapeOverride Renames : Type}.

Variable compress_graph_def : GraphDef → ConstValues.
Variable ExternalTensorStorage : Storage.
Variable import_graph_def : GraphDef → TfGraph.
Variable process_tf_graph :
  TfGraph →
  @Convert.ProcessArgs ConstValues CustomOps ExtraOpset ShapeOverride Renames →
  Res OnnxGraph.
Variable optimize_graph : OnnxGraph → OnnxGraph.
Variable make_model : OnnxGraph → string → option Storage → ModelProto.
Variable tf_session : GraphDef → Res Session.
Variable inputs_without_resource : Session → list string → Res (list string).
Variable tf_optimize : list string → list string → GraphDef → Res GraphDef.

Implicit Types
  a b : @Api.GraphArgs GraphDef CustomOps Rewriter ExtraOpset ShapeOverride.

(** X19. [from_graph] makes no use of its parameters [custom_ops],
    [custom_op_handlers], [custom_rewriter] and [target]: two calls that
    differ only in these write the same files and end the same way, with
    any driver.  ([custom_ops] is handed to [_convert_common] as
    [custom_op_handlers], which that function does not pass on.) *)
Theorem from_graph_ignored_parameters freeze_session a b :
  Api.fg_graph_def a = Api.fg_graph_def b →
  Api.fg_name a = Api.fg_name b →
  Api.fg_input_names a = Api.fg_input_names b →
  Api.fg_output_names a = Api.fg_output_names b →
  Api.fg_opset a = Api.fg_opset b →
  Api.fg_inputs_as_nchw a = Api.fg_inputs_as_nchw b →
  Api.fg_extra_opset a = Api.fg_extra_opset b →
  Api.fg_shape_override a = Api.fg_shape_override b →
  Api.fg_large_model a = Api.fg_large_model b →
  Api.fg_output_path a = Api.fg_output_path b →
  Api.from_graph (Renames := Renames) compress_graph_def
    ExternalTensorStorage import_graph_def process_tf_graph optimize_graph
    make_model tf_session freeze_session inputs_without_resource tf_optimize a
  = Api.from_graph (Renames := Renames) compress_graph_def
    ExternalTensorStorage import_graph_def process_tf_graph optimize_graph
    make_model tf_session freeze_session inputs_without_resource tf_optimize b.
Proof.
  destruct a, b. simpl. intros -> -> -> -> -> -> -> -> -> ->.
  unfold Api.from_graph. simpl.
  repeat case_match; try done.
Qed.

(** X20. The graph [freeze_session] returns is not used: [from_graph]
    converts what [tf_optimize] makes of the graph it was given.  Two
    [freeze_session] that raise the same exceptions give the same run. *)
Theorem from_graph_freeze_unused freeze1 freeze2 a :
  (∀ sess i o e, freeze1 sess i o = Raise e ↔ freeze2 sess i o = Raise e) →
  Api.from_graph (Renames := Renames) compress_graph_def
    ExternalTensorStorage import_graph_def process_tf_graph optimize_graph
    make_model tf_session freeze1 inputs_without_resource tf_optimize a
  = Api.from_graph (Renames := Renames) compress_graph_def
    ExternalTensorStorage import_graph_def process_tf_graph optimize_graph
    make_model tf_session freeze2 inputs_without_resource tf_optimize a.
Proof.
  intros Hsame. unfold Api.from_graph.
  destruct (negb (names_truthy (Api.fg_input_names a))); [done|].
  destruct (negb (names_truthy (Api.fg_output_names a))); [done|].
  cbv zeta. destruct (tf_session (Api.fg_graph_def a)) as [sess|e]; [|done].
  destruct (freeze1 sess _ _) as [g1|e1] eqn:H1,
    (freeze2 sess _ _) as [g2|e2] eqn:H2.
  - done.
  - apply Hsame in H2. congruence.
  - apply Hsame in H1. congruence.
  - apply Hsame in H1. congruence.
Qed.

(** X21. [from_graph] raises [ValueError], before anything else is done,
    when the input names or the output names are missing or empty.  When it
    raises it has written nothing.  When it returns, both lists of names
    were given, the model is one made by [make_model] under the name
    "converted from" followed by the name given, or by "unknown" without
    one, and the only file written is that model at [output_path]. *)
Theorem from_graph_result freeze_session a :
  let run :=
    Api.from_graph (Renames := Renames) compress_graph_def
      ExternalTensorStorage import_graph_def process_tf_graph optimize_graph
      make_model tf_session freeze_session inputs_without_resource tf_optimize a in
  let name :=
    if path_truthy (Api.fg_name a) then default "" (Api.fg_name a)
    else "unknown" in
  (names_truthy (Api.fg_input_names a) = false
   ∨ names_truthy (Api.fg_output_names a) = false →
   run = ([], Raise ValueError))
  ∧ (∀ e, run.2 = Raise e → run.1 = [])
  ∧ (∀ m st, run.2 = Ret (m, st) →
       names_truthy (Api.fg_input_names a) = true
       ∧ names_truthy (Api.fg_output_names a) = true
       ∧ st = (if Api.fg_large_model a then Some ExternalTensorStorage
               else None)
       ∧ (∃ g, m = make_model (optimize_graph g) ("converted from " +:+ name)
                     st)
       ∧ run.1 =
           if path_truthy (Api.fg_output_path a) then
             [if Api.fg_large_model a
              then Convert.save_onnx_zip (default "" (Api.fg_output_path a))
                     m st
              else Convert.save_protobuf (default "" (Api.fg_output_path a))
                     m]
           else []).
Proof.
  cbv zeta. unfold Api.from_graph.
  destruct (names_truthy (Api.fg_input_names a)); simpl;
    [|split_and!; [done | done | by intros]].
  destruct (names_truthy (Api.fg_output_names a)); simpl;
    [|split_and!; [by intros [|] | done | by intros]].
  destruct (tf_session (Api.fg_graph_def a)) as [sess|e0];
    [|split_and!; [by intros [|] | done | by intros]].
  destruct (freeze_session sess _ _) as [fg|e0];
    [|split_and!; [by intros [|] | done | by intros]].
  destruct (inputs_without_resource sess _) as [ins|e0];
    [|split_and!; [by intros [|] | done | by intros]].
  destruct (tf_optimize ins _ _) as [frozen|e0];
    [|split_and!; [by intros [|] | done | by intros]].
  unfold Convert._convert_common. simpl.
  destruct (process_tf_graph _ _) as [g|e0]; simpl;
    [|split_and!; [by intros [|] | done | by intros]].
  split_and!; [by intros [|] | done |].
  intros m st [= <- <-]. split_and!; try done; [by exists g|].
  by destruct (path_truthy (Api.fg_output_path a)), (Api.fg_large_model a).
Qed.

End FromGraphProps.

Lemma from_graph_ignored_parameters_witness :
  ex_from_graph (ex_graph_args (Some ∅) (Some ["rs4"]))
  = ex_from_graph (ex_graph_args None None).
Proof.
  apply (from_graph_ignored_parameters (λ _ : Graph, ()) () (λ g : Graph, g)
           (process_tf_graph onnx_ml_registry 9) (λ r, r) (λ r _ _, r)
           (λ g, Ret g) (λ _ i, Ret i) (λ _ _ g, Ret g) (λ s _ _, Ret s)
           (ex_graph_args (Some ∅) (Some ["rs4"])) (ex_graph_args None None));
    reflexivity.
Defined.

Lemma from_graph_freeze_unused_witness :
  Api.from_graph (Rewriter := unit) (Session := Graph)
    (λ _ : Graph, ()) () (λ g : Graph, g)
    (process_tf_graph onnx_ml_registry 9) (λ r, r) (λ r _ _, r)
    (λ g, Ret g) (λ _ _ _, Ret ex_graph_size) (λ _ i, Ret i) (λ _ _ g, Ret g)
    (ex_graph_args None None)
  = ex_from_graph (ex_graph_args None None).
Proof.
  apply (from_graph_freeze_unused (λ _ : Graph, ()) () (λ g : Graph, g)
           (process_tf_graph onnx_ml_registry 9) (λ r, r) (λ r _ _, r)
           (λ g, Ret g) (λ _ i, Ret i) (λ _ _ g, Ret g)
           (λ _ _ _, Ret ex_graph_size) (λ s _ _, Ret s)
           (ex_graph_args None None)).
  intros sess i o e. split; intros H; discriminate H.
Defined.

Lemma from_graph_result_witness :
  ∃ m, ex_from_graph (ex_graph_args None None) = ([], Ret (m, None)).
Proof.
  destruct (ex_from_graph (ex_graph_args None None)) as [saved [[m st]|e]]
    eqn:Hrun; [|by vm_compute in Hrun].
  pose proof (from_graph_result (λ _ : Graph, ()) () (λ g : Graph, g)
                (process_tf_graph onnx_ml_registry 9) (λ r, r) (λ r _ _, r)
                (λ g, Ret g) (λ _ i, Ret i) (λ _ _ g, Ret g) (λ s _ _, Ret s)
                (ex_graph_args None None)) as H.
  cbv zeta in H. destruct H as (_ & _ & H).
  destruct (H m st) as (_ & _ & Hst & _ & Hsaved).
  - unfold ex_from_graph in Hrun. by rewrite Hrun.
  - unfold ex_from_graph in Hrun. rewrite Hrun in Hsaved. simpl in *.
    exists m. by rewrite Hst, Hsaved.
Defined.
